(** * News screener: the staged filtering pipeline and its history store

    A shallow embedding of [src/news_screener/main.py].

    Conventions of the embedding:
    - a Python [str] is a [string], the UTF-8 bytes of the text; the substring
      test [in], concatenation and the search for ASCII delimiters agree on
      code points and on UTF-8 bytes;
    - a report type is the [str] the code passes around ("daily", ...);
    - a [dict] keyed by strings is a [gmap string _]; a list is a [list];
    - the calls to the outside (the scoring, analysis and summary requests,
      the clock, the feed reader) are arguments of the functions that make
      them: an [option] result is [None] when the call raises. *)

From Stdlib Require Import ZArith QArith Qcanon Ascii String.
From stdpp Require Import base option list sorting strings gmap pretty.


(** ** [6] The schedule engine *)

Module Schedule.

(** The fields of [datetime] the engine reads. *)
Record datetime := mk_datetime { year : Z; month : Z; day : Z }.

(** [datetime.weekday()], as CPython's [datetime] module computes it from
    the proleptic Gregorian ordinal: Monday is 0 and Sunday is 6. *)
Definition is_leap (y : Z) : bool :=
  bool_decide (y mod 4 = 0)%Z &&
  (negb (bool_decide (y mod 100 = 0)%Z) || bool_decide (y mod 400 = 0)%Z).

Definition days_before_year (y : Z) : Z :=
  let p := (y - 1)%Z in
  (p * 365 + p / 4 - p / 100 + p / 400)%Z.

Definition DAYS_BEFORE_MONTH : list Z :=
  [0; 31; 59; 90; 120; 151; 181; 212; 243; 273; 304; 334]%Z.

Definition days_before_month (y m : Z) : Z :=
  (default 0 (DAYS_BEFORE_MONTH !! Z.to_nat (m - 1))
   + (if bool_decide (2 < m)%Z && is_leap y then 1 else 0))%Z.

Definition toordinal (d : datetime) : Z :=
  (days_before_year (year d) + days_before_month (year d) (month d) + day d)%Z.

Definition weekday (d : datetime) : Z := ((toordinal d + 6) mod 7)%Z.

(** [xs.append(x) if c]: the conditional appends of the engine. *)
Definition append_if (c : bool) (x : string) (xs : list string) : list string :=
  if c then xs ++ [x] else xs.

(** [m in (a, b, ...)] on month numbers. *)
Definition month_in (m : Z) (ms : list Z) : bool := bool_decide (m ∈ ms).

(** [determine_report_types(now)]; [utcnow] is the clock reading taken when
    the argument is [None]. *)
Definition determine_report_types (utcnow : datetime) (now : option datetime)
  : list string :=
  let now := default utcnow now in
  let reports := ["daily"] in
  let reports := append_if (bool_decide (weekday now = 5%Z)) "weekly" reports in
  let reports := append_if (bool_decide (day now = 1%Z)) "monthly" reports in
  let reports :=
    append_if (month_in (month now) [1; 4; 7; 10]%Z && bool_decide (day now = 1%Z))
      "quarterly" reports in
  let reports :=
    append_if (month_in (month now) [1; 7]%Z && bool_decide (day now = 1%Z))
      "semi_annual" reports in
  let reports :=
    append_if (bool_decide (month now = 1%Z) && bool_decide (day now = 1%Z))
      "annual" reports in
  reports.

(** The six report types in the fixed order of the engine. *)
Definition cadence_order : list string :=
  ["daily"; "weekly"; "monthly"; "quarterly"; "semi_annual"; "annual"].

End Schedule.

(** ** Python values and text helpers *)

Module Py.

(** A value [json.loads] can return. A finite [float] is the rational it
    denotes; [nan], [inf] and [-inf] are [PNonFinite]. A [dict] lists its
    items; [dict_get] reads the first item of a key. *)
#[warnings="-register-all"]
Inductive pyval :=
  | PNone
  | PBool (b : bool)
  | PInt (z : Z)
  | PFloat (q : Qc)
  | PNonFinite
  | PStr (s : string)
  | PList (l : list pyval)
  | PDict (d : list (string * pyval)).

Fixpoint dict_get (k : string) (d : list (string * pyval)) : option pyval :=
  match d with
  | [] => None
  | (k', v) :: d' => if decide (k = k') then Some v else dict_get k d'
  end.

Definition open_brace : ascii := "{"%char.
Definition close_brace : ascii := "}"%char.

(** The suffix of [s] that starts at its first open brace. *)
Fixpoint from_first_open (s : string) : option string :=
  match s with
  | EmptyString => None
  | String c r => if decide (c = open_brace) then Some s else from_first_open r
  end.

(** The prefix of [s] that ends at its last close brace. *)
Fixpoint upto_last_close (s : string) : option string :=
  match s with
  | EmptyString => None
  | String c r =>
      match upto_last_close r with
      | Some p => Some (String c p)
      | None => if decide (c = close_brace) then Some (String c EmptyString) else None
      end
  end.

(** [re.search(r"\{.*\}", s, re.DOTALL)] and [.group()]: the leftmost match
    starts at the first open brace, and the greedy [.*] (which crosses line
    ends under [DOTALL]) runs to the last close brace after it. *)
Definition json_span (s : string) : option string :=
  from_first_open s ≫= upto_last_close.

(** [needle in s] on [str]. *)
Fixpoint contains (needle s : string) : bool :=
  String.prefix needle s ||
  match s with
  | EmptyString => false
  | String _ r => contains needle r
  end.

(** [l[-n:]] for a count [n] that is not negative: the last [n] elements,
    all of [l] when it is shorter, and all of [l] for [n = 0] (where [-0] is
    the index [0]). *)
Definition slice_last {A} (n : nat) (l : list A) : list A :=
  match n with
  | O => l
  | S _ => drop (length l - n) l
  end.

End Py.

(** ** [3] Tier 1: batch scoring and the top-fraction selection *)

Module Tier1.
Import Py.

(** A news item: the [dict] that [fetch_news] builds, with the two keys
    that scoring adds ([None] while the key is absent). *)
Record Item := mk_item {
  source : string;
  title : string;
  content : string;
  date : string;
  link : string;
  score : option pyval;
  filter_reason : option pyval
}.

#[export] Instance Item_inhabited : Inhabited Item :=
  populate (mk_item EmptyString EmptyString EmptyString EmptyString EmptyString
            None None).

(** [item["score"] = v] and [item["filter_reason"] = v]. *)
Definition set_score (v : pyval) (it : Item) : Item :=
  mk_item (source it) (title it) (content it) (date it) (link it)
    (Some v) (filter_reason it).

Definition set_filter_reason (v : pyval) (it : Item) : Item :=
  mk_item (source it) (title it) (content it) (date it) (link it)
    (score it) (Some v).

(** [x.get("score", 0)], the sort key. *)
Definition score_key (it : Item) : pyval := default (PInt 0) (score it).

Definition BATCH_SIZE : nat := 20.

(** [range(0, n, BATCH_SIZE)]. *)
Definition batch_starts (n : nat) : list nat :=
  (λ k, k * BATCH_SIZE) <$> seq 0 ((n + BATCH_SIZE - 1) / BATCH_SIZE).

(** The state of the scoring loop. The items of [news_list] are objects
    shared with every batch slice and with [scored_news]: [store] holds each
    object once, at its position in [news_list], and [scored] lists the
    positions appended to [scored_news], so that a later write to an item
    shows in every place that refers to it. *)
Record state := mk_state { store : list Item; scored : list nat }.

(** [batch = news_list[batch_start:batch_start + BATCH_SIZE]]: the items and
    the length of the slice. *)
Definition batch_items (batch_start : nat) (st : state) : list Item :=
  take BATCH_SIZE (drop batch_start (store st)).

Definition batch_len (batch_start : nat) (st : state) : nat :=
  length (batch_items batch_start st).

(** [for x in v]: the elements a loop over [v] visits, [None] when [v] is
    not iterable. A [str] yields its characters (here one per byte) and a
    [dict] its keys, each a [str]. *)
Definition iter_items (v : pyval) : option (list pyval) :=
  match v with
  | PList l => Some l
  | PStr s => Some ((λ c, PStr (String c EmptyString)) <$> list_ascii_of_string s)
  | PDict d => Some ((λ kv, PStr kv.1) <$> d)
  | _ => None
  end.

(** [item["id"]]: [None] for the [KeyError] of a dict without the key and for
    the [TypeError] of any other value. *)
Definition subscript_id (entry : pyval) : option pyval :=
  match entry with
  | PDict d => dict_get "id" d
  | _ => None
  end.

(** [item.get(key, dflt)] on an entry that is a dict. *)
Definition entry_get (key : string) (dflt : pyval) (entry : pyval) : pyval :=
  match entry with
  | PDict d => default dflt (dict_get key d)
  | _ => dflt
  end.

(** What [if 0 <= idx < len(batch)] followed by [batch[idx]] does. *)
Inductive idx_result :=
  | Index (i : nat)        (* the test holds and [batch[idx]] is item [i] *)
  | Skip                   (* the test fails: the entry is passed over *)
  | IdxRaise.              (* the comparison or the subscript raises [TypeError] *)

Definition int_index (z : Z) (n : nat) : idx_result :=
  if bool_decide (0 ≤ z < Z.of_nat n)%Z then Index (Z.to_nat z) else Skip.

Definition check_idx (idx : pyval) (n : nat) : idx_result :=
  match idx with
  | PInt z => int_index z n
  | PBool b => int_index (Z.b2z b) n
  | PFloat q =>
      if bool_decide (Q2Qc 0 ≤ q)%Qc && bool_decide (q < Q2Qc (inject_Z (Z.of_nat n)))%Qc
      then IdxRaise else Skip
  | PNonFinite => Skip
  | PNone | PStr _ | PList _ | PDict _ => IdxRaise
  end.

(** One turn of [for item in result.get("scores", [])]: [None] when it
    raises, which happens before anything is written. *)
Definition score_entry (batch_start : nat) (entry : pyval) (st : state)
  : option state :=
  idx ← subscript_id entry;
  match check_idx idx (batch_len batch_start st) with
  | IdxRaise => None
  | Skip => Some st
  | Index i =>
      let v := entry_get "score" (PInt 0) entry in
      let r := entry_get "reason" (PStr EmptyString) entry in
      Some (mk_state
              (alter (λ it, set_filter_reason r (set_score v it)) (batch_start + i) (store st))
              (scored st ++ [batch_start + i]))
  end.

(** The loop over the entries: the state it reached, and whether it left by
    an exception. What was written before the exception stays written. *)
Fixpoint score_entries (batch_start : nat) (entries : list pyval) (st : state)
  : state * bool :=
  match entries with
  | [] => (st, false)
  | e :: es =>
      match score_entry batch_start e st with
      | None => (st, true)
      | Some st' => score_entries batch_start es st'
      end
  end.

(** [for item in batch: item["score"] = 50; scored_news.append(item)]. *)
Definition fallback (batch_start : nat) (st : state) : state :=
  foldl (λ st i,
           mk_state (alter (set_score (PInt 50)) (batch_start + i) (store st))
                    (scored st ++ [batch_start + i]))
        st (seq 0 (batch_len batch_start st)).

(** The sort key as an integer: an [int], or a [bool], which Python orders
    as 0 and 1. *)
Definition int_key (it : Item) : option Z :=
  match score_key it with
  | PInt z => Some z
  | PBool b => Some (Z.b2z b)
  | _ => None
  end.

Definition key_of (it : Item) : Z := default 0%Z (int_key it).

(** [l.sort(key=..., reverse=True)]: Python's sort is stable, and with
    [reverse=True] items of equal key still keep their order. The model is
    the stable insertion sort by decreasing key. *)
Section sort.
Context {A : Type} (key : A → Z).

Fixpoint insert_desc (x : A) (l : list A) : list A :=
  match l with
  | [] => [x]
  | y :: l' =>
      if bool_decide (key x < key y)%Z then y :: insert_desc x l' else x :: l
  end.

Definition sort_desc (l : list A) : list A := foldr insert_desc [] l.

(** Keys never increase along the list. *)
Definition desc (x y : A) : Prop := (key y ≤ key x)%Z.

(** [output] is [input] stably sorted by decreasing key: it is sorted, and
    for every key it holds the items of that key that [input] holds, in
    the order [input] has them. *)
Definition stably_sorted_desc (input output : list A) : Prop :=
  StronglySorted desc output
  ∧ ∀ k, filter (λ x, key x = k) output = filter (λ x, key x = k) input.
End sort.

(** [max(3, int(n * 0.05))]. The product is a floating-point one, truncated
    by [int]; for the length of a list it is the integer quotient by 20. *)
Definition top_count (n : nat) : nat := 3 `max` (n / 20).

(** The sort and the slice [scored_news[:top_count]] that end
    [tier1_filter]. The result is [None] when some key is not an integer:
    Python then compares floats or strings, or raises [TypeError], none of
    which is modelled. *)
Definition select_top (scored_news : list Item) : option (list Item) :=
  if bool_decide (Forall (λ it, is_Some (int_key it)) scored_news)
  then Some (take (top_count (length scored_news)) (sort_desc key_of scored_news))
  else None.

Section scoring.
(** [client.messages.create(...)] followed by
    [response.content[0].text.strip()] for the batch starting at the given
    position with the given items: [None] when the request raises. *)
Variable create : nat → list Item → option string.
(** [json.loads]: [None] for a [JSONDecodeError]. *)
Variable json_loads : string → option pyval.

(** The body of [try], with the flag telling that it raised. *)
Definition try_score (batch_start : nat) (st : state) : state * bool :=
  match create batch_start (batch_items batch_start st) with
  | None => (st, true)
  | Some response_text =>
      match json_span response_text with
      | None => (fallback batch_start st, false)
      | Some span =>
          match json_loads span with
          | Some (PDict result) =>
              match iter_items (default (PList []) (dict_get "scores" result)) with
              | Some entries => score_entries batch_start entries st
              | None => (st, true)
              end
          | Some _ => (st, true)
          | None => (st, true)
          end
      end
  end.

(** One turn of [for batch_start in range(...)], with its [except]. *)
Definition score_batch (st : state) (batch_start : nat) : state :=
  let '(st', raised) := try_score batch_start st in
  if raised then fallback batch_start st' else st'.

(** The scoring loop of [tier1_filter], up to the sort. *)
Definition score_all (news_list : list Item) : state :=
  foldl score_batch (mk_state news_list []) (batch_starts (length news_list)).

(** [scored_news] as the sort finds it: each reference read at the end. *)
Definition scored_items (st : state) : list Item :=
  (λ i, store st !!! i) <$> scored st.

Definition scored_news (news_list : list Item) : list Item :=
  scored_items (score_all news_list).

Definition tier1_filter (news_list : list Item) : option (list Item) :=
  match news_list with
  | [] => Some []
  | _ => select_top (scored_news news_list)
  end.
End scoring.

(** *** The writes of a batch

    A second description of the scoring loop, used to reason about it: what
    a batch does is a list of writes, each one updating the item
    [batch[i]] and appending it to [scored_news], and that list is
    determined by the items of the batch and the answer to its request. *)

Definition write : Type := nat * (Item → Item).

Definition apply_write (batch_start : nat) (st : state) (w : write) : state :=
  mk_state (alter w.2 (batch_start + w.1) (store st))
           (scored st ++ [batch_start + w.1]).

Definition apply_writes (batch_start : nat) (ws : list write) (st : state)
  : state :=
  foldl (apply_write batch_start) st ws.

(** The writes seen from the batch: what they make of its items, and the
    references they append. *)
Definition alter_all (ws : list write) (batch : list Item) : list Item :=
  foldl (λ l w, alter w.2 w.1 l) batch ws.

Definition refs_of (batch_start : nat) (ws : list write) : list nat :=
  (λ w, batch_start + w.1) <$> ws.

(** The write of one entry of the answer for a batch of [n] items: [None]
    when the entry raises, [Some None] when it is passed over. *)
Definition entry_write (n : nat) (entry : pyval) : option (option write) :=
  idx ← subscript_id entry;
  match check_idx idx n with
  | IdxRaise => None
  | Skip => Some None
  | Index i =>
      let v := entry_get "score" (PInt 0) entry in
      let r := entry_get "reason" (PStr EmptyString) entry in
      Some (Some (i, λ it, set_filter_reason r (set_score v it)))
  end.

Fixpoint entries_writes (n : nat) (entries : list pyval) : list write * bool :=
  match entries with
  | [] => ([], false)
  | e :: es =>
      match entry_write n e with
      | None => ([], true)
      | Some ow =>
          let '(ws, raised) := entries_writes n es in
          (option_list ow ++ ws, raised)
      end
  end.

Definition fallback_writes (n : nat) : list write :=
  (λ i, (i, set_score (PInt 50))) <$> seq 0 n.

(** The positions, within a batch of [n] items, of the entries that the
    success path accepts: those whose id is an index of the batch. *)
Definition accepted (n : nat) (entries : list pyval) : list nat :=
  omap (λ entry,
          match subscript_id entry with
          | Some idx =>
              match check_idx idx n with
              | Index i => Some i
              | _ => None
              end
          | None => None
          end) entries.

(** A reference of [scored_news] belongs to the batch that starts at
    [batch_start]. *)
Definition in_batch (batch_start : nat) (r : nat) : Prop :=
  batch_start ≤ r < batch_start + BATCH_SIZE.

#[export] Instance in_batch_dec batch_start r : Decision (in_batch batch_start r).
Proof. unfold in_batch. apply _. Defined.

Section writes.
Variable create : nat → list Item → option string.
Variable json_loads : string → option pyval.

Definition try_writes (batch_start : nat) (batch : list Item)
  : list write * bool :=
  match create batch_start batch with
  | None => ([], true)
  | Some response_text =>
      match json_span response_text with
      | None => (fallback_writes (length batch), false)
      | Some span =>
          match json_loads span with
          | Some (PDict result) =>
              match iter_items (default (PList []) (dict_get "scores" result)) with
              | Some entries => entries_writes (length batch) entries
              | None => ([], true)
              end
          | Some _ => ([], true)
          | None => ([], true)
          end
      end
  end.

Definition batch_writes (batch_start : nat) (batch : list Item) : list write :=
  let '(ws, raised) := try_writes batch_start batch in
  if raised then ws ++ fallback_writes (length batch) else ws.

(** An entry that the loop handles without an exception: a dict with an
    ["id"] that the test and the subscript accept or pass over. *)
Definition entry_ok (n : nat) (entry : pyval) : Prop :=
  ∃ idx, subscript_id entry = Some idx ∧ check_idx idx n ≠ IdxRaise.

(** An answer to the request for a batch of [n] items after which every
    item of the batch is in [scored_news] exactly once: the request fails,
    or the answer has no brace-delimited span, or the span is not JSON, or
    it is an object whose ["scores"] are entries handled without an
    exception that name every index of the batch exactly once. *)
Definition complete_answer (n : nat) (answer : option string) : Prop :=
  answer = None
  ∨ ∃ text, answer = Some text ∧
      (json_span text = None
       ∨ ∃ span, json_span text = Some span ∧
           (json_loads span = None
            ∨ ∃ result entries,
                json_loads span = Some (PDict result)
                ∧ dict_get "scores" result = Some (PList entries)
                ∧ Forall (entry_ok n) entries
                ∧ accepted n entries ≡ₚ seq 0 n)).
End writes.

End Tier1.

(** ** JSON documents: [json.dump] and [json.load]

    The documents are those without floating-point numbers; a document
    with one is outside the model, and [loads] answers [None] for it as it
    does for a text that [json.loads] rejects. *)

Module Json.
Import Py.

#[warnings="-register-all"]
Inductive json :=
  | JNull
  | JBool (b : bool)
  | JInt (z : Z)
  | JStr (s : string)
  | JArr (l : list json)
  | JObj (members : list (string * json)).

Definition dquote : ascii := "034"%char.
Definition backslash : ascii := "092"%char.
Definition newline_char : ascii := "010"%char.

(** *** Writing, as [json.dumps(v, ensure_ascii=False, indent=2)] does

    Each function puts its text in front of [rest]. *)

Definition hex_digit (n : nat) : ascii :=
  match n with
  | 0 => "0" | 1 => "1" | 2 => "2" | 3 => "3" | 4 => "4" | 5 => "5"
  | 6 => "6" | 7 => "7" | 8 => "8" | 9 => "9" | 10 => "a" | 11 => "b"
  | 12 => "c" | 13 => "d" | 14 => "e" | _ => "f"
  end%char.

(** A character inside a string: the quote, the backslash and the control
    characters are escaped, all others (with [ensure_ascii=False]) are
    written as they are. *)
Definition escape_char_to (c : ascii) (rest : string) : string :=
  if decide (c = dquote) then String backslash (String dquote rest)
  else if decide (c = backslash) then String backslash (String backslash rest)
  else if decide (c = "010"%char) then String backslash (String "n" rest)
  else if decide (c = "013"%char) then String backslash (String "r" rest)
  else if decide (c = "009"%char) then String backslash (String "t" rest)
  else if decide (c = "008"%char) then String backslash (String "b" rest)
  else if decide (c = "012"%char) then String backslash (String "f" rest)
  else if decide (nat_of_ascii c < 32) then
    String backslash (String "u" (String "0" (String "0"
      (String (hex_digit (nat_of_ascii c / 16))
         (String (hex_digit (nat_of_ascii c mod 16)) rest)))))
  else String c rest.

Fixpoint escape_to (s : string) (rest : string) : string :=
  match s with
  | EmptyString => rest
  | String c r => escape_char_to c (escape_to r rest)
  end.

Definition dump_string_to (s : string) (rest : string) : string :=
  String dquote (escape_to s (String dquote rest)).

Fixpoint indent_to (level : nat) (rest : string) : string :=
  match level with
  | O => rest
  | S level => String " " (String " " (indent_to level rest))
  end.

Definition newline_indent_to (level : nat) (rest : string) : string :=
  String newline_char (indent_to level rest).

(** The items of an array or an object after the first one, and the
    closing bracket on a line of its own. *)
Definition dump_items_to {A} (dump_item : A → string → string)
    (level : nat) (close : ascii) : list A → string → string :=
  fix items (xs : list A) (rest : string) : string :=
    match xs with
    | [] => newline_indent_to level (String close rest)
    | y :: ys =>
        String "," (newline_indent_to (S level) (dump_item y (items ys rest)))
    end.

Definition dump_member_to (dump_value : json → string → string)
    (member : string * json) (rest : string) : string :=
  dump_string_to member.1 (String ":" (String " " (dump_value member.2 rest))).

Fixpoint dump_to (level : nat) (v : json) (rest : string) : string :=
  match v with
  | JNull => "null" +:+ rest
  | JBool true => "true" +:+ rest
  | JBool false => "false" +:+ rest
  | JInt z => pretty z +:+ rest
  | JStr s => dump_string_to s rest
  | JArr [] => String "[" (String "]" rest)
  | JArr (x :: xs) =>
      String "["
        (newline_indent_to (S level)
           (dump_to (S level) x
              (dump_items_to (dump_to (S level)) level "]" xs rest)))
  | JObj [] => String "{" (String "}" rest)
  | JObj (m :: ms) =>
      String "{"
        (newline_indent_to (S level)
           (dump_member_to (dump_to (S level)) m
              (dump_items_to (dump_member_to (dump_to (S level))) level "}"
                 ms rest)))
  end.

Definition dumps (v : json) : string := dump_to 0 v EmptyString.

(** *** Reading, as [json.loads] does *)

Definition is_ws (c : ascii) : bool :=
  bool_decide (c = " "%char) || bool_decide (c = "009"%char)
  || bool_decide (c = "010"%char) || bool_decide (c = "013"%char).

Fixpoint skip_ws (s : string) : string :=
  match s with
  | EmptyString => EmptyString
  | String c r => if is_ws c then skip_ws r else s
  end.

Definition digit_value (c : ascii) : option nat :=
  let n := nat_of_ascii c in
  if decide (48 ≤ n ≤ 57) then Some (n - 48) else None.

Definition hex_value (c : ascii) : option N :=
  let n := N_of_ascii c in
  if decide (48 ≤ n ≤ 57)%N then Some (n - 48)%N
  else if decide (97 ≤ n ≤ 102)%N then Some (n - 87)%N
  else if decide (65 ≤ n ≤ 70)%N then Some (n - 55)%N
  else None.

(** The character after a backslash, other than [u]. *)
Definition unescape (e : ascii) : option ascii :=
  if decide (e = dquote) then Some dquote
  else if decide (e = backslash) then Some backslash
  else if decide (e = "/"%char) then Some "/"%char
  else if decide (e = "b"%char) then Some "008"%char
  else if decide (e = "f"%char) then Some "012"%char
  else if decide (e = "n"%char) then Some "010"%char
  else if decide (e = "r"%char) then Some "013"%char
  else if decide (e = "t"%char) then Some "009"%char
  else None.

(** The UTF-8 bytes of the code point of a [\uXXXX] escape, put in front
    of [rest]. A surrogate has none: an escaped surrogate, alone or in a
    pair, is outside the model and gives [None]. *)
Definition utf8_to (code : N) (rest : string) : option string :=
  if decide (code < 128)%N then Some (String (ascii_of_N code) rest)
  else if decide (code < 2048)%N then
    Some (String (ascii_of_N (192 + code / 64))
            (String (ascii_of_N (128 + code mod 64)) rest))
  else if decide (55296 ≤ code < 57344)%N then None
  else
    Some (String (ascii_of_N (224 + code / 4096))
            (String (ascii_of_N (128 + (code / 64) mod 64))
               (String (ascii_of_N (128 + code mod 64)) rest))).

(** The rest of a string after its opening quote: the text up to the
    closing quote, and what follows it. A control character that is not
    escaped is an error. *)
Fixpoint parse_string_body (s : string) : option (string * string) :=
  match s with
  | EmptyString => None
  | String c r =>
      if decide (c = dquote) then Some (EmptyString, r)
      else if decide (c = backslash) then
        match r with
        | EmptyString => None
        | String e r1 =>
            if decide (e = "u"%char) then
              match r1 with
              | String h1 (String h2 (String h3 (String h4 r2))) =>
                  d1 ← hex_value h1; d2 ← hex_value h2;
                  d3 ← hex_value h3; d4 ← hex_value h4;
                  '(str, rest) ← parse_string_body r2;
                  str' ← utf8_to (((d1 * 16 + d2) * 16 + d3) * 16 + d4)%N str;
                  Some (str', rest)
              | _ => None
              end
            else
              ch ← unescape e;
              '(str, rest) ← parse_string_body r1;
              Some (String ch str, rest)
        end
      else if decide (nat_of_ascii c < 32) then None
      else
        '(str, rest) ← parse_string_body r;
        Some (String c str, rest)
  end.

Fixpoint read_digits (acc : Z) (s : string) : Z * string :=
  match s with
  | EmptyString => (acc, s)
  | String c r =>
      match digit_value c with
      | Some d => read_digits (acc * 10 + Z.of_nat d) r
      | None => (acc, s)
      end
  end.

(** An integer without its sign: a lone [0], or digits that start with
    another digit. *)
Definition parse_unsigned (s : string) : option (Z * string) :=
  match s with
  | EmptyString => None
  | String c r =>
      match digit_value c with
      | Some O => Some (0%Z, r)
      | Some d => Some (read_digits (Z.of_nat d) r)
      | None => None
      end
  end.

Definition starts_fraction (s : string) : bool :=
  match s with
  | EmptyString => false
  | String c _ =>
      bool_decide (c = "."%char) || bool_decide (c = "e"%char)
      || bool_decide (c = "E"%char)
  end.

(** A number: an integer, and [None] for a float (a fraction or an
    exponent follows, or the text is [NaN] or an infinity). *)
Definition parse_number (s : string) : option (json * string) :=
  '(z, rest) ← match s with
               | String "-" r => (λ zr, (- zr.1, zr.2)%Z) <$> parse_unsigned r
               | _ => parse_unsigned s
               end;
  if starts_fraction rest then None else Some (JInt z, rest).

(** [s] without the prefix [p]. *)
Fixpoint strip_prefix (p s : string) : option string :=
  match p, s with
  | EmptyString, _ => Some s
  | String a p', String b s' => if decide (a = b) then strip_prefix p' s' else None
  | String _ _, EmptyString => None
  end.

Definition parse_atom (s : string) : option (json * string) :=
  match strip_prefix "null" s with
  | Some rest => Some (JNull, rest)
  | None =>
      match strip_prefix "true" s with
      | Some rest => Some (JBool true, rest)
      | None =>
          match strip_prefix "false" s with
          | Some rest => Some (JBool false, rest)
          | None => parse_number s
          end
      end
  end.

Fixpoint parse_value (fuel : nat) (s : string) : option (json * string) :=
  match fuel with
  | O => None
  | S fuel =>
      match skip_ws s with
      | EmptyString => None
      | String c r =>
          if decide (c = dquote) then
            '(str, rest) ← parse_string_body r; Some (JStr str, rest)
          else if decide (c = "["%char) then
            match skip_ws r with
            | EmptyString => None
            | String c' r' =>
                if decide (c' = "]"%char) then Some (JArr [], r')
                else '(l, rest) ← parse_elements fuel r; Some (JArr l, rest)
            end
          else if decide (c = "{"%char) then
            match skip_ws r with
            | EmptyString => None
            | String c' r' =>
                if decide (c' = "}"%char) then Some (JObj [], r')
                else '(ms, rest) ← parse_members fuel r; Some (JObj ms, rest)
            end
          else parse_atom (String c r)
      end
  end
with parse_elements (fuel : nat) (s : string) : option (list json * string) :=
  match fuel with
  | O => None
  | S fuel =>
      '(v, rest) ← parse_value fuel s;
      match skip_ws rest with
      | EmptyString => None
      | String c r =>
          if decide (c = ","%char) then
            '(vs, rest') ← parse_elements fuel r; Some (v :: vs, rest')
          else if decide (c = "]"%char) then Some ([v], r)
          else None
      end
  end
with parse_members (fuel : nat) (s : string)
  : option (list (string * json) * string) :=
  match fuel with
  | O => None
  | S fuel =>
      match skip_ws s with
      | EmptyString => None
      | String c r =>
          if decide (c = dquote) then
            '(key, rest) ← parse_string_body r;
            match skip_ws rest with
            | EmptyString => None
            | String c1 r1 =>
                if decide (c1 = ":"%char) then
                  '(v, rest2) ← parse_value fuel r1;
                  match skip_ws rest2 with
                  | EmptyString => None
                  | String c2 r2 =>
                      if decide (c2 = ","%char) then
                        '(ms, rest3) ← parse_members fuel r2;
                        Some ((key, v) :: ms, rest3)
                      else if decide (c2 = "}"%char) then Some ([(key, v)], r2)
                      else None
                  end
                else None
            end
          else None
      end
  end.

(** [json.loads]: one value, with nothing but white space after it. Of
    two nested calls in a row at least one reads a character, so the fuel
    of twice the length is not used up. *)
Definition loads (s : string) : option json :=
  '(v, rest) ← parse_value (S (2 * String.length s)) s;
  match skip_ws rest with
  | EmptyString => Some v
  | String _ _ => None
  end.

(** The Python value of a document. A [dict] built from an object keeps,
    for a key written twice, the value written last: the items are listed
    latest first, so that [dict_get] finds it. *)
Fixpoint to_py (v : json) : pyval :=
  match v with
  | JNull => PNone
  | JBool b => PBool b
  | JInt z => PInt z
  | JStr s => PStr s
  | JArr l => PList (to_py <$> l)
  | JObj ms => PDict (reverse ((λ m, (m.1, to_py m.2)) <$> ms))
  end.

Definition loads_py (s : string) : option pyval := to_py <$> loads s.

(** A document of strings, arrays and objects only, as the history file is. *)
Fixpoint textual (v : json) : Prop :=
  match v with
  | JNull | JBool _ | JInt _ => False
  | JStr _ => True
  | JArr l => foldr (λ x acc, textual x ∧ acc) True l
  | JObj ms => foldr (λ m acc, textual m.2 ∧ acc) True ms
  end.

(** A number of calls that reading a document takes at most. *)
Fixpoint calls_of (v : json) : nat :=
  match v with
  | JNull | JBool _ | JInt _ | JStr _ => 1
  | JArr l => S (foldr (λ x acc, S (calls_of x) + acc) 0 l)
  | JObj ms => S (foldr (λ m acc, S (calls_of m.2) + acc) 0 ms)
  end.

(** *** Reasoning about documents *)

(** Induction on a document, with the items of an array and the members
    of an object as premises. *)
Section json_induction.
Variable P : json → Prop.
Hypothesis Hnull : P JNull.
Hypothesis Hbool : ∀ b, P (JBool b).
Hypothesis Hnum : ∀ z, P (JInt z).
Hypothesis Hstr : ∀ s, P (JStr s).
Hypothesis Harr : ∀ l, Forall P l → P (JArr l).
Hypothesis Hobj : ∀ ms, Forall (λ m : string * json, P m.2) ms → P (JObj ms).

Fixpoint json_nested_ind (v : json) : P v :=
  match v with
  | JNull => Hnull
  | JBool b => Hbool b
  | JInt z => Hnum z
  | JStr s => Hstr s
  | JArr l =>
      Harr l ((fix go (l : list json) : Forall P l :=
                 match l with
                 | [] => @List.Forall_nil json P
                 | x :: xs =>
                     @List.Forall_cons json P x xs (json_nested_ind x) (go xs)
                 end) l)
  | JObj ms =>
      Hobj ms ((fix go (ms : list (string * json))
                  : Forall (λ m : string * json, P m.2) ms :=
                  match ms with
                  | [] => @List.Forall_nil _ _
                  | (k, x) :: ms' =>
                      @List.Forall_cons _ (λ m : string * json, P m.2) (k, x) ms'
                        (json_nested_ind x) (go ms')
                  end) ms)
  end.
End json_induction.

(** The first character of the text of a value. *)
Definition opens (c : ascii) : Prop :=
  c = dquote ∨ c = "["%char ∨ c = "{"%char.

(** Reading back what was written, for one value. *)
Definition reads_back (v : json) : Prop :=
  ∀ level rest fuel,
    calls_of v ≤ fuel → parse_value fuel (dump_to level v rest) = Some (v, rest).

(** The text of a value is at least as long as the calls that reading it
    takes. *)
Definition long_enough (v : json) : Prop :=
  ∀ level rest,
    calls_of v + String.length rest ≤ String.length (dump_to level v rest).

End Json.

(** ** [7] The history store and the accumulated context *)

Module History.
Import Py.

(** A history entry is the dict [{"date": ..., "summary": ...}]; the store
    maps a report type to its entries, oldest first. *)
Abbreviation Entry := (gmap string string).
Abbreviation Store := (gmap string (list (gmap string string))).

Definition newline : string := String (ascii_of_nat 10) EmptyString.

Definition context_map : gmap string (string * nat) :=
  {[ "weekly" := ("daily", 7);
     "monthly" := ("weekly", 4);
     "quarterly" := ("monthly", 3);
     "semi_annual" := ("quarterly", 2);
     "annual" := ("semi_annual", 2) ]}.

(** [f"- {entry.get('date', 'N/A')}: {entry.get('summary', 'N/A')}\n"]. *)
Definition context_line (entry : Entry) : string :=
  "- " +:+ default "N/A" (entry !! "date") +:+ ": "
       +:+ default "N/A" (entry !! "summary") +:+ newline.

(** The first line of a context block that is not empty. *)
Definition context_header (n : nat) (source_type : string) : string :=
  "[최근 " +:+ pretty n +:+ "건의 " +:+ source_type +:+ " 리포트 요약]" +:+ newline.

Definition get_accumulated_context (report_type : string) (history : Store)
  : string :=
  match context_map !! report_type with
  | None => EmptyString
  | Some (source_type, count) =>
      let entries := slice_last count (default [] (history !! source_type)) in
      match entries with
      | [] => EmptyString
      | _ =>
          foldl (λ context entry, context +:+ context_line entry)
                (context_header (length entries) source_type) entries
      end
  end.

(** *** The history file *)

(** The store that [load_history] returns when there is no file. *)
Definition empty_store : Store :=
  {[ "daily" := []; "weekly" := []; "monthly" := []; "quarterly" := [];
     "semi_annual" := []; "annual" := [] ]}.

Section dict_order.
(** The order in which [json.dump] writes the items of a dict is the order
    of their insertion, which a [gmap] does not record: the writer takes
    it as an argument, an enumeration of the items of a dict. *)
Variable items_of : ∀ A : Type, gmap string A → list (string * A).

(** The document of a store. *)
Definition encode_entry (e : Entry) : Json.json :=
  Json.JObj ((λ kv, (kv.1, Json.JStr kv.2)) <$> items_of _ e).

Definition encode_store (history : Store) : Json.json :=
  Json.JObj ((λ kv, (kv.1, Json.JArr (encode_entry <$> kv.2)))
               <$> items_of _ history).

(** [save_history(history)]: the text that the file holds afterwards. *)
Definition save_history (history : Store) : string :=
  Json.dumps (encode_store history).
End dict_order.

(** The enumeration of a dict in the order of [map_to_list]. *)
Definition map_order (A : Type) (m : gmap string A) : list (string * A) :=
  map_to_list m.

(** The dict of the members of an object: a key written twice keeps the
    value written last. *)
Definition dict_of {A} (members : list (string * A)) : gmap string A :=
  foldl (λ m kv, <[kv.1 := kv.2]> m) ∅ members.

(** The store of a document: [None] when the document is not an object
    of arrays of objects of strings, which is outside the model. *)
Definition decode_entry (v : Json.json) : option Entry :=
  match v with
  | Json.JObj ms =>
      dict_of <$> mapM (λ m : string * Json.json,
                          match m.2 with
                          | Json.JStr s => Some (m.1, s)
                          | _ => None
                          end) ms
  | _ => None
  end.

Definition decode_store (v : Json.json) : option Store :=
  match v with
  | Json.JObj ms =>
      dict_of <$> mapM (λ m : string * Json.json,
                          match m.2 with
                          | Json.JArr l => (λ es, (m.1, es)) <$> mapM decode_entry l
                          | _ => None
                          end) ms
  | _ => None
  end.

(** [load_history()] for the content of the file, [None] when there is no
    file. The result is [None] when [json.load] raises or the document is
    not a store. *)
Definition load_history (file : option string) : option Store :=
  match file with
  | Some text => Json.loads text ≫= decode_store
  | None => Some empty_store
  end.

(** The lines of a block, one after the other. *)
Definition join (lines : list string) : string := foldr String.append EmptyString lines.

Definition limits : gmap string nat :=
  {[ "daily" := 30; "weekly" := 12; "monthly" := 12;
     "quarterly" := 8; "semi_annual" := 4; "annual" := 3 ]}.

(** [limits.get(report_type, 10)]. *)
Definition max_entries (report_type : string) : nat :=
  default 10 (limits !! report_type).

Definition summary_failed : string := "요약 생성 실패".

(** [save_report_summary]. [summarize] is the summary request for a report
    body with [response.content[0].text.strip()] taken of the answer,
    [None] when that raises; [utcnow_label] is
    [datetime.utcnow().strftime("%Y-%m-%d %H:%M UTC")]. The function
    updates [history] in place: the result is the store after the call. *)
Definition save_report_summary (summarize : string → option string)
    (utcnow_label : string) (report_type report_body : string)
    (history : Store) : Store :=
  let summary :=
    match summarize report_body with
    | Some text => text
    | None => summary_failed
    end in
  let entry : Entry := {[ "date" := utcnow_label; "summary" := summary ]} in
  let history :=
    match history !! report_type with
    | None => <[report_type := []]> history
    | Some _ => history
    end in
  let history :=
    <[report_type := default [] (history !! report_type) ++ [entry]]> history in
  <[report_type :=
      slice_last (max_entries report_type) (default [] (history !! report_type))]>
    history.

(** The entry that a call of [save_report_summary] writes. *)
Definition new_entry (summarize : string → option string)
    (utcnow_label report_body : string) : Entry :=
  {[ "date" := utcnow_label;
     "summary" := default summary_failed (summarize report_body) ]}.

(** A run of calls of [save_report_summary] on one store, each with its
    report type, its report body and the clock label of its moment. *)
Definition save_all (summarize : string → option string)
    (calls : list (string * string * string)) (history : Store) : Store :=
  foldl (λ h call, save_report_summary summarize call.2 call.1.1 call.1.2 h)
        history calls.

End History.

(** ** [4], [5], [8] The analysis, the delivery and the run *)

Module Pipeline.
Import Py Tier1 History.

Definition error_marker : string := "분석 오류".

(** [text.replace("\xa0", " ")]: in UTF-8 the no-break space is the two
    bytes 194 and 160. *)
Fixpoint replace_nbsp (s : string) : string :=
  match s with
  | EmptyString => EmptyString
  | String c r =>
      match r with
      | String c' r' =>
          if decide (c = "194"%char ∧ c' = "160"%char)
          then String " " (replace_nbsp r')
          else String c (replace_nbsp r)
      | EmptyString => s
      end
  end.

(** What a run writes to the outside, in order. *)
Inductive event :=
  | SendEmail (report_body report_type : string)
  | SaveSummary (report_type report_body : string)
  | SaveHistory (history : Store).

(** The four settings that [main] checks. *)
Record config := mk_config {
  ANTHROPIC_API_KEY : string;
  EMAIL_USER : string;
  EMAIL_PASSWORD : string;
  EMAIL_RECEIVER : string
}.

(** How [main] ends. *)
Inductive outcome :=
  | Fatal (message : string)
      (* a return after a [FATAL] message: nothing was sent or saved *)
  | Failed
      (* [load_history] or the sort of [tier1_filter] has no result *)
  | Completed (log : list event) (file : string).
      (* the loop ran; [file] is the history file that the run leaves *)

Section run.
(** [unicodedata.normalize("NFKC", text)] and [text.strip()]. *)
Variable nfkc : string → string.
Variable strip : string → string.
(** The scoring request and [json.loads], as in [Tier1]. *)
Variable create : nat → list Item → option string.
Variable json_loads : string → option pyval.
(** The analysis request of [tier2_analyze] for a report type, the selected
    news and a context: the text of the answer, or the exception as
    [str(e)] and [traceback.format_exc()]. *)
Variable analysis : string → list Item → string → string + string * string.
(** The summary request of [save_report_summary] for a report body. *)
Variable summarize : string → option string.
(** The clock label that [save_report_summary] reads, by report type. *)
Variable utcnow_label : string → string.
(** The order in which [save_history] writes the items of a dict. *)
Variable items_of : ∀ A : Type, gmap string A → list (string * A).

Definition clean_report_body (text : string) : string :=
  strip (replace_nbsp (nfkc text)).

Definition tier2_analyze (top_news : list Item) (report_type : string)
    (accumulated_context : string) : string :=
  match analysis report_type top_news accumulated_context with
  | inl text => clean_report_body text
  | inr (e, trace) =>
      "<h3>분석 오류</h3><p>" +:+ e +:+ "</p><pre>" +:+ trace +:+ "</pre>"
  end.

(** [report_body and "분석 오류" not in report_body]. *)
Definition report_ok (report_body : string) : bool :=
  bool_decide (report_body ≠ EmptyString) && negb (contains error_marker report_body).

(** One turn of the loop over the report types, on the history and the
    log of the run so far. [send_email] catches what it raises, and on a
    store of entries neither [get_accumulated_context] nor
    [save_report_summary] raises: the [except] of the loop is not reached. *)
Definition run_report (top_news : list Item) (st : Store * list event)
    (report_type : string) : Store * list event :=
  let accumulated_context := get_accumulated_context report_type st.1 in
  let report_body := tier2_analyze top_news report_type accumulated_context in
  if report_ok report_body
  then (save_report_summary summarize (utcnow_label report_type) report_type
          report_body st.1,
        st.2 ++ [SendEmail report_body report_type;
                 SaveSummary report_type report_body])
  else st.

(** [main()]: [utcnow] is the clock, [file] the history file when there is
    one, [fetched] what [fetch_news()] returns. *)
Definition main (cfg : config) (utcnow : Schedule.datetime)
    (file : option string) (fetched : list Item) : outcome :=
  if decide (ANTHROPIC_API_KEY cfg = EmptyString) then Fatal "ANTHROPIC_API_KEY"
  else if decide (EMAIL_USER cfg = EmptyString ∨ EMAIL_PASSWORD cfg = EmptyString
                  ∨ EMAIL_RECEIVER cfg = EmptyString) then Fatal "EMAIL"
  else
    let report_types := Schedule.determine_report_types utcnow None in
    match load_history file with
    | None => Failed
    | Some history =>
        match fetched with
        | [] => Fatal "fetch_news"
        | _ =>
            match tier1_filter create json_loads fetched with
            | None => Failed
            | Some [] => Fatal "tier1_filter"
            | Some top_news =>
                let st := foldl (run_report top_news) (history, []) report_types in
                Completed (st.2 ++ [SaveHistory st.1])
                  (save_history items_of st.1)
            end
        end
    end.
End run.

(** The report type of an event of the loop. *)
Definition event_type (ev : event) : option string :=
  match ev with
  | SendEmail _ report_type => Some report_type
  | SaveSummary report_type _ => Some report_type
  | SaveHistory _ => None
  end.

End Pipeline.

(** ** Sample inputs *)

Module Samples.
Import Py Tier1.

(** A text in double quotes. *)
Definition quoted (s : string) : string :=
  String Json.dquote (s +:+ String Json.dquote EmptyString).

Definition sample_item (name : string) : Item :=
  mk_item "feed" name "body" "Sat, 01 Nov 2025" "https://example.org" None None.

(** Lines of text, with a line end between two of them. *)
Fixpoint lines (ls : list string) : string :=
  match ls with
  | [] => EmptyString
  | [l] => l
  | l :: ls' => l +:+ String "010" (lines ls')
  end.

(** One entry [{"id": i, "score": s}] of an answer. *)
Definition sample_entry (i s : string) : string :=
  "{" +:+ quoted "id" +:+ ": " +:+ i +:+ ", " +:+ quoted "score" +:+ ": " +:+ s
      +:+ "}".

(** An answer [{"scores": [...]}] with prose around it. *)
Definition sample_answer (entries : string) : string :=
  "Here are the scores: {" +:+ quoted "scores" +:+ ": [" +:+ entries +:+ "]} Done.".

(** Two items, and an answer that scores the first one only. *)
Definition two_items : list Item := [sample_item "a"; sample_item "b"].

Definition answer_first_only (_ : nat) (_ : list Item) : option string :=
  Some (sample_answer (sample_entry "0" "85")).

(** An answer that names both items, the second one first. *)
Definition answer_both (_ : nat) (_ : list Item) : option string :=
  Some (sample_answer (sample_entry "1" "40" +:+ ", " +:+ sample_entry "0" "85")).

(** Twenty-two items in two batches: the first request is answered with
    an entry for item 0 and one for the index 25, which no item has; the
    second request fails. *)
Definition many_items : list Item := replicate 22 (sample_item "n").

Definition answer_then_fail (batch_start : nat) (_ : list Item) : option string :=
  if decide (batch_start = 0)
  then Some (sample_answer (sample_entry "0" "85" +:+ ", " +:+ sample_entry "25" "10"))
  else None.

(** An answer that scores the first item twice. *)
Definition answer_twice (_ : nat) (_ : list Item) : option string :=
  Some (sample_answer (sample_entry "0" "85" +:+ ", " +:+ sample_entry "0" "10")).

(** An answer whose second entry has no id. *)
Definition answer_no_id (_ : nat) (_ : list Item) : option string :=
  Some (sample_answer (sample_entry "0" "85" +:+ ", {" +:+ quoted "score"
                         +:+ ": 5}")).

(** The two items as [answer_both] has them scored and the selection
    leaves them. *)
Definition two_items_top : list Item :=
  [ set_filter_reason (PStr EmptyString) (set_score (PInt 85) (sample_item "a"));
    set_filter_reason (PStr EmptyString) (set_score (PInt 40) (sample_item "b")) ].

Definition sample_config : Pipeline.config :=
  Pipeline.mk_config "key" "me@example.org" "secret" "you@example.org".

(** A Saturday that is the first of a month. *)
Definition saturday : Schedule.datetime := Schedule.mk_datetime 2025 11 1.

(** An analysis that fails for the daily report, succeeds for the weekly
    one, and for any other succeeds with a text that holds the marker. *)
Definition sample_analysis (report_type : string) (_ : list Item) (_ : string)
  : string + string * string :=
  if decide (report_type = "daily") then inr ("timeout", "Traceback")
  else if decide (report_type = "weekly") then inl "<h3>Weekly</h3>"
  else inl "<p>지난달 분석 오류 사례</p>".

Definition marked_analysis (_ : string) (_ : list Item) (_ : string)
  : string + string * string :=
  inl "<p>지난달 분석 오류 사례</p>".

Definition failing_analysis (_ : string) (_ : list Item) (_ : string)
  : string + string * string :=
  inr ("timeout", "Traceback").

Definition no_summary (_ : string) : option string := None.

Definition sample_clock (_ : string) : string := "2025-11-01 07:00 UTC".

Definition scored_item (name : string) (score reason : option pyval) : Item :=
  mk_item name "title" "body" "Sat, 01 Nov 2025" "https://example.org"
    score reason.

(** Five scored items: one without a score (its key is 0), two of equal
    score, one scored [True]. *)
Definition sample_scored : list Item :=
  [ scored_item "a" (Some (PInt 10)) None;
    scored_item "b" (Some (PInt 90)) (Some (PStr "r"));
    scored_item "c" None None;
    scored_item "d" (Some (PInt 10)) None;
    scored_item "e" (Some (PBool true)) None ].

(** A store with a summary that holds a quote, a line end and a tab. *)
Definition sample_store : gmap string (list (gmap string string)) :=
  {[ "daily" := [ {[ "date" := "2025-10-31 07:00 UTC";
                     "summary" := "금리 동결. " +:+ quoted "AI" +:+ " 랠리 지속."
                                    +:+ String "010" (String "009" "끝") ]};
                  {[ "date" := "2025-11-01 07:00 UTC"; "summary" := "s2" ]} ];
     "weekly" := [] ]}.

End Samples.

(** ** [0] The cleaning of texts *)

Module Text.
Import Py.

(** Texts are UTF-8 bytes. A character that the functions below look for
    (a space character, an angle bracket) is recognised by its bytes: in
    well-formed UTF-8 these bytes occur nowhere but as that character,
    since the first byte of a character is never a continuation byte
    (128 to 191) of another. *)

(** The code of a byte. *)
Definition code (c : ascii) : nat := nat_of_ascii c.

(** The ASCII characters that [str.isspace] accepts: tab to carriage
    return, the four separators 28 to 31, and the space. *)
Definition ascii_space (c : ascii) : bool :=
  bool_decide (9 ≤ code c ≤ 13 ∨ 28 ≤ code c ≤ 32).

(** The other characters that [str.isspace] accepts, in UTF-8: U+0085 and
    U+00A0 (two bytes), U+1680, U+2000 to U+200A, U+2028, U+2029, U+202F,
    U+205F and U+3000 (three bytes). *)
Definition space2 (c1 c2 : ascii) : bool :=
  bool_decide (code c1 = 194 ∧ (code c2 = 133 ∨ code c2 = 160)).

Definition space3 (c1 c2 c3 : ascii) : bool :=
  bool_decide
    ((code c1 = 225 ∧ code c2 = 154 ∧ code c3 = 128)
     ∨ (code c1 = 226 ∧ code c2 = 128
        ∧ (128 ≤ code c3 ≤ 138 ∨ code c3 = 168 ∨ code c3 = 169 ∨ code c3 = 175))
     ∨ (code c1 = 226 ∧ code c2 = 129 ∧ code c3 = 159)
     ∨ (code c1 = 227 ∧ code c2 = 128 ∧ code c3 = 128)).

(** The number of bytes of the whitespace character that [s] starts with,
    0 when it starts with none. *)
Definition ws_len (s : string) : nat :=
  match s with
  | String c1 r1 =>
      if ascii_space c1 then 1
      else
        match r1 with
        | String c2 r2 =>
            if space2 c1 c2 then 2
            else
              match r2 with
              | String c3 _ => if space3 c1 c2 c3 then 3 else 0
              | EmptyString => 0
              end
        | EmptyString => 0
        end
  | EmptyString => 0
  end.

(** [s.lstrip()]: [skip] counts the bytes still to pass of the whitespace
    character being removed. *)
Fixpoint lstrip_from (skip : nat) (s : string) : string :=
  match s with
  | EmptyString => EmptyString
  | String _ r =>
      match skip with
      | S k => lstrip_from k r
      | O =>
          match ws_len s with
          | S k => lstrip_from k r
          | O => s
          end
      end
  end.

(** [s.isspace() or not s]: [s] is made of whitespace characters. *)
Fixpoint all_ws_from (skip : nat) (s : string) : bool :=
  match s with
  | EmptyString => true
  | String _ r =>
      match skip with
      | S k => all_ws_from k r
      | O =>
          match ws_len s with
          | S k => all_ws_from k r
          | O => false
          end
      end
  end.

(** [s.rstrip()]: the text up to the place from which only whitespace
    follows. *)
Fixpoint rstrip (s : string) : string :=
  match s with
  | EmptyString => EmptyString
  | String c r => if all_ws_from 0 s then EmptyString else String c (rstrip r)
  end.

(** [s.strip()]. *)
Definition strip (s : string) : string := rstrip (lstrip_from 0 s).

(** [re.sub(r"\s+", " ", s)]: every maximal run of whitespace characters
    becomes one space. [in_run] tells that the run being read has its
    space already. *)
Fixpoint collapse_ws (skip : nat) (in_run : bool) (s : string) : string :=
  match s with
  | EmptyString => EmptyString
  | String c r =>
      match skip with
      | S k => collapse_ws k in_run r
      | O =>
          match ws_len s with
          | S k =>
              if in_run then collapse_ws k true r
              else String " " (collapse_ws k true r)
          | O => String c (collapse_ws 0 false r)
          end
      end
  end.

Definition open_angle : ascii := "<"%char.
Definition close_angle : ascii := ">"%char.

(** [re.sub] of the pattern [<[^>]+>] by the empty text. Outside a tag
    the text is copied up to the next [<]. After a [<], [pending] holds
    (last byte first) the bytes read since: the next [>] closes the tag,
    which is dropped when it has at least one byte between [<] and [>];
    [<>] is no tag and is copied; at the end of the text no [>] follows
    and all of it is copied. The scan goes on after a dropped tag, as the
    substitution does with matches that do not overlap. *)
Fixpoint strip_tags_in (pending : list ascii) (s : string) : string :=
  match s with
  | EmptyString => String open_angle (string_of_list_ascii (reverse pending))
  | String c r =>
      if decide (c = close_angle)
      then match pending with
           | [] => String open_angle (String close_angle (strip_tags_out r))
           | _ => strip_tags_out r
           end
      else strip_tags_in (c :: pending) r
  end
with strip_tags_out (s : string) : string :=
  match s with
  | EmptyString => EmptyString
  | String c r =>
      if decide (c = open_angle) then strip_tags_in [] r
      else String c (strip_tags_out r)
  end.

(** [text.replace] of the no-break space U+00A0 and of the zero-width
    space U+200B by the empty text: in UTF-8 the first is the bytes
    194 160 and the second the bytes 226 128 139. *)
Fixpoint remove_nbsp (s : string) : string :=
  match s with
  | EmptyString => EmptyString
  | String c r =>
      match r with
      | String c' r' =>
          if decide (code c = 194 ∧ code c' = 160) then remove_nbsp r'
          else String c (remove_nbsp r)
      | EmptyString => s
      end
  end.

Fixpoint remove_zwsp (s : string) : string :=
  match s with
  | EmptyString => EmptyString
  | String c r =>
      match r with
      | String c' (String c'' r'') =>
          if decide (code c = 226 ∧ code c' = 128 ∧ code c'' = 139)
          then remove_zwsp r''
          else String c (remove_zwsp r)
      | _ => String c (remove_zwsp r)
      end
  end.

(** [text.encode("ascii", "ignore").decode("ascii")]: the characters that
    are not ASCII are left out; in UTF-8 those are the bytes from 128 on. *)
Fixpoint ascii_only (s : string) : string :=
  match s with
  | EmptyString => EmptyString
  | String c r =>
      if bool_decide (code c < 128) then String c (ascii_only r) else ascii_only r
  end.

(** [s.isascii()]. *)
Definition isascii (s : string) : bool :=
  forallb (λ c, bool_decide (code c < 128)) (list_ascii_of_string s).

(** [s[:n]] on characters: a byte from 128 to 191 continues the character
    before it. *)
Definition continuation (c : ascii) : bool := bool_decide (128 ≤ code c < 192).

Fixpoint take_chars (n : nat) (s : string) : string :=
  match s with
  | EmptyString => EmptyString
  | String c r =>
      if continuation c then String c (take_chars n r)
      else
        match n with
        | S n' => String c (take_chars n' r)
        | O => EmptyString
        end
  end.

(** [len(s)]: the number of characters. *)
Definition len (s : string) : nat :=
  length (filter (λ c, continuation c = false) (list_ascii_of_string s)).

Section cleaning.
(** [unicodedata.normalize("NFKC", text)]. *)
Variable nfkc : string → string.

(** [forensic_clean(text, var_name)], without what it prints; [text] is
    [None] for Python's [None]. *)
Definition forensic_clean (text : option string) (var_name : string) : string :=
  match text with
  | None => EmptyString
  | Some text => strip (ascii_only (remove_zwsp (remove_nbsp (nfkc text))))
  end.

(** [clean_rss_text(text)]. *)
Definition clean_rss_text (text : option string) : string :=
  match text with
  | None => EmptyString
  | Some text => strip (collapse_ws 0 false (strip_tags_out (nfkc text)))
  end.
End cleaning.

(** *** Notions used to state what the cleaning gives *)

(** The bytes of a text. *)
Definition chars (s : string) : list ascii := list_ascii_of_string s.

(** Every [<] of the text has [>] right after it or no [>] after it: no
    part of the text matches [<[^>]+>]. *)
Definition tag_free (s : string) : Prop :=
  ∀ pre suf,
    s = pre +:+ String open_angle suf →
    (∃ suf', suf = String close_angle suf') ∨ close_angle ∉ chars suf.

(** Every whitespace character of the text is a space that stands between
    two characters that are not whitespace. *)
Definition single_spaced (s : string) : Prop :=
  ∀ pre suf,
    s = pre +:+ suf → ws_len suf ≠ 0 →
    pre ≠ EmptyString
    ∧ ∃ suf', suf = String " " suf' ∧ suf' ≠ EmptyString ∧ ws_len suf' = 0.

End Text.

(** ** [2] The collection of the news *)

Module Feed.
Import Py Tier1 Text.

(** The sources, in the order of the dict. *)
Definition RSS_URLS : list (string * string) :=
  [ ("Yahoo Finance", "https://finance.yahoo.com/news/rssindex");
    ("Investing.com", "https://www.investing.com/rss/news.rss");
    ("Google News (Biz)",
     "https://news.google.com/rss/headlines/section/topic/BUSINESS?hl=en-US&gl=US&ceid=US:en");
    ("Google News (Tech)",
     "https://news.google.com/rss/headlines/section/topic/TECHNOLOGY?hl=en-US&gl=US&ceid=US:en");
    ("Google News (KR Biz)",
     "https://news.google.com/rss/headlines/section/topic/BUSINESS?hl=ko&gl=KR&ceid=KR:ko");
    ("Google News (KR Tech)",
     "https://news.google.com/rss/headlines/section/topic/TECHNOLOGY?hl=ko&gl=KR&ceid=KR:ko");
    ("Hacker News", "https://news.ycombinator.com/rss");
    ("TechCrunch", "https://techcrunch.com/feed/");
    ("Project Syndicate", "https://www.project-syndicate.org/rss");
    ("OilPrice", "https://oilprice.com/rss/main");
    ("CoinDesk", "https://www.coindesk.com/arc/outboundfeeds/rss/") ].

(** An entry of a parsed feed, as far as [fetch_news] reads it. An
    attribute that the entry does not have is [None]; the value of an
    attribute is a [str] or Python's [None]. [entry_content] lists the
    [value] of each object of [entry.content]. *)
Record entry := mk_entry {
  entry_title : option (option string);
  entry_link : option (option string);
  entry_published : option (option string);
  entry_content : option (list (option string));
  entry_summary_detail : option (option string);
  entry_summary : option (option string)
}.

(** [getattr(entry, name, default)] with the empty text as default. *)
Definition getattr (attribute : option (option string)) : option string :=
  default (Some EmptyString) attribute.

(** The [if hasattr ... elif ... elif] that reads the content: [None] for
    the [IndexError] of [entry.content[0]] on an empty list. *)
Definition raw_content (e : entry) : option (option string) :=
  match entry_content e with
  | Some [] => None
  | Some (value :: _) => Some value
  | None =>
      match entry_summary_detail e with
      | Some value => Some value
      | None =>
          match entry_summary e with
          | Some value => Some value
          | None => Some (Some EmptyString)
          end
      end
  end.

Section fetching.
Variable nfkc : string → string.
(** [feedparser.parse(url)] and [feed.entries]: [None] when that raises. *)
Variable parse : string → option (list entry).

(** The body of the loop over the entries: [None] when it raises, and
    otherwise the item that it appends, if it appends one. *)
Definition read_entry (source : string) (e : entry) : option (option Item) :=
  let title := clean_rss_text nfkc (getattr (entry_title e)) in
  let link := clean_rss_text nfkc (getattr (entry_link e)) in
  let pub_date := clean_rss_text nfkc (getattr (entry_published e)) in
  content ← raw_content e;
  let content := take_chars 3000 (clean_rss_text nfkc content) in
  Some (if decide (title = EmptyString) then None
        else Some (mk_item source title content pub_date link None None)).

(** [for entry in feed.entries[:15]], on the list [all_news]: what the
    list holds when the loop ends, and whether it ended by an exception. *)
Fixpoint read_entries (source : string) (entries : list entry)
    (all_news : list Item) : list Item * bool :=
  match entries with
  | [] => (all_news, false)
  | e :: entries' =>
      match read_entry source e with
      | None => (all_news, true)
      | Some None => read_entries source entries' all_news
      | Some (Some item) => read_entries source entries' (all_news ++ [item])
      end
  end.

(** One turn of [for source, url in RSS_URLS.items()], with its [except],
    which only prints. *)
Definition read_source (all_news : list Item) (source_url : string * string)
  : list Item :=
  match parse source_url.2 with
  | None => all_news
  | Some entries => (read_entries source_url.1 (take 15 entries) all_news).1
  end.

Definition fetch_news : list Item := foldl read_source [] RSS_URLS.
End fetching.

(** What [fetch_news] gives every item that it appends for a source. *)
Definition fetched (source : string) (it : Item) : Prop :=
  Tier1.source it = source
  ∧ title it ≠ EmptyString
  ∧ single_spaced (title it) ∧ tag_free (title it)
  ∧ len (content it) ≤ 3000
  ∧ score it = None ∧ filter_reason it = None.

End Feed.

(** ** [1], [5] The settings and the delivery *)

Module Mail.
Import Py Text Pipeline.

(** The settings of [1]: each one is [forensic_clean] of the value of its
    environment variable, of the empty text when the variable is not set. *)
Definition read_settings (nfkc : string → string) (environ : gmap string string)
  : config :=
  let setting name := forensic_clean nfkc (Some (default EmptyString (environ !! name))) name in
  mk_config (setting "ANTHROPIC_API_KEY") (setting "EMAIL_USER")
    (setting "EMAIL_PASSWORD") (setting "EMAIL_RECEIVER").

Definition type_labels : gmap string string :=
  {[ "daily" := "일간 브리핑"; "weekly" := "주간 전략"; "monthly" := "월간 전략";
     "quarterly" := "분기 전략"; "semi_annual" := "반기 전략";
     "annual" := "연간 전략" ]}.

(** [type_labels.get(report_type, report_type)]. *)
Definition label (report_type : string) : string :=
  default report_type (type_labels !! report_type).

(** [f"[Strategic Council] {label} | {safe_date}"]. *)
Definition subject (report_type safe_date : string) : string :=
  "[Strategic Council] " +:+ label report_type +:+ " | " +:+ safe_date.

(** How [send_email] ends: by the [return] after the test of the
    password, after the SMTP session, or in the [except] of the session. *)
Inductive delivery := Refused | Delivered | SmtpFailed.

(** [send_email(report_body, report_type)]. [safe_date] is the date of the
    clock; [smtp] is the SMTP session for the settings and for the subject
    and the body of the message, [false] when it raises. The message is
    the fixed HTML frame around the subject, the label, the date and the
    body; the frame is not modelled. *)
Definition send_email (smtp : config → string → string → bool) (cfg : config)
    (safe_date report_body report_type : string) : delivery :=
  if negb (isascii (EMAIL_PASSWORD cfg)) then Refused
  else if smtp cfg (subject report_type safe_date) report_body then Delivered
  else SmtpFailed.

End Mail.

(** ** Notions used to state the properties *)

Module Notions.
Import Py Tier1 History Pipeline.

(** The five keys that [fetch_news] gives an item. *)
Definition fetched_fields (it : Item) : string * string * string * string * string :=
  (source it, title it, content it, date it, link it).

(** A write of the scoring loop: it sets the score of an item and leaves
    the keys of [fetch_news] as they are. *)
Definition scoring_write (w : write) : Prop :=
  ∀ it, fetched_fields (w.2 it) = fetched_fields it ∧ is_Some (score (w.2 it)).

(** What the loop keeps true of its state. *)
Definition scoring_inv (news_list : list Item) (st : state) : Prop :=
  fetched_fields <$> store st = fetched_fields <$> news_list
  ∧ Forall (λ r, ∃ it, store st !! r = Some it ∧ is_Some (score it)) (scored st).

(** The request failed, or its answer has no brace-delimited span, or the
    span is not JSON. *)
Definition unusable (json_loads : string → option pyval) (answer : option string)
  : Prop :=
  answer = None
  ∨ ∃ text, answer = Some text
            ∧ (json_span text = None
               ∨ ∃ span, json_span text = Some span ∧ json_loads span = None).

(** The events of an accepted report. *)
Definition accepted_events (a : string * string) : list event :=
  [SendEmail a.2 a.1; SaveSummary a.1 a.2].

(** [x] stands before [y] in [l]. *)
Fixpoint stands_before (x y : string) (l : list string) : bool :=
  match l with
  | [] => false
  | z :: l' => if decide (z = x) then bool_decide (y ∈ l') else stands_before x y l'
  end.

(** The entry names the item [i] of a batch of [n] items: its id passes
    the test and indexes that item. *)
Definition names (n i : nat) (entry : pyval) : bool :=
  match subscript_id entry with
  | Some idx =>
      match check_idx idx n with
      | Index j => bool_decide (j = i)
      | _ => false
      end
  | None => false
  end.

(** What an entry that is accepted writes to its item. *)
Definition entry_scoring (entry : pyval) (it : Item) : Item :=
  set_filter_reason (entry_get "reason" (PStr EmptyString) entry)
    (set_score (entry_get "score" (PInt 0) entry) it).

End Notions.

(** ** More sample inputs *)

Module Scenarios.
Import Py Tier1.

(** A scoring request that always fails. *)
Definition no_answer (_ : nat) (_ : list Item) : option string := None.

(** An analysis that succeeds for every report type. *)
Definition steady_analysis (report_type : string) (_ : list Item) (_ : string)
  : string + string * string :=
  inl ("<h3>" +:+ report_type +:+ "</h3>").

(** A summary request that succeeds. *)
Definition short_summary (_ : string) : option string := Some "three sentences".

(** Report bodies with the clock labels of their summaries. *)
Definition two_reports : list (string * string) :=
  [ ("<p>first</p>", "2025-04-01 07:00 UTC");
    ("<p>second</p>", "2025-07-01 07:00 UTC") ].

(** A feed reader: the first source has three entries, the second of
    which has no title; the feed of "Hacker News" has an entry and then
    one whose content list is empty; no other feed can be read. *)
Definition sample_feed (url : string) : option (list Feed.entry) :=
  if decide (url = "https://finance.yahoo.com/news/rssindex") then
    Some [ Feed.mk_entry (Some (Some " <b>Fed</b>  holds rates "))
             (Some (Some "https://example.org/1"))
             (Some (Some "Sat, 01 Nov 2025")) None None
             (Some (Some "<p>Rates stay.</p>"));
           Feed.mk_entry None None None None None (Some (Some "no title"));
           Feed.mk_entry (Some (Some "<br>")) None None None None None ]
  else if decide (url = "https://news.ycombinator.com/rss") then
    Some [ Feed.mk_entry (Some (Some "Show HN")) None None None None None;
           Feed.mk_entry (Some (Some "Ask HN")) None None (Some []) None None;
           Feed.mk_entry (Some (Some "Tell HN")) None None None None None ]
  else None.

(** A scoring answer without entries. *)
Definition answer_nothing (_ : nat) (_ : list Item) : option string :=
  Some (Samples.sample_answer EmptyString).

(** An analysis that answers with a space, a line end, a no-break space
    and a space. *)
Definition blank_analysis (_ : string) (_ : list Item) (_ : string)
  : string + string * string :=
  inl (" " +:+ String "010" (String "194" (String "160" " "))).

End Scenarios.

(** * Properties *)

(** ** The schedule engine *)

Module ScheduleFacts.
Import Schedule.

Lemma elem_of_append_if (x y : string) (c : bool) (xs : list string) :
  x ∈ append_if c y xs ↔ x ∈ xs ∨ (c = true ∧ x = y).
Proof.
  unfold append_if. destruct c.
  - rewrite elem_of_app, list_elem_of_singleton. intuition congruence.
  - intuition congruence.
Qed.

Lemma sublist_append_if (c : bool) (y : string) (xs ys : list string) :
  xs `sublist_of` ys → append_if c y xs `sublist_of` (ys ++ [y]).
Proof.
  intros Hs. unfold append_if. destruct c.
  - by apply sublist_app.
  - by apply sublist_inserts_r.
Qed.

Lemma determine_report_types_sublist utcnow now :
  determine_report_types utcnow now `sublist_of` cadence_order.
Proof.
  unfold determine_report_types.
  change cadence_order with
    (((((["daily"] ++ ["weekly"]) ++ ["monthly"]) ++ ["quarterly"])
        ++ ["semi_annual"]) ++ ["annual"]).
  repeat apply sublist_append_if. reflexivity.
Qed.

Lemma cadence_order_NoDup : NoDup cadence_order.
Proof. by apply (bool_decide_unpack _). Qed.

Lemma determine_report_types_NoDup utcnow now :
  NoDup (determine_report_types utcnow now).
Proof.
  eapply sublist_NoDup; [apply cadence_order_NoDup|].
  apply determine_report_types_sublist.
Qed.

Ltac due_iff :=
  rewrite !elem_of_append_if, list_elem_of_singleton, !andb_true_iff,
    !bool_decide_eq_true;
  intuition congruence.

(** C4. [determine_report_types] depends on the given date alone (not on
    the clock); its result starts with "daily"; it holds "weekly" exactly
    on a Saturday, "monthly" exactly on day 1, "quarterly" exactly on day 1
    of month 1, 4, 7 or 10, "semi_annual" exactly on day 1 of month 1 or 7,
    "annual" exactly on 1 January; the report types come in the fixed
    order daily, weekly, monthly, quarterly, semi_annual, annual. On
    2025-01-01 the result is daily, monthly, quarterly, semi_annual, annual
    and on 2025-11-01 it is daily, weekly, monthly. *)
Theorem determine_report_types_spec (utcnow utcnow' now : datetime) :
  let r := determine_report_types utcnow (Some now) in
  determine_report_types utcnow' (Some now) = r
  ∧ (∃ rest, r = "daily" :: rest)
  ∧ ("weekly" ∈ r ↔ weekday now = 5%Z)
  ∧ ("monthly" ∈ r ↔ day now = 1%Z)
  ∧ ("quarterly" ∈ r ↔ month now ∈ [1; 4; 7; 10]%Z ∧ day now = 1%Z)
  ∧ ("semi_annual" ∈ r ↔ month now ∈ [1; 7]%Z ∧ day now = 1%Z)
  ∧ ("annual" ∈ r ↔ month now = 1%Z ∧ day now = 1%Z)
  ∧ r `sublist_of` cadence_order
  ∧ determine_report_types utcnow (Some (mk_datetime 2025 1 1))
    = ["daily"; "monthly"; "quarterly"; "semi_annual"; "annual"]
  ∧ determine_report_types utcnow (Some (mk_datetime 2025 11 1))
    = ["daily"; "weekly"; "monthly"].
Proof.
  cbv zeta. split; [reflexivity|].
  unfold determine_report_types, month_in. simpl default.
  split; [|split; [|split; [|split; [|split; [|split; [|split]]]]]].
  - unfold append_if. repeat case_match; simpl; eauto.
  - due_iff.
  - due_iff.
  - due_iff.
  - due_iff.
  - due_iff.
  - apply (determine_report_types_sublist utcnow (Some now)).
  - split; vm_compute; reflexivity.
Qed.

(** 2025-01-01 was a Wednesday, 2025-11-01 a Saturday and 2024-02-29 a
    Thursday. *)
Example weekday_samples :
  weekday (mk_datetime 2025 1 1) = 2%Z
  ∧ weekday (mk_datetime 2025 11 1) = 5%Z
  ∧ weekday (mk_datetime 2024 2 29) = 3%Z.
Proof. repeat split; vm_compute; reflexivity. Qed.

End ScheduleFacts.

(** ** The top-fraction selection *)

Module SelectFacts.
Import Py Tier1.

Section sort_facts.
Context {A : Type} (key : A → Z).

Lemma insert_desc_perm (x : A) (l : list A) : insert_desc key x l ≡ₚ x :: l.
Proof.
  induction l as [|y l IH]; simpl; [done|].
  case_bool_decide; [|done].
  rewrite IH. apply Permutation_swap.
Qed.

Lemma sort_desc_perm (l : list A) : sort_desc key l ≡ₚ l.
Proof.
  induction l as [|x l IH]; simpl; [done|].
  rewrite insert_desc_perm. by f_equiv.
Qed.

Lemma insert_desc_sorted (x : A) (l : list A) :
  StronglySorted (desc key) l → StronglySorted (desc key) (insert_desc key x l).
Proof.
  induction l as [|y l IH]; simpl; intros Hs.
  - repeat constructor.
  - apply StronglySorted_cons in Hs as [Hy Hs].
    case_bool_decide as Hlt.
    + apply StronglySorted_cons. split; [|by apply IH].
      rewrite insert_desc_perm. constructor; [unfold desc; lia|done].
    + apply StronglySorted_cons. split; [|by apply StronglySorted_cons].
      constructor; [unfold desc; lia|].
      eapply Forall_impl; [exact Hy|]. unfold desc. intros z ?. lia.
Qed.

Lemma sort_desc_sorted (l : list A) : StronglySorted (desc key) (sort_desc key l).
Proof.
  induction l as [|x l IH]; simpl; [constructor|by apply insert_desc_sorted].
Qed.

Lemma insert_desc_filter (k : Z) (x : A) (l : list A) :
  filter (λ y, key y = k) (insert_desc key x l) = filter (λ y, key y = k) (x :: l).
Proof.
  induction l as [|y l IH]; simpl; [done|].
  case_bool_decide as Hlt; [|done].
  rewrite (filter_cons _ y), IH, !filter_cons.
  repeat case_decide; try done. lia.
Qed.

Lemma sort_desc_stable (k : Z) (l : list A) :
  filter (λ y, key y = k) (sort_desc key l) = filter (λ y, key y = k) l.
Proof.
  induction l as [|x l IH]; simpl; [done|].
  rewrite insert_desc_filter, !filter_cons, IH. done.
Qed.

Lemma sort_desc_stably_sorted (l : list A) :
  stably_sorted_desc key l (sort_desc key l).
Proof. split; [apply sort_desc_sorted|intros k; apply sort_desc_stable]. Qed.

(** Two sorted lists that hold the same items of every key in the same
    order are equal: a stable sort has one possible result. *)
Lemma stable_sort_unique (l1 l2 : list A) :
  StronglySorted (desc key) l1 → StronglySorted (desc key) l2 →
  (∀ k, filter (λ y, key y = k) l1 = filter (λ y, key y = k) l2) →
  l1 = l2.
Proof.
  revert l2. induction l1 as [|x l1 IH]; intros l2 Hs1 Hs2 Hf.
  - destruct l2 as [|y l2]; [done|].
    specialize (Hf (key y)). rewrite filter_nil, filter_cons in Hf.
    by case_decide.
  - destruct l2 as [|y l2].
    { specialize (Hf (key x)). rewrite filter_nil, filter_cons in Hf.
      by case_decide. }
    apply StronglySorted_cons in Hs1 as [Hx Hs1].
    apply StronglySorted_cons in Hs2 as [Hy Hs2].
    assert (key x = key y) as Hk.
    { assert (key x ≤ key y)%Z.
      { assert (x ∈ filter (λ z, key z = key x) (y :: l2)) as Hin.
        { rewrite <-Hf, filter_cons. case_decide; [|done]. left. }
        apply list_elem_of_filter in Hin as [_ Hin].
        apply elem_of_cons in Hin as [->|Hin]; [lia|].
        eapply Forall_forall in Hy; [|exact Hin]. exact Hy. }
      assert (key y ≤ key x)%Z.
      { assert (y ∈ filter (λ z, key z = key y) (x :: l1)) as Hin.
        { rewrite Hf, filter_cons. case_decide; [|done]. left. }
        apply list_elem_of_filter in Hin as [_ Hin].
        apply elem_of_cons in Hin as [->|Hin]; [lia|].
        eapply Forall_forall in Hx; [|exact Hin]. exact Hx. }
      lia. }
    assert (x = y) as ->.
    { specialize (Hf (key x)). rewrite !filter_cons in Hf.
      repeat case_decide; try done. congruence. }
    f_equal. apply IH; [done..|].
    intros k. specialize (Hf k). rewrite !filter_cons in Hf.
    case_decide; congruence.
Qed.
End sort_facts.

Lemma select_top_eq (scored_news : list Item) :
  Forall (λ it, is_Some (int_key it)) scored_news →
  select_top scored_news
  = Some (take (top_count (length scored_news)) (sort_desc key_of scored_news)).
Proof. intros H. unfold select_top. by rewrite bool_decide_eq_true_2. Qed.

Lemma insert_desc_ext {A} (key1 key2 : A → Z) (x : A) (l : list A) :
  (∀ y, key1 y = key2 y) → insert_desc key1 x l = insert_desc key2 x l.
Proof.
  intros Hext. induction l as [|y l IH]; [done|]. simpl.
  by rewrite !Hext, IH.
Qed.

Lemma sort_desc_ext {A} (key1 key2 : A → Z) (l : list A) :
  (∀ y, key1 y = key2 y) → sort_desc key1 l = sort_desc key2 l.
Proof.
  intros Hext. induction l as [|x l IH]; [done|].
  unfold sort_desc in *. cbn [foldr]. by rewrite IH, (insert_desc_ext key1 key2).
Qed.

Lemma StronglySorted_lookup {A} (R : A → A → Prop) (l : list A) (i j : nat)
    (x y : A) :
  StronglySorted R l → i < j → l !! i = Some x → l !! j = Some y → R x y.
Proof.
  intros Hl. revert i j. induction Hl as [|z l Hl IH Hz]; intros i j Hij Hi Hj.
  { done. }
  destruct j as [|j]; [lia|]. destruct i as [|i].
  - simpl in Hi, Hj. injection Hi as ->. rewrite Forall_forall in Hz.
    apply Hz. by eapply list_elem_of_lookup_2.
  - simpl in Hi, Hj. apply (IH i j); [lia|done..].
Qed.

(** C3. On scored items (each score an integer) the selection returns a
    result, of exactly min(len, max(3, floor(len / 20))) items; the result
    is a prefix of the input stably sorted by decreasing score, so its
    scores never increase; it is never shorter than min(3, len); the empty
    input gives the empty result. The order is also stated on the score
    field itself ([key] below reads the field of the record, a boolean
    counting as 0 or 1 as in Python): the sorted list is a permutation of
    the input, a later item never has a higher score than an earlier one,
    and the items of one score keep their input order. On the sample
    (scores 10, 90, none, 10, True) the result is the items of scores 90,
    10, 10, the two tens in input order. *)
Theorem select_top_spec (scored_news : list Item) :
  Forall (λ it, is_Some (int_key it)) scored_news →
  let key (it : Item) : Z :=
    match score it with
    | Some (PInt z) => z
    | Some (PBool b) => Z.b2z b
    | _ => 0%Z
    end in
  ∃ sorted top_news,
    select_top scored_news = Some top_news
    ∧ stably_sorted_desc key_of scored_news sorted
    ∧ top_news `prefix_of` sorted
    ∧ length top_news
      = length scored_news `min` (3 `max` (length scored_news / 20))
    ∧ StronglySorted (desc key_of) top_news
    ∧ 3 `min` length scored_news ≤ length top_news
    ∧ (scored_news = [] → top_news = [])
    ∧ sorted ≡ₚ scored_news
    ∧ (∀ i j x y, i < j → sorted !! i = Some x → sorted !! j = Some y →
                  (key y ≤ key x)%Z)
    ∧ (∀ k, filter (λ it, key it = k) sorted
            = filter (λ it, key it = k) scored_news)
    ∧ (∀ i j x y, i < j → top_news !! i = Some x → top_news !! j = Some y →
                  (key y ≤ key x)%Z)
    ∧ select_top
        [ mk_item "s" "a" "c" "d" "l" (Some (PInt 10)) None;
          mk_item "s" "b" "c" "d" "l" (Some (PInt 90)) (Some (PStr "r"));
          mk_item "s" "c" "c" "d" "l" None None;
          mk_item "s" "d" "c" "d" "l" (Some (PInt 10)) None;
          mk_item "s" "e" "c" "d" "l" (Some (PBool true)) None ]
      = Some [ mk_item "s" "b" "c" "d" "l" (Some (PInt 90)) (Some (PStr "r"));
               mk_item "s" "a" "c" "d" "l" (Some (PInt 10)) None;
               mk_item "s" "d" "c" "d" "l" (Some (PInt 10)) None ].
Proof.
  intros Hint key. exists (sort_desc key_of scored_news). eexists.
  split; [by apply select_top_eq|].
  assert (length (sort_desc key_of scored_news) = length scored_news) as Hlen.
  { by rewrite sort_desc_perm. }
  split; [apply sort_desc_stably_sorted|].
  split; [apply prefix_take|].
  split; [rewrite length_take, Hlen; unfold top_count; lia|].
  split.
  { eapply StronglySorted_app_1_l. rewrite take_drop. apply sort_desc_sorted. }
  split; [rewrite length_take, Hlen; unfold top_count; lia|].
  split; [by intros ->|].
  assert (∀ it, key_of it = key it) as Hkey.
  { intros it. unfold key_of, int_key, score_key, key.
    by destruct (score it) as [[]|]. }
  rewrite (sort_desc_ext key_of key) by done.
  split; [apply sort_desc_perm|].
  split.
  { intros i j x y Hij Hi Hj.
    apply (StronglySorted_lookup (desc key) _ i j x y (sort_desc_sorted key _)
             Hij Hi Hj). }
  split; [intros k; apply sort_desc_stable|].
  split; [|vm_compute; reflexivity].
  intros i j x y Hij Hi Hj.
  apply lookup_take_Some in Hi as [Hi _]. apply lookup_take_Some in Hj as [Hj _].
  apply (StronglySorted_lookup (desc key) _ i j x y (sort_desc_sorted key _)
           Hij Hi Hj).
Qed.

Lemma select_top_spec_witness :
  Forall (λ it, is_Some (int_key it)) Samples.sample_scored
  ∧ ∃ top_news,
      select_top Samples.sample_scored = Some top_news
      ∧ length top_news = 3
      ∧ ∀ i j x y, i < j → top_news !! i = Some x → top_news !! j = Some y →
                   (match score y with
                    | Some (PInt z) => z
                    | Some (PBool b) => Z.b2z b
                    | _ => 0
                    end
                    ≤ match score x with
                      | Some (PInt z) => z
                      | Some (PBool b) => Z.b2z b
                      | _ => 0
                      end)%Z.
Proof.
  assert (Forall (λ it, is_Some (int_key it)) Samples.sample_scored) as H.
  { repeat constructor; eexists; reflexivity. }
  split; [exact H|].
  destruct (select_top_spec Samples.sample_scored H)
    as (sorted & top_news & Htop & _ & _ & Hlen & _ & _ & _ & _ & _ & _
        & Hdesc & _).
  exists top_news. split; [exact Htop|]. split; [exact Hlen|exact Hdesc].
Defined.

Example select_top_sample :
  select_top Samples.sample_scored
  = Some [ Samples.scored_item "b" (Some (PInt 90)) (Some (PStr "r"));
           Samples.scored_item "a" (Some (PInt 10)) None;
           Samples.scored_item "d" (Some (PInt 10)) None ].
Proof. vm_compute. reflexivity. Qed.

End SelectFacts.

(** ** The history store *)

Module HistoryFacts.
Import Py History.

Lemma slice_last_length {A} (n : nat) (l : list A) :
  0 < n → length (slice_last n l) = n `min` length l.
Proof. intros Hn. destruct n; [lia|]. unfold slice_last. rewrite length_drop. lia. Qed.

Lemma slice_last_drop {A} (n : nat) (l : list A) :
  0 < n → slice_last n l = drop (length l - n) l.
Proof. intros Hn. destruct n; [lia|]. done. Qed.

Lemma max_entries_table :
  max_entries "daily" = 30 ∧ max_entries "weekly" = 12
  ∧ max_entries "monthly" = 12 ∧ max_entries "quarterly" = 8
  ∧ max_entries "semi_annual" = 4 ∧ max_entries "annual" = 3.
Proof. repeat split; vm_compute; reflexivity. Qed.

Lemma max_entries_pos (report_type : string) : 0 < max_entries report_type.
Proof.
  destruct max_entries_table as (Hd & Hw & Hm & Hq & Hs & Ha).
  destruct (decide (report_type = "daily")) as [->|]; [lia|].
  destruct (decide (report_type = "weekly")) as [->|]; [lia|].
  destruct (decide (report_type = "monthly")) as [->|]; [lia|].
  destruct (decide (report_type = "quarterly")) as [->|]; [lia|].
  destruct (decide (report_type = "semi_annual")) as [->|]; [lia|].
  destruct (decide (report_type = "annual")) as [->|]; [lia|].
  unfold max_entries, limits.
  rewrite !lookup_insert_ne, lookup_singleton_ne by done. simpl. lia.
Qed.

Lemma save_report_summary_lookup summarize utcnow_label report_type report_body
    (history : Store) :
  save_report_summary summarize utcnow_label report_type report_body history
    !! report_type
  = Some (slice_last (max_entries report_type)
            (default [] (history !! report_type)
               ++ [new_entry summarize utcnow_label report_body])).
Proof.
  unfold save_report_summary, new_entry.
  rewrite lookup_insert_eq. f_equal. rewrite lookup_insert_eq. simpl.
  destruct (history !! report_type) as [l|] eqn:Hl; simpl.
  - rewrite Hl. by destruct (summarize report_body).
  - rewrite lookup_insert_eq. by destruct (summarize report_body).
Qed.

Lemma save_report_summary_lookup_ne summarize utcnow_label report_type report_body
    (history : Store) (other : string) :
  other ≠ report_type →
  default [] (save_report_summary summarize utcnow_label report_type report_body
                history !! other)
  = default [] (history !! other).
Proof.
  intros Hne. unfold save_report_summary.
  rewrite !lookup_insert_ne by done.
  destruct (history !! report_type); [done|]. by rewrite lookup_insert_ne.
Qed.

Lemma save_report_summary_bound summarize utcnow_label report_type report_body
    (history : Store) :
  length (default [] (save_report_summary summarize utcnow_label report_type
                        report_body history !! report_type))
  ≤ max_entries report_type.
Proof.
  rewrite save_report_summary_lookup. simpl.
  rewrite slice_last_length by apply max_entries_pos. lia.
Qed.

(** C5. The retention limits are daily 30, weekly 12, monthly 12,
    quarterly 8, semi_annual 4 and annual 3. After a call of
    [save_report_summary] the sequence of its report type is the old
    sequence with the new entry appended, cut down to its newest entries so
    that it holds no more than the limit. After any run of calls, every
    report type that was written to holds no more than its limit. *)
Theorem save_report_summary_retention (summarize : string → option string) :
  (max_entries "daily" = 30 ∧ max_entries "weekly" = 12
   ∧ max_entries "monthly" = 12 ∧ max_entries "quarterly" = 8
   ∧ max_entries "semi_annual" = 4 ∧ max_entries "annual" = 3)
  ∧ (∀ utcnow_label report_type report_body (history : Store),
       let old := default [] (history !! report_type) in
       let new :=
         default [] (save_report_summary summarize utcnow_label report_type
                       report_body history !! report_type) in
       new = drop (length old + 1 - max_entries report_type)
               (old ++ [new_entry summarize utcnow_label report_body])
       ∧ length new ≤ max_entries report_type)
  ∧ (∀ calls (history : Store),
       Forall (λ call : string * string * string,
                 length (default [] (save_all summarize calls history !! call.1.1))
                 ≤ max_entries call.1.1) calls).
Proof.
  split; [apply max_entries_table|]. split.
  - intros utcnow_label report_type report_body history. cbv zeta.
    split; [|apply save_report_summary_bound].
    rewrite save_report_summary_lookup. simpl.
    rewrite slice_last_drop by apply max_entries_pos.
    by rewrite length_app, length_cons, length_nil.
  - intros calls history. induction calls as [|call calls IH] using rev_ind.
    { constructor. }
    unfold save_all in *. rewrite foldl_snoc.
    apply Forall_app. split.
    + eapply Forall_impl; [exact IH|]. intros call' Hb. simpl in *.
      destruct (decide (call'.1.1 = call.1.1)) as [->|Hne].
      * apply save_report_summary_bound.
      * by rewrite save_report_summary_lookup_ne.
    + constructor; [|constructor]. apply save_report_summary_bound.
Qed.

(** C7. When the summary request fails, [save_report_summary] still
    returns a store, and in it the sequence of the report type ends with a
    new entry whose summary is the fixed text "요약 생성 실패"; the entries
    before it are the newest of the old ones. *)
Theorem save_report_summary_failed (summarize : string → option string)
    (utcnow_label report_type report_body : string) (history : Store) :
  summarize report_body = None →
  ∃ kept,
    save_report_summary summarize utcnow_label report_type report_body history
      !! report_type
    = Some (kept ++ [ {[ "date" := utcnow_label;
                         "summary" := "요약 생성 실패" ]} ])
    ∧ kept `suffix_of` default [] (history !! report_type).
Proof.
  intros Hfail.
  exists (drop (length (default [] (history !! report_type)) + 1
                - max_entries report_type)
               (default [] (history !! report_type))).
  split; [|apply suffix_drop].
  rewrite save_report_summary_lookup. f_equal.
  rewrite slice_last_drop by apply max_entries_pos.
  pose proof (max_entries_pos report_type).
  rewrite length_app, length_cons, length_nil, drop_app_le by lia.
  unfold new_entry. by rewrite Hfail.
Qed.

Lemma save_report_summary_failed_witness :
  ∃ kept,
    save_report_summary (λ _, None) "2025-11-01 07:00 UTC" "annual" "<p>body</p>"
      {[ "annual" := [ {[ "date" := "d1" ]}; {[ "date" := "d2" ]};
                       {[ "date" := "d3" ]} ] ]}
      !! "annual"
    = Some (kept ++ [ {[ "date" := "2025-11-01 07:00 UTC";
                         "summary" := "요약 생성 실패" ]} ])
    ∧ kept `suffix_of`
        default [] (({[ "annual" := [ {[ "date" := "d1" ]}; {[ "date" := "d2" ]};
                                      {[ "date" := "d3" ]} ] ]} : Store)
                    !! "annual").
Proof.
  apply (save_report_summary_failed (λ _, None)). reflexivity.
Defined.

Lemma save_report_summary_other summarize utcnow_label report_type report_body
    (history : Store) (other : string) :
  other ≠ report_type →
  save_report_summary summarize utcnow_label report_type report_body history
    !! other
  = history !! other.
Proof.
  intros Hne. unfold save_report_summary.
  rewrite !lookup_insert_ne by done.
  destruct (history !! report_type); [done|]. by rewrite lookup_insert_ne.
Qed.

Lemma slice_last_snoc {A} (n : nat) (l : list A) (x : A) :
  0 < n → ∃ kept, slice_last n (l ++ [x]) = kept ++ [x] ∧ kept `suffix_of` l.
Proof.
  intros Hn. rewrite slice_last_drop by done. rewrite length_app. simpl.
  exists (drop (length l + 1 - n) l). split.
  - rewrite drop_app_le by lia. done.
  - apply suffix_drop.
Qed.

(** The entry that a call writes, with the sentinel written out. *)
Lemma save_report_summary_entry summarize utcnow_label report_type report_body
    (history : Store) :
  ∃ kept,
    save_report_summary summarize utcnow_label report_type report_body history
      !! report_type
    = Some (kept ++ [ {[ "date" := utcnow_label;
                         "summary" := match summarize report_body with
                                      | Some text => text
                                      | None => "요약 생성 실패"
                                      end ]} ])
    ∧ kept `suffix_of` default [] (history !! report_type).
Proof.
  rewrite save_report_summary_lookup.
  destruct (slice_last_snoc (max_entries report_type)
              (default [] (history !! report_type))
              (new_entry summarize utcnow_label report_body))
    as (kept & Heq & Hsuffix); [apply max_entries_pos|].
  exists kept. split; [|done]. rewrite Heq. unfold new_entry.
  by destruct (summarize report_body).
Qed.

Lemma string_app_assoc (s1 s2 s3 : string) :
  (s1 +:+ s2) +:+ s3 = s1 +:+ (s2 +:+ s3).
Proof.
  induction s1 as [|c s1 IH]; [done|].
  change (String c ((s1 +:+ s2) +:+ s3) = String c (s1 +:+ (s2 +:+ s3))).
  by rewrite IH.
Qed.

Lemma string_app_empty_r (s : string) : s +:+ EmptyString = s.
Proof.
  induction s as [|c s IH]; [done|].
  change (String c (s +:+ EmptyString) = String c s). by rewrite IH.
Qed.

Lemma foldl_context_lines (init : string) (entries : list Entry) :
  foldl (λ context entry, context +:+ context_line entry) init entries
  = init +:+ join (context_line <$> entries).
Proof.
  revert init. induction entries as [|e entries IH]; intros init.
  - cbn [foldl]. unfold join. rewrite fmap_nil. cbn [foldr].
    by rewrite string_app_empty_r.
  - cbn [foldl]. rewrite IH, string_app_assoc. unfold join.
    by rewrite fmap_cons.
Qed.

Lemma get_accumulated_context_mapped report_type source_type count
    (history : Store) :
  context_map !! report_type = Some (source_type, count) → 0 < count →
  let stored := default [] (history !! source_type) in
  let entries := drop (length stored - count) stored in
  get_accumulated_context report_type history
  = match entries with
    | [] => EmptyString
    | _ => context_header (length entries) source_type
             +:+ join (context_line <$> entries)
    end.
Proof.
  intros Hmap Hpos. cbv zeta. unfold get_accumulated_context. rewrite Hmap.
  rewrite slice_last_drop by done.
  destruct (drop _ _) as [|e entries]; [done|].
  apply foldl_context_lines.
Qed.

Lemma join_fmap_foldr {A} (f : A → string) (l : list A) :
  join (f <$> l) = foldr (λ x rest, f x +:+ rest) EmptyString l.
Proof.
  induction l as [|x l IH]; [done|].
  unfold join in *. rewrite fmap_cons. cbn [foldr]. by rewrite IH.
Qed.

(** The context as text: the header line, then one line per entry. *)
Lemma get_accumulated_context_text report_type source_type count
    (history : Store) :
  context_map !! report_type = Some (source_type, count) → 0 < count →
  let line_end := String (ascii_of_nat 10) EmptyString in
  let stored := default [] (history !! source_type) in
  let entries := drop (length stored - count) stored in
  get_accumulated_context report_type history
  = match entries with
    | [] => EmptyString
    | _ => ("[최근 " +:+ pretty (length entries) +:+ "건의 " +:+ source_type
            +:+ " 리포트 요약]" +:+ line_end)
           +:+ foldr (λ (entry : Entry) rest,
                        ("- " +:+ default "N/A" (entry !! "date") +:+ ": "
                         +:+ default "N/A" (entry !! "summary") +:+ line_end)
                        +:+ rest)
                 EmptyString entries
    end.
Proof.
  intros Hmap Hpos. cbv zeta.
  rewrite (get_accumulated_context_mapped _ _ _ _ Hmap Hpos). cbv zeta.
  destruct (drop _ _) as [|e entries]; [done|].
  by rewrite join_fmap_foldr.
Qed.

(** C6. For the daily report the context is the empty text. For each other
    report type the context is built from the last [count] entries of the
    source type of the table weekly←(daily,7), monthly←(weekly,4),
    quarterly←(monthly,3), semi_annual←(quarterly,2),
    annual←(semi_annual,2): the empty text when there is none (also when
    the store has no sequence for the source type), and otherwise the
    header line with the number of entries and the source type, followed
    by one line "- date: summary" per entry, in stored order, N/A standing
    for a field that the entry lacks. The text is written out in full: a
    store of three quarterly entries, the last without a date, gives the
    semi-annual context of the header for 2 entries and the lines of the
    last two. *)
Theorem get_accumulated_context_spec (history : Store) :
  let line_end := String (ascii_of_nat 10) EmptyString in
  get_accumulated_context "daily" history = EmptyString
  ∧ Forall (λ row : string * string * nat,
              let stored := default [] (history !! row.1.2) in
              let entries := drop (length stored - row.2) stored in
              get_accumulated_context row.1.1 history
              = match entries with
                | [] => EmptyString
                | _ => ("[최근 " +:+ pretty (length entries) +:+ "건의 "
                        +:+ row.1.2 +:+ " 리포트 요약]" +:+ line_end)
                       +:+ foldr (λ (entry : Entry) rest,
                                    ("- " +:+ default "N/A" (entry !! "date")
                                     +:+ ": "
                                     +:+ default "N/A" (entry !! "summary")
                                     +:+ line_end)
                                    +:+ rest)
                             EmptyString entries
                end)
      [ ("weekly", "daily", 7); ("monthly", "weekly", 4);
        ("quarterly", "monthly", 3); ("semi_annual", "quarterly", 2);
        ("annual", "semi_annual", 2) ]
  ∧ get_accumulated_context "semi_annual"
      {[ "quarterly" := [ {[ "date" := "d1"; "summary" := "s1" ]};
                          {[ "date" := "d2"; "summary" := "s2" ]};
                          {[ "summary" := "s3" ]} ] ]}
    = "[최근 2건의 quarterly 리포트 요약]" +:+ line_end
      +:+ "- d2: s2" +:+ line_end +:+ "- N/A: s3" +:+ line_end
  ∧ get_accumulated_context "weekly"
      {[ "weekly" := [ {[ "date" := "d1"; "summary" := "s1" ]} ] ]}
    = EmptyString.
Proof.
  intros line_end. split; [reflexivity|].
  split; [|split; vm_compute; reflexivity].
  repeat constructor; cbn [fst snd];
    (apply get_accumulated_context_text; [vm_compute; reflexivity|lia]).
Qed.

Example get_accumulated_context_sample :
  get_accumulated_context "semi_annual"
    {[ "quarterly" := [ {[ "date" := "d1"; "summary" := "s1" ]};
                        {[ "date" := "d2"; "summary" := "s2" ]};
                        {[ "summary" := "s3" ]} ] ]}
  = "[최근 2건의 quarterly 리포트 요약]" +:+ newline
    +:+ "- d2: s2" +:+ newline +:+ "- N/A: s3" +:+ newline.
Proof. vm_compute. reflexivity. Qed.

End HistoryFacts.

(** ** Tier 1 batch scoring *)

Module ScoringFacts.
Import Py Tier1.

Lemma batch_len_eq (bs : nat) (st : state) :
  batch_len bs st = BATCH_SIZE `min` (length (store st) - bs).
Proof. unfold batch_len, batch_items. by rewrite length_take, length_drop. Qed.

Lemma apply_writes_length (bs : nat) (ws : list write) (st : state) :
  length (store (apply_writes bs ws st)) = length (store st).
Proof.
  revert st. induction ws as [|w ws IH]; intros st; [done|].
  unfold apply_writes in *. cbn [foldl]. rewrite IH. simpl.
  by rewrite length_alter.
Qed.

Lemma batch_len_apply_writes (bs bs' : nat) (ws : list write) (st : state) :
  batch_len bs' (apply_writes bs ws st) = batch_len bs' st.
Proof. by rewrite !batch_len_eq, apply_writes_length. Qed.

Lemma apply_writes_app (bs : nat) (ws1 ws2 : list write) (st : state) :
  apply_writes bs (ws1 ++ ws2) st = apply_writes bs ws2 (apply_writes bs ws1 st).
Proof. unfold apply_writes. by rewrite foldl_app. Qed.

Lemma score_entry_writes (bs : nat) (e : pyval) (st : state) :
  score_entry bs e st
  = (λ ow, apply_writes bs (option_list ow) st) <$> entry_write (batch_len bs st) e.
Proof.
  unfold score_entry, entry_write.
  destruct (subscript_id e) as [idx|]; simpl; [|done].
  by destruct (check_idx idx (batch_len bs st)).
Qed.

Lemma score_entries_writes (bs : nat) (es : list pyval) (st : state) :
  score_entries bs es st
  = (apply_writes bs (entries_writes (batch_len bs st) es).1 st,
     (entries_writes (batch_len bs st) es).2).
Proof.
  revert st. induction es as [|e es IH]; intros st; simpl; [done|].
  rewrite score_entry_writes.
  destruct (entry_write (batch_len bs st) e) as [ow|]; simpl; [|done].
  rewrite IH, batch_len_apply_writes.
  destruct (entries_writes (batch_len bs st) es) as [ws raised]; simpl.
  by rewrite apply_writes_app.
Qed.

Lemma fallback_writes_eq (bs : nat) (st : state) :
  fallback bs st = apply_writes bs (fallback_writes (batch_len bs st)) st.
Proof.
  unfold fallback, apply_writes, fallback_writes.
  by rewrite foldl_fmap.
Qed.

Lemma check_idx_lt (idx : pyval) (n i : nat) :
  check_idx idx n = Index i → i < n.
Proof.
  assert (∀ z, int_index z n = Index i → i < n) as Hint.
  { intros z. unfold int_index. case_bool_decide; [|done].
    intros [= <-]. lia. }
  destruct idx; simpl; try done; eauto.
  by case_match.
Qed.

Lemma entry_write_lt (n : nat) (e : pyval) (w : write) :
  entry_write n e = Some (Some w) → w.1 < n.
Proof.
  unfold entry_write. destruct (subscript_id e) as [idx|]; simpl; [|done].
  destruct (check_idx idx n) as [i| |] eqn:Hc; try done.
  intros [= <-]. simpl. by eapply check_idx_lt.
Qed.

Lemma entries_writes_lt (n : nat) (es : list pyval) :
  Forall (λ w : write, w.1 < n) (entries_writes n es).1.
Proof.
  induction es as [|e es IH]; simpl; [constructor|].
  destruct (entry_write n e) as [ow|] eqn:He; simpl; [|constructor].
  destruct (entries_writes n es) as [ws raised]; simpl in *.
  apply Forall_app. split; [|done].
  destruct ow as [w|]; simpl; [|constructor].
  constructor; [by eapply entry_write_lt|constructor].
Qed.

Lemma fallback_writes_lt (n : nat) :
  Forall (λ w : write, w.1 < n) (fallback_writes n).
Proof.
  unfold fallback_writes. apply Forall_fmap, Forall_forall.
  intros i Hi. apply elem_of_seq in Hi. simpl. lia.
Qed.

Lemma apply_writes_scored (bs : nat) (ws : list write) (st : state) :
  scored (apply_writes bs ws st) = scored st ++ refs_of bs ws.
Proof.
  revert st. induction ws as [|w ws IH]; intros st.
  - unfold refs_of. simpl. by rewrite app_nil_r.
  - unfold apply_writes in *. cbn [foldl]. rewrite IH.
    unfold refs_of. rewrite fmap_cons. simpl. by rewrite <-app_assoc.
Qed.

Lemma batch_items_apply_writes_same (bs : nat) (ws : list write) (st : state) :
  Forall (λ w : write, w.1 < BATCH_SIZE) ws →
  batch_items bs (apply_writes bs ws st) = alter_all ws (batch_items bs st).
Proof.
  intros Hws. revert st. induction Hws as [|w ws Hw Hws IH]; intros st; [done|].
  unfold apply_writes, alter_all in *. cbn [foldl]. rewrite IH. f_equal.
  unfold batch_items. simpl.
  rewrite drop_alter_ge by lia. rewrite take_alter_lt by lia.
  f_equal. lia.
Qed.

Lemma batch_items_apply_writes_other (bs bs' : nat) (ws : list write)
    (st : state) :
  Forall (λ w : write, ¬ in_batch bs' (bs + w.1)) ws →
  batch_items bs' (apply_writes bs ws st) = batch_items bs' st.
Proof.
  intros Hws. revert st. induction Hws as [|w ws Hw Hws IH]; intros st; [done|].
  unfold apply_writes in *. cbn [foldl]. rewrite IH.
  unfold batch_items, in_batch in *. simpl.
  destruct (decide (bs + w.1 < bs')) as [Hlt|Hge].
  - by rewrite drop_alter_lt.
  - rewrite drop_alter_ge by lia. by rewrite take_alter_ge by lia.
Qed.

Lemma batches_disjoint (bs bs' i : nat) :
  (BATCH_SIZE | bs) → (BATCH_SIZE | bs') → bs ≠ bs' → i < BATCH_SIZE →
  ¬ in_batch bs' (bs + i).
Proof.
  intros [k ->] [k' ->] Hne Hi. unfold in_batch, BATCH_SIZE in *. lia.
Qed.

Lemma elem_of_batch_starts (n bs : nat) :
  bs ∈ batch_starts n → (BATCH_SIZE | bs) ∧ bs < n.
Proof.
  unfold batch_starts. intros (k & -> & Hk)%list_elem_of_fmap.
  apply elem_of_seq in Hk. split; [by exists k|].
  unfold BATCH_SIZE in *.
  assert (S k ≤ (n + 20 - 1) / 20) as Hle by lia.
  apply (Nat.mul_le_mono_l _ _ 20) in Hle.
  pose proof (Nat.Div0.mul_div_le (n + 20 - 1) 20). lia.
Qed.

Lemma batch_starts_divide (n : nat) :
  Forall (λ bs, (BATCH_SIZE | bs)) (batch_starts n).
Proof.
  apply Forall_forall. intros bs Hbs. by apply elem_of_batch_starts in Hbs as [? _].
Qed.

Lemma batch_starts_NoDup (n : nat) : NoDup (batch_starts n).
Proof.
  unfold batch_starts. apply NoDup_fmap_2; [|apply NoDup_seq].
  intros k k' Hk. unfold BATCH_SIZE in Hk. lia.
Qed.

Lemma in_batch_unique (b bs r : nat) :
  (BATCH_SIZE | b) → (BATCH_SIZE | bs) → in_batch b r → in_batch bs r → b = bs.
Proof.
  intros [k ->] [k' ->]. unfold in_batch, BATCH_SIZE. lia.
Qed.

Lemma refs_in_batch (bs : nat) (ws : list write) :
  Forall (λ w : write, w.1 < BATCH_SIZE) ws → Forall (in_batch bs) (refs_of bs ws).
Proof.
  intros Hws. unfold refs_of. apply Forall_fmap.
  eapply Forall_impl; [exact Hws|]. intros w Hw.
  unfold compose, in_batch. simpl in *. lia.
Qed.

Lemma filter_all {A} (P : A → Prop) `{∀ x, Decision (P x)} (l : list A) :
  Forall P l → filter P l = l.
Proof.
  induction 1 as [|x l Hx Hl IH]; [done|].
  rewrite filter_cons, decide_True by done. by rewrite IH.
Qed.

Lemma filter_none {A} (P : A → Prop) `{∀ x, Decision (P x)} (l : list A) :
  Forall (λ x, ¬ P x) l → filter P l = [].
Proof.
  induction 1 as [|x l Hx Hl IH]; [done|].
  by rewrite filter_cons, decide_False.
Qed.

(** Of the references of all batches, those of one batch. *)
Lemma filter_batches (f : nat → list nat) (bss : list nat) (bs : nat) :
  NoDup bss → Forall (λ b, (BATCH_SIZE | b)) bss → (BATCH_SIZE | bs) →
  Forall (λ b, Forall (in_batch b) (f b)) bss →
  filter (in_batch bs) (concat (f <$> bss))
  = if decide (bs ∈ bss) then f bs else [].
Proof.
  intros Hnd Hdiv Hbs Hf.
  induction bss as [|b bss IH]; [done|].
  apply NoDup_cons in Hnd as [Hb Hnd].
  apply Forall_cons in Hdiv as [Hbdiv Hdiv].
  apply Forall_cons in Hf as [Hfb Hf].
  rewrite fmap_cons, concat_cons, filter_app, IH by done.
  destruct (decide (bs = b)) as [->|Hne].
  - rewrite (decide_False (P := b ∈ bss)) by done.
    rewrite (decide_True (P := b ∈ b :: bss)) by left.
    rewrite filter_all by done. by rewrite app_nil_r.
  - rewrite filter_none.
    + simpl. destruct (decide (bs ∈ bss)) as [Hin|Hnin].
      * rewrite decide_True; [done|by right].
      * rewrite decide_False; [done|]. rewrite elem_of_cons. tauto.
    + eapply Forall_impl; [exact Hfb|]. intros r Hr Hr'.
      apply Hne. symmetry. by eapply in_batch_unique.
Qed.

Lemma refs_of_fallback (bs n : nat) : refs_of bs (fallback_writes n) = seq bs n.
Proof.
  unfold refs_of, fallback_writes. rewrite <-list_fmap_compose.
  transitivity (Nat.add bs <$> seq 0 n); [done|].
  by rewrite fmap_add_seq, Nat.add_0_r.
Qed.

Lemma alter_seq {A} (f : A → A) (l1 l2 : list A) :
  foldl (λ l i, alter f i l) (l1 ++ l2) (seq (length l1) (length l2))
  = l1 ++ (f <$> l2).
Proof.
  revert l1. induction l2 as [|x l2 IH]; intros l1; [done|].
  cbn [length seq foldl]. rewrite alter_app_r_alt, Nat.sub_diag by done.
  replace (l1 ++ alter f 0 (x :: l2)) with ((l1 ++ [f x]) ++ l2)
    by (by rewrite <-app_assoc).
  replace (S (length l1)) with (length (l1 ++ [f x]))
    by (rewrite length_app; simpl; lia).
  rewrite IH, <-app_assoc. done.
Qed.

Lemma alter_all_fallback (batch : list Item) :
  alter_all (fallback_writes (length batch)) batch
  = set_score (PInt 50) <$> batch.
Proof.
  unfold alter_all, fallback_writes. rewrite foldl_fmap. simpl.
  apply (alter_seq (set_score (PInt 50)) [] batch).
Qed.

Lemma entries_writes_accepted (n : nat) (es : list pyval) :
  (entries_writes n es).2 = false →
  (λ w : write, w.1) <$> (entries_writes n es).1 = accepted n es.
Proof.
  induction es as [|e es IH]; [done|]. unfold accepted in *. cbn [entries_writes omap list_omap].
  unfold entry_write.
  destruct (subscript_id e) as [idx|]; simpl; [|done].
  destruct (check_idx idx n) as [i| |]; simpl; [| |done].
  - destruct (entries_writes n es) as [ws raised]. simpl in *.
    intros Hr. f_equal. by apply IH.
  - destruct (entries_writes n es) as [ws raised]. simpl in *.
    intros Hr. by apply IH.
Qed.

Lemma concat_batch_seqs (n : nat) :
  concat ((λ bs, seq bs (BATCH_SIZE `min` (n - bs))) <$> batch_starts n)
  = seq 0 n.
Proof.
  unfold batch_starts.
  assert (∀ m, m ≤ (n + BATCH_SIZE - 1) / BATCH_SIZE →
               concat ((λ bs, seq bs (BATCH_SIZE `min` (n - bs)))
                         <$> ((λ k, k * BATCH_SIZE) <$> seq 0 m))
               = seq 0 (n `min` (m * BATCH_SIZE))) as Hm.
  { unfold BATCH_SIZE. induction m as [|m IH]; intros Hle.
    - simpl. by rewrite Nat.min_0_r.
    - rewrite seq_S, !fmap_app, concat_app, IH by lia.
      rewrite !fmap_cons, !fmap_nil, concat_cons, concat_nil, app_nil_r.
      rewrite Nat.add_0_l.
      assert (S m * 20 ≤ n + 20 - 1).
      { apply (Nat.mul_le_mono_l _ _ 20) in Hle.
        pose proof (Nat.Div0.mul_div_le (n + 20 - 1) 20). lia. }
      replace (n `min` (m * 20)) with (m * 20) by lia.
      replace (n `min` (S m * 20))
        with (m * 20 + 20 `min` (n - m * 20)) by lia.
      by rewrite seq_app. }
  rewrite Hm by done. f_equal. unfold BATCH_SIZE.
  pose proof (Nat.div_mod_eq (n + 20 - 1) 20).
  pose proof (Nat.mod_upper_bound (n + 20 - 1) 20). lia.
Qed.

Lemma concat_fmap_Permutation {A B} (f g : A → list B) (l : list A) :
  Forall (λ x, f x ≡ₚ g x) l → concat (f <$> l) ≡ₚ concat (g <$> l).
Proof.
  induction 1 as [|x l Hx Hl IH]; [done|].
  rewrite !fmap_cons, !concat_cons. by f_equiv.
Qed.

Section scoring_facts.
Variable create : nat → list Item → option string.
Variable json_loads : string → option pyval.

Lemma try_score_writes (bs : nat) (st : state) :
  try_score create json_loads bs st
  = (apply_writes bs (try_writes create json_loads bs (batch_items bs st)).1 st,
     (try_writes create json_loads bs (batch_items bs st)).2).
Proof.
  unfold try_score, try_writes.
  change (length (batch_items bs st)) with (batch_len bs st).
  destruct (create bs (batch_items bs st)) as [text|]; [|done].
  destruct (json_span text) as [span|]; [|by rewrite fallback_writes_eq].
  destruct (json_loads span) as [[]|]; try done.
  destruct (iter_items _) as [entries|]; [|done].
  apply score_entries_writes.
Qed.

Lemma score_batch_writes (st : state) (bs : nat) :
  score_batch create json_loads st bs
  = apply_writes bs (batch_writes create json_loads bs (batch_items bs st)) st.
Proof.
  unfold score_batch, batch_writes. rewrite try_score_writes.
  change (length (batch_items bs st)) with (batch_len bs st).
  destruct (try_writes create json_loads bs (batch_items bs st)) as [ws raised].
  simpl. destruct raised; [|done].
  by rewrite fallback_writes_eq, batch_len_apply_writes, apply_writes_app.
Qed.

Lemma batch_items_length (bs : nat) (st : state) :
  length (batch_items bs st) ≤ BATCH_SIZE.
Proof. unfold batch_items. rewrite length_take. lia. Qed.

Lemma batch_writes_lt (bs : nat) (batch : list Item) :
  Forall (λ w : write, w.1 < length batch)
    (batch_writes create json_loads bs batch).
Proof.
  assert (Forall (λ w : write, w.1 < length batch)
            (try_writes create json_loads bs batch).1) as Htry.
  { unfold try_writes.
    destruct (create bs batch) as [text|]; [|constructor].
    destruct (json_span text) as [span|]; [|apply fallback_writes_lt].
    destruct (json_loads span) as [[]|]; try constructor.
    destruct (iter_items _) as [entries|]; [|constructor].
    apply entries_writes_lt. }
  unfold batch_writes.
  destruct (try_writes create json_loads bs batch) as [ws raised]; simpl in *.
  destruct raised; [|done].
  apply Forall_app. split; [done|apply fallback_writes_lt].
Qed.

(** The references and the items that the scoring loop leaves, batch by
    batch: the writes of a batch are those of its items as they were
    before the loop. *)
Lemma score_loop (bss : list nat) (st : state) :
  NoDup bss → Forall (λ bs, (BATCH_SIZE | bs)) bss →
  let final := foldl (score_batch create json_loads) st bss in
  scored final
  = scored st
    ++ concat ((λ bs, refs_of bs (batch_writes create json_loads bs
                                    (batch_items bs st))) <$> bss)
  ∧ ∀ bs, (BATCH_SIZE | bs) →
      batch_items bs final
      = if decide (bs ∈ bss)
        then alter_all (batch_writes create json_loads bs (batch_items bs st))
               (batch_items bs st)
        else batch_items bs st.
Proof.
  revert st. induction bss as [|b bss IH]; intros st Hnd Hdiv; cbv zeta.
  { split; [simpl; by rewrite app_nil_r|]. intros bs _.
    rewrite decide_False; [done|apply not_elem_of_nil]. }
  apply NoDup_cons in Hnd as [Hb Hnd].
  apply Forall_cons in Hdiv as [Hbdiv Hdiv].
  cbn [foldl]. rewrite score_batch_writes.
  set (ws := batch_writes create json_loads b (batch_items b st)).
  set (st1 := apply_writes b ws st).
  assert (Forall (λ w : write, w.1 < BATCH_SIZE) ws) as Hws.
  { eapply Forall_impl; [apply batch_writes_lt|]. simpl. intros w Hw.
    pose proof (batch_items_length b st). lia. }
  assert (∀ bs, (BATCH_SIZE | bs) → bs ≠ b →
            batch_items bs st1 = batch_items bs st) as Hother.
  { intros bs Hbs Hne. apply batch_items_apply_writes_other.
    eapply Forall_impl; [exact Hws|]. simpl. intros w Hw.
    by apply batches_disjoint. }
  destruct (IH st1 Hnd Hdiv) as [Hsc Hit]. split.
  - rewrite Hsc. unfold st1 at 1. rewrite apply_writes_scored.
    rewrite fmap_cons, concat_cons, <-app_assoc. do 3 f_equal.
    apply Forall_fmap_ext_1, Forall_forall. intros bs Hin.
    rewrite Hother; [done| |].
    + eapply Forall_forall in Hdiv; [|exact Hin]. done.
    + intros ->. done.
  - intros bs Hbs. rewrite Hit by done.
    destruct (decide (bs = b)) as [->|Hne].
    + rewrite decide_False by done.
      rewrite decide_True by left.
      by apply batch_items_apply_writes_same.
    + rewrite Hother by done.
      destruct (decide (bs ∈ bss)) as [Hin|Hnin].
      * rewrite decide_True; [done|by right].
      * rewrite decide_False; [done|]. rewrite elem_of_cons. tauto.
Qed.

Lemma score_all_scored (news_list : list Item) :
  scored (score_all create json_loads news_list)
  = concat ((λ bs, refs_of bs (batch_writes create json_loads bs
                                 (batch_items bs (mk_state news_list []))))
              <$> batch_starts (length news_list)).
Proof.
  unfold score_all.
  destruct (score_loop (batch_starts (length news_list)) (mk_state news_list []))
    as [Hsc _]; [apply batch_starts_NoDup|apply batch_starts_divide|].
  exact Hsc.
Qed.

Lemma score_all_items (news_list : list Item) (bs : nat) :
  bs ∈ batch_starts (length news_list) →
  batch_items bs (score_all create json_loads news_list)
  = alter_all (batch_writes create json_loads bs
                 (batch_items bs (mk_state news_list [])))
      (batch_items bs (mk_state news_list [])).
Proof.
  intros Hbs. unfold score_all.
  destruct (score_loop (batch_starts (length news_list)) (mk_state news_list []))
    as [_ Hit]; [apply batch_starts_NoDup|apply batch_starts_divide|].
  rewrite Hit by (by apply elem_of_batch_starts in Hbs as [? _]).
  by rewrite decide_True.
Qed.

Lemma batch_writes_small (bs : nat) (st : state) :
  Forall (λ w : write, w.1 < BATCH_SIZE)
    (batch_writes create json_loads bs (batch_items bs st)).
Proof.
  eapply Forall_impl; [apply batch_writes_lt|]. simpl. intros w Hw.
  pose proof (batch_items_length bs st). lia.
Qed.

Lemma score_all_filter (news_list : list Item) (bs : nat) :
  bs ∈ batch_starts (length news_list) →
  filter (in_batch bs) (scored (score_all create json_loads news_list))
  = refs_of bs (batch_writes create json_loads bs
                  (batch_items bs (mk_state news_list []))).
Proof.
  intros Hbs. rewrite score_all_scored.
  rewrite (filter_batches
             (λ bs, refs_of bs (batch_writes create json_loads bs
                                  (batch_items bs (mk_state news_list []))))).
  - by rewrite decide_True.
  - apply batch_starts_NoDup.
  - apply batch_starts_divide.
  - by apply elem_of_batch_starts in Hbs as [? _].
  - apply Forall_forall. intros b _. apply refs_in_batch, batch_writes_small.
Qed.

Lemma score_batch_alone (news_list : list Item) (bs : nat) :
  scored (score_batch create json_loads (mk_state news_list []) bs)
  = refs_of bs (batch_writes create json_loads bs
                  (batch_items bs (mk_state news_list [])))
  ∧ batch_items bs (score_batch create json_loads (mk_state news_list []) bs)
    = alter_all (batch_writes create json_loads bs
                   (batch_items bs (mk_state news_list [])))
        (batch_items bs (mk_state news_list [])).
Proof.
  rewrite score_batch_writes. split.
  - by rewrite apply_writes_scored.
  - apply batch_items_apply_writes_same, batch_writes_small.
Qed.

End scoring_facts.

Lemma batch_writes_same_answer (create create' : nat → list Item → option string)
    (json_loads : string → option pyval) (bs : nat) (batch : list Item) :
  create' bs batch = create bs batch →
  batch_writes create' json_loads bs batch = batch_writes create json_loads bs batch.
Proof. intros H. unfold batch_writes, try_writes. by rewrite H. Qed.

Lemma batch_writes_fallback (create : nat → list Item → option string)
    (json_loads : string → option pyval) (bs : nat) (batch : list Item) :
  (create bs batch = None
   ∨ ∃ text, create bs batch = Some text
             ∧ (json_span text = None
                ∨ ∃ span, json_span text = Some span ∧ json_loads span = None)) →
  batch_writes create json_loads bs batch = fallback_writes (length batch).
Proof.
  unfold batch_writes, try_writes.
  intros [->|(text & -> & [->|(span & -> & ->)])]; done.
Qed.

Lemma batch_writes_success (create : nat → list Item → option string)
    (json_loads : string → option pyval) (bs : nat) (batch : list Item)
    (text span : string) (result : list (string * pyval)) (entries : list pyval) :
  create bs batch = Some text → json_span text = Some span →
  json_loads span = Some (PDict result) →
  iter_items (default (PList []) (dict_get "scores" result)) = Some entries →
  (entries_writes (length batch) entries).2 = false →
  batch_writes create json_loads bs batch
  = (entries_writes (length batch) entries).1.
Proof.
  intros Hc Hs Hl Hi Hr. unfold batch_writes, try_writes.
  rewrite Hc, Hs, Hl, Hi.
  destruct (entries_writes (length batch) entries) as [ws raised].
  simpl in *. by subst.
Qed.

Lemma refs_of_accepted (bs n : nat) (entries : list pyval) :
  (entries_writes n entries).2 = false →
  refs_of bs (entries_writes n entries).1
  = (λ i, bs + i) <$> accepted n entries.
Proof.
  intros Hr. rewrite <-entries_writes_accepted by done.
  unfold refs_of. by rewrite <-list_fmap_compose.
Qed.

Lemma accepted_elem_of (n i : nat) (entries : list pyval) :
  i ∈ accepted n entries
  ↔ ∃ entry idx,
      entry ∈ entries ∧ subscript_id entry = Some idx
      ∧ check_idx idx n = Index i.
Proof.
  unfold accepted. rewrite list_elem_of_omap. split.
  - intros (entry & Hin & Hacc). exists entry.
    destruct (subscript_id entry) as [idx|]; [|done]. exists idx.
    destruct (check_idx idx n); naive_solver.
  - intros (entry & idx & Hin & Hid & Hc). exists entry.
    by rewrite Hid, Hc.
Qed.

Lemma entries_ok_no_raise (n : nat) (es : list pyval) :
  Forall (entry_ok n) es → (entries_writes n es).2 = false.
Proof.
  induction 1 as [|e es (idx & Hid & Hc) Hes IH]; [done|].
  cbn [entries_writes]. unfold entry_write. rewrite Hid. simpl.
  destruct (check_idx idx n); [| |done];
    by destruct (entries_writes n es).
Qed.

Lemma complete_answer_refs (create : nat → list Item → option string)
    (json_loads : string → option pyval) (bs : nat) (batch : list Item) :
  complete_answer json_loads (length batch) (create bs batch) →
  refs_of bs (batch_writes create json_loads bs batch) ≡ₚ seq bs (length batch).
Proof.
  intros [Hnone|(text & Htext & [Hspan|(span & Hspan & [Hload|Hok])])].
  - rewrite batch_writes_fallback by (by left). by rewrite refs_of_fallback.
  - rewrite batch_writes_fallback by (right; eauto). by rewrite refs_of_fallback.
  - rewrite batch_writes_fallback by (right; eauto 10). by rewrite refs_of_fallback.
  - destruct Hok as (result & entries & Hload & Hscores & Hentries & Hperm).
    apply entries_ok_no_raise in Hentries.
    erewrite batch_writes_success; [|done..|by rewrite Hscores|done].
    rewrite refs_of_accepted by done. rewrite Hperm.
    by rewrite fmap_add_seq, Nat.add_0_r.
Qed.

(** The items that a run of references reads in a batch. *)
Lemma read_batch (st : state) (bs : nat) :
  (λ r, store st !!! r) <$> seq bs (length (batch_items bs st))
  = batch_items bs st.
Proof.
  apply list_eq. intros i. rewrite list_lookup_fmap.
  destruct (decide (i < length (batch_items bs st))) as [Hlt|Hge].
  - rewrite lookup_seq_lt by done. simpl.
    destruct (lookup_lt_is_Some_2 _ _ Hlt) as [x Hx]. rewrite Hx.
    unfold batch_items in Hx. apply lookup_take_Some in Hx as [Hx _].
    rewrite lookup_drop in Hx. f_equal. by apply list_lookup_total_correct.
  - rewrite lookup_seq_ge by lia. simpl. symmetry.
    apply lookup_ge_None. lia.
Qed.

(** C2. For every batch of a run: the references and the items that the
    run leaves for the batch are those that scoring the batch alone
    gives, and they are the same under any other collaborator that
    answers this batch alike, whatever it answers for the other batches;
    when the request fails or the answer has no brace-delimited span, the
    batch contributes each of its items once, in order, each with score
    50: the output has as many items of the batch as the batch has, the
    score field of each is the integer 50, and its other fields are those
    of the input item; on the success path the batch contributes, in the order of the
    answer, the items of the entries whose id is an index of the batch:
    an entry whose id is an integer that is no index of the batch is
    passed over, and an item is there exactly when some entry names it. *)
Theorem batch_failure_policy (create : nat → list Item → option string)
    (json_loads : string → option pyval) (news_list : list Item)
    (batch_start : nat) :
  batch_start ∈ batch_starts (length news_list) →
  let init := mk_state news_list [] in
  let batch := batch_items batch_start init in
  let final := score_all create json_loads news_list in
  let alone := score_batch create json_loads init batch_start in
  (filter (in_batch batch_start) (scored final) = scored alone
   ∧ batch_items batch_start final = batch_items batch_start alone)
  ∧ (∀ create',
       create' batch_start batch = create batch_start batch →
       filter (in_batch batch_start)
         (scored (score_all create' json_loads news_list))
       = filter (in_batch batch_start) (scored final)
       ∧ batch_items batch_start (score_all create' json_loads news_list)
         = batch_items batch_start final)
  ∧ ((create batch_start batch = None
      ∨ ∃ text, create batch_start batch = Some text ∧ json_span text = None) →
     filter (in_batch batch_start) (scored final)
     = seq batch_start (length batch)
     ∧ (λ r, store final !!! r) <$> filter (in_batch batch_start) (scored final)
       = set_score (PInt 50) <$> batch
     ∧ length (filter (in_batch batch_start) (scored final)) = length batch
     ∧ Forall (λ r, score (store final !!! r) = Some (PInt 50))
         (filter (in_batch batch_start) (scored final))
     ∧ (λ r, store final !!! r) <$> filter (in_batch batch_start) (scored final)
       = (λ it, mk_item (source it) (title it) (content it) (date it) (link it)
                  (Some (PInt 50)) (filter_reason it))
           <$> batch)
  ∧ (∀ text span result entries st',
       create batch_start batch = Some text →
       json_span text = Some span →
       json_loads span = Some (PDict result) →
       iter_items (default (PList []) (dict_get "scores" result)) = Some entries →
       score_entries batch_start entries init = (st', false) →
       filter (in_batch batch_start) (scored final)
       = (λ i, batch_start + i) <$> accepted (length batch) entries
       ∧ (∀ z : Z, ¬ (0 ≤ z < Z.of_nat (length batch))%Z →
            check_idx (PInt z) (length batch) = Skip)
       ∧ (∀ i, batch_start + i ∈ filter (in_batch batch_start) (scored final)
               ↔ ∃ entry idx,
                   entry ∈ entries ∧ subscript_id entry = Some idx
                   ∧ check_idx idx (length batch) = Index i)).
Proof.
  intros Hbs. cbv zeta.
  destruct (score_batch_alone create json_loads news_list batch_start)
    as [Halone_sc Halone_it].
  split; [|split; [|split]].
  - split.
    + by rewrite score_all_filter, Halone_sc.
    + by rewrite score_all_items, Halone_it.
  - intros create' Hsame. split.
    + rewrite !score_all_filter by done.
      by rewrite (batch_writes_same_answer create create').
    + rewrite !score_all_items by done.
      by rewrite (batch_writes_same_answer create create').
  - intros Hfail.
    assert (batch_writes create json_loads batch_start
              (batch_items batch_start (mk_state news_list []))
            = fallback_writes
                (length (batch_items batch_start (mk_state news_list []))))
      as Hws.
    { apply batch_writes_fallback.
      destruct Hfail as [?|(text & ? & ?)]; [by left|right; eauto]. }
    assert (filter (in_batch batch_start)
              (scored (score_all create json_loads news_list))
            = seq batch_start
                (length (batch_items batch_start (mk_state news_list []))))
      as Hrefs.
    { by rewrite score_all_filter, Hws, refs_of_fallback. }
    split; [done|].
    assert ((λ r, store (score_all create json_loads news_list) !!! r)
              <$> filter (in_batch batch_start)
                    (scored (score_all create json_loads news_list))
            = set_score (PInt 50)
                <$> batch_items batch_start (mk_state news_list [])) as Hitems.
    { rewrite Hrefs.
      assert (length (batch_items batch_start (mk_state news_list []))
              = length (batch_items batch_start
                          (score_all create json_loads news_list))) as Hlen.
      { rewrite score_all_items, Hws, alter_all_fallback by done.
        by rewrite length_fmap. }
      rewrite Hlen, read_batch, score_all_items, Hws by done.
      apply alter_all_fallback. }
    split; [exact Hitems|]. split; [by rewrite Hrefs, length_seq|].
    split; [|exact Hitems].
    assert (Forall (λ it, score it = Some (PInt 50))
              ((λ r, store (score_all create json_loads news_list) !!! r)
                 <$> filter (in_batch batch_start)
                       (scored (score_all create json_loads news_list))))
      as Hall.
    { rewrite Hitems. apply Forall_fmap. by apply Forall_true. }
    apply Forall_fmap in Hall. exact Hall.
  - intros text span result entries st' Hc Hs Hl Hi Hse.
    rewrite score_entries_writes in Hse.
    injection Hse as _ Hraised.
    assert (filter (in_batch batch_start)
              (scored (score_all create json_loads news_list))
            = (λ i, batch_start + i)
                <$> accepted
                      (length (batch_items batch_start (mk_state news_list [])))
                      entries) as Hrefs.
    { rewrite score_all_filter by done.
      erewrite batch_writes_success; [|done..].
      by apply refs_of_accepted. }
    split; [exact Hrefs|]. split.
    + intros z Hz. simpl. unfold int_index. by rewrite bool_decide_eq_false_2.
    + intros i. rewrite Hrefs, list_elem_of_fmap. split.
      * intros (i' & Heq & Hacc). assert (i' = i) as -> by lia.
        apply accepted_elem_of in Hacc. exact Hacc.
      * intros Hacc. exists i. split; [done|]. by apply accepted_elem_of.
Qed.

Lemma batch_failure_policy_witness :
  let final :=
    score_all Samples.answer_then_fail Json.loads_py Samples.many_items in
  20 ∈ batch_starts (length Samples.many_items)
  ∧ filter (in_batch 20) (scored final) = seq 20 2
  ∧ Forall (λ r, score (store final !!! r) = Some (PInt 50))
      (filter (in_batch 20) (scored final))
  ∧ filter (in_batch 0) (scored final) = [0].
Proof.
  assert (20 ∈ batch_starts (length Samples.many_items)) as H20.
  { apply list_elem_of_further, list_elem_of_here. }
  assert (0 ∈ batch_starts (length Samples.many_items)) as H0.
  { apply list_elem_of_here. }
  cbv zeta. split; [exact H20|].
  destruct (batch_failure_policy Samples.answer_then_fail Json.loads_py
              Samples.many_items 20 H20) as (_ & _ & Hfail & _).
  destruct Hfail as (Hrefs & _ & _ & Hscores & _); [left; reflexivity|].
  split; [exact Hrefs|]. split; [exact Hscores|].
  destruct (batch_failure_policy Samples.answer_then_fail Json.loads_py
              Samples.many_items 0 H0) as (_ & _ & _ & Hok).
  edestruct Hok as [Hrefs0 _].
  - reflexivity.
  - reflexivity.
  - reflexivity.
  - reflexivity.
  - reflexivity.
  - rewrite Hrefs0. reflexivity.
Defined.

(** C1, as stated, fails: two items are scored and the answer holds an entry
    for the first one only; [scored_news] then holds one item. *)
Lemma scored_length_counterexample :
  length (scored_news Samples.answer_first_only Json.loads_py Samples.two_items)
  ≠ length Samples.two_items.
Proof. vm_compute. lia. Qed.

(** C1, amended. When, for every batch, the request fails, or the answer
    has no brace-delimited span, or the span is not JSON, or it is an
    object whose "scores" are handled without an exception and name every
    index of the batch exactly once, then [scored_news] holds every input
    item exactly once (its references are a permutation of the input
    positions), and so has the length of the input. *)
Theorem scored_news_complete (create : nat → list Item → option string)
    (json_loads : string → option pyval) (news_list : list Item) :
  (∀ batch_start,
     batch_start ∈ batch_starts (length news_list) →
     let batch := batch_items batch_start (mk_state news_list []) in
     complete_answer json_loads (length batch) (create batch_start batch)) →
  scored (score_all create json_loads news_list) ≡ₚ seq 0 (length news_list)
  ∧ length (scored_news create json_loads news_list) = length news_list.
Proof.
  intros Hcomplete.
  assert (scored (score_all create json_loads news_list)
          ≡ₚ seq 0 (length news_list)) as Hperm.
  { rewrite score_all_scored, <-(concat_batch_seqs (length news_list)).
    apply concat_fmap_Permutation, Forall_forall. intros bs Hbs.
    pose proof (batch_len_eq bs (mk_state news_list [])) as Hlen.
    unfold batch_len in Hlen. simpl in *. rewrite <-Hlen.
    apply complete_answer_refs, Hcomplete, Hbs. }
  split; [done|].
  unfold scored_news, scored_items.
  by rewrite length_fmap, Hperm, length_seq.
Qed.

Lemma scored_news_complete_witness :
  scored (score_all Samples.answer_both Json.loads_py Samples.two_items)
  ≡ₚ seq 0 (length Samples.two_items)
  ∧ length (scored_news Samples.answer_both Json.loads_py Samples.two_items)
    = length Samples.two_items.
Proof.
  apply scored_news_complete. intros bs Hbs.
  apply list_elem_of_singleton in Hbs as ->. cbv zeta.
  right. eexists. split; [reflexivity|]. right.
  eexists. split; [reflexivity|]. right.
  eexists _, _. split; [reflexivity|].
  split; [reflexivity|]. split.
  - repeat constructor; (eexists; split; [reflexivity|done]).
  - vm_compute. apply Permutation_swap.
Defined.

(** An item that is scored twice is in [scored_news] twice, and both
    places show the score written last. *)
Example scored_news_twice :
  scored_news Samples.answer_twice Json.loads_py Samples.two_items
  = [ set_filter_reason (PStr EmptyString) (set_score (PInt 10) (Samples.sample_item "a"));
      set_filter_reason (PStr EmptyString) (set_score (PInt 10) (Samples.sample_item "a")) ].
Proof. vm_compute. reflexivity. Qed.

(** An entry without an id raises after the first item was appended: the
    [except] then appends every item of the batch, and the first item, now
    with score 50, is there twice. *)
Example scored_news_no_id :
  scored_news Samples.answer_no_id Json.loads_py Samples.two_items
  = [ set_filter_reason (PStr EmptyString) (set_score (PInt 50) (Samples.sample_item "a"));
      set_filter_reason (PStr EmptyString) (set_score (PInt 50) (Samples.sample_item "a"));
      set_score (PInt 50) (Samples.sample_item "b") ].
Proof. vm_compute. reflexivity. Qed.

Example scored_news_first_only :
  scored_news Samples.answer_first_only Json.loads_py Samples.two_items
  = [ set_filter_reason (PStr EmptyString) (set_score (PInt 85) (Samples.sample_item "a")) ].
Proof. vm_compute. reflexivity. Qed.

End ScoringFacts.

(** ** JSON documents: reading back what was written *)

Module JsonFacts.
Import Json.

Lemma escape_char_parse (c : ascii) (X str rest : string) :
  parse_string_body X = Some (str, rest) →
  parse_string_body (escape_char_to c X) = Some (String c str, rest).
Proof.
  intros H. destruct c as [[] [] [] [] [] [] [] []].
  all: match goal with
       | |- parse_string_body ?e = _ =>
           let t := eval vm_compute in e in change e with t
       end.
  all: cbn; rewrite ?H; reflexivity.
Qed.

Lemma parse_string_escape (s rest : string) :
  parse_string_body (escape_to s (String dquote rest)) = Some (s, rest).
Proof.
  induction s as [|c s IH]; [reflexivity|].
  cbn [escape_to]. by apply escape_char_parse.
Qed.

Lemma skip_ws_indent (level : nat) (s : string) :
  skip_ws (indent_to level s) = skip_ws s.
Proof. induction level as [|level IH]; [done|]. exact IH. Qed.

Lemma skip_ws_newline_indent (level : nat) (s : string) :
  skip_ws (newline_indent_to level s) = skip_ws s.
Proof. apply skip_ws_indent. Qed.

Lemma skip_ws_opens (c : ascii) (r : string) :
  opens c → skip_ws (String c r) = String c r.
Proof. by intros [->|[->| ->]]. Qed.

Lemma dump_opens (level : nat) (v : json) (rest : string) :
  textual v → ∃ c r, dump_to level v rest = String c r ∧ opens c.
Proof.
  unfold opens. destruct v as [| | | s|[|x xs]|[|m ms]]; simpl; try done; eauto 10.
Qed.

Lemma parse_value_skip (fuel : nat) (s s' : string) :
  skip_ws s = skip_ws s' → parse_value fuel s = parse_value fuel s'.
Proof. intros H. destruct fuel; [done|]. simpl. by rewrite H. Qed.

Lemma parse_elements_skip (fuel : nat) (s s' : string) :
  skip_ws s = skip_ws s' → parse_elements fuel s = parse_elements fuel s'.
Proof.
  intros H. destruct fuel; [done|]. simpl.
  by rewrite (parse_value_skip fuel s s').
Qed.

Lemma parse_members_skip (fuel : nat) (s s' : string) :
  skip_ws s = skip_ws s' → parse_members fuel s = parse_members fuel s'.
Proof. intros H. destruct fuel; [done|]. simpl. by rewrite H. Qed.

Lemma parse_elements_last (fuel : nat) (s R rest : string) (v : json) :
  parse_value fuel s = Some (v, R) → skip_ws R = String "]" rest →
  parse_elements (S fuel) s = Some ([v], rest).
Proof. intros Hv HR. simpl. rewrite Hv. simpl. rewrite HR. reflexivity. Qed.

Lemma parse_elements_more (fuel : nat) (s R r rest : string) (v : json)
    (vs : list json) :
  parse_value fuel s = Some (v, R) → skip_ws R = String "," r →
  parse_elements fuel r = Some (vs, rest) →
  parse_elements (S fuel) s = Some (v :: vs, rest).
Proof.
  intros Hv HR Hvs. simpl. rewrite Hv. simpl. rewrite HR.
  rewrite decide_True by done. rewrite Hvs. reflexivity.
Qed.

Lemma parse_members_last (fuel : nat) (s r R r1 R2 rest key : string) (v : json) :
  skip_ws s = String dquote r →
  parse_string_body r = Some (key, R) → skip_ws R = String ":" r1 →
  parse_value fuel r1 = Some (v, R2) → skip_ws R2 = String "}" rest →
  parse_members (S fuel) s = Some ([(key, v)], rest).
Proof.
  intros Hs Hk HR Hv HR2. simpl. rewrite Hs.
  rewrite decide_True by done. rewrite Hk. simpl. rewrite HR.
  rewrite decide_True by done. rewrite Hv. simpl. rewrite HR2. reflexivity.
Qed.

Lemma parse_members_more (fuel : nat) (s r R r1 R2 r2 rest key : string)
    (v : json) (ms : list (string * json)) :
  skip_ws s = String dquote r →
  parse_string_body r = Some (key, R) → skip_ws R = String ":" r1 →
  parse_value fuel r1 = Some (v, R2) → skip_ws R2 = String "," r2 →
  parse_members fuel r2 = Some (ms, rest) →
  parse_members (S fuel) s = Some ((key, v) :: ms, rest).
Proof.
  intros Hs Hk HR Hv HR2 Hms. simpl. rewrite Hs.
  rewrite decide_True by done. rewrite Hk. simpl. rewrite HR.
  rewrite decide_True by done. rewrite Hv. simpl. rewrite HR2.
  rewrite decide_True by done. rewrite Hms. reflexivity.
Qed.

Lemma parse_value_string (fuel : nat) (s r str rest : string) :
  skip_ws s = String dquote r → parse_string_body r = Some (str, rest) →
  parse_value (S fuel) s = Some (JStr str, rest).
Proof.
  intros Hs Hr. simpl. rewrite Hs. rewrite decide_True by done.
  rewrite Hr. reflexivity.
Qed.

Lemma parse_value_empty_array (fuel : nat) (s r rest : string) :
  skip_ws s = String "[" r → skip_ws r = String "]" rest →
  parse_value (S fuel) s = Some (JArr [], rest).
Proof. intros Hs Hr. simpl. rewrite Hs. simpl. rewrite Hr. reflexivity. Qed.

Lemma parse_value_array (fuel : nat) (s r r' rest : string) (c : ascii)
    (l : list json) :
  skip_ws s = String "[" r → skip_ws r = String c r' → c ≠ "]"%char →
  parse_elements fuel r = Some (l, rest) →
  parse_value (S fuel) s = Some (JArr l, rest).
Proof.
  intros Hs Hr Hc Hl. simpl. rewrite Hs. simpl. rewrite Hr.
  rewrite decide_False by done. rewrite Hl. reflexivity.
Qed.

Lemma parse_value_empty_object (fuel : nat) (s r rest : string) :
  skip_ws s = String "{" r → skip_ws r = String "}" rest →
  parse_value (S fuel) s = Some (JObj [], rest).
Proof. intros Hs Hr. simpl. rewrite Hs. simpl. rewrite Hr. reflexivity. Qed.

Lemma parse_value_object (fuel : nat) (s r r' rest : string) (c : ascii)
    (ms : list (string * json)) :
  skip_ws s = String "{" r → skip_ws r = String c r' → c ≠ "}"%char →
  parse_members fuel r = Some (ms, rest) →
  parse_value (S fuel) s = Some (JObj ms, rest).
Proof.
  intros Hs Hr Hc Hl. simpl. rewrite Hs. simpl. rewrite Hr.
  rewrite decide_False by done. rewrite Hl. reflexivity.
Qed.

Lemma opens_not_close (c : ascii) :
  opens c → c ≠ "]"%char ∧ c ≠ "}"%char.
Proof. by intros [->|[->| ->]]. Qed.

Lemma parse_elements_items (xs : list json) :
  Forall (λ x, textual x → reads_back x) xs → textual (JArr xs) →
  ∀ x level rest fuel,
    reads_back x →
    S (calls_of x) + calls_of (JArr xs) ≤ S fuel →
    parse_elements fuel
      (newline_indent_to (S level)
         (dump_to (S level) x
            (dump_items_to (dump_to (S level)) level "]" xs rest)))
    = Some (x :: xs, rest).
Proof.
  induction 1 as [|y ys Hy Hys IH]; intros Ht x level rest fuel Hx Hfuel.
  - destruct fuel as [|fuel]; [simpl in *; lia|].
    eapply parse_elements_last.
    + erewrite parse_value_skip by apply skip_ws_newline_indent.
      apply Hx. simpl in *. lia.
    + cbn [dump_items_to]. by rewrite skip_ws_newline_indent.
  - destruct Ht as [Hty Htys].
    destruct fuel as [|fuel]; [simpl in *; lia|].
    eapply parse_elements_more.
    + erewrite parse_value_skip by apply skip_ws_newline_indent.
      apply Hx. simpl in *. lia.
    + reflexivity.
    + apply IH; [done|by apply Hy|]. simpl in *. lia.
Qed.

Lemma parse_members_items (ms : list (string * json)) :
  Forall (λ m : string * json, textual m.2 → reads_back m.2) ms →
  textual (JObj ms) →
  ∀ m level rest fuel,
    reads_back m.2 →
    S (calls_of m.2) + calls_of (JObj ms) ≤ S fuel →
    parse_members fuel
      (newline_indent_to (S level)
         (dump_member_to (dump_to (S level)) m
            (dump_items_to (dump_member_to (dump_to (S level))) level "}" ms
               rest)))
    = Some (m :: ms, rest).
Proof.
  induction 1 as [|m' ms Hm' Hms IH]; intros Ht [key v] level rest fuel Hv Hfuel.
  - destruct fuel as [|fuel]; [simpl in *; lia|].
    eapply parse_members_last.
    + rewrite skip_ws_newline_indent. reflexivity.
    + apply parse_string_escape.
    + reflexivity.
    + erewrite parse_value_skip; [apply Hv; simpl in *; lia|reflexivity].
    + cbn [dump_items_to]. by rewrite skip_ws_newline_indent.
  - destruct Ht as [Hty Htys].
    destruct fuel as [|fuel]; [simpl in *; lia|].
    eapply parse_members_more.
    + rewrite skip_ws_newline_indent. reflexivity.
    + apply parse_string_escape.
    + reflexivity.
    + erewrite parse_value_skip; [apply Hv; simpl in *; lia|reflexivity].
    + reflexivity.
    + apply IH; [done|by apply Hm'|]. simpl in *. lia.
Qed.

Lemma dump_reads_back (v : json) : textual v → reads_back v.
Proof.
  induction v as [| | |s|l IH|ms IH] using json_nested_ind; try done.
  - intros _ level rest [|fuel] Hfuel; [simpl in *; lia|].
    eapply parse_value_string; [reflexivity|apply parse_string_escape].
  - intros Ht level rest [|fuel] Hfuel; [simpl in *; lia|].
    destruct l as [|x xs].
    + by eapply parse_value_empty_array.
    + apply Forall_cons in IH as [Hx IH]. destruct Ht as [Htx Htxs].
      destruct (dump_opens (S level) x
                  (dump_items_to (dump_to (S level)) level "]" xs rest) Htx)
        as (c & r & Hd & Hc).
      eapply parse_value_array
        with (r := newline_indent_to (S level)
                     (dump_to (S level) x
                        (dump_items_to (dump_to (S level)) level "]" xs rest))).
      * reflexivity.
      * rewrite skip_ws_newline_indent, Hd. by apply skip_ws_opens.
      * by apply opens_not_close.
      * apply parse_elements_items; [done..|by apply Hx|]. simpl in *. lia.
  - intros Ht level rest [|fuel] Hfuel; [simpl in *; lia|].
    destruct ms as [|[key x] ms].
    + by eapply parse_value_empty_object.
    + apply Forall_cons in IH as [Hx IH]. destruct Ht as [Htx Htxs].
      eapply parse_value_object
        with (r := newline_indent_to (S level)
                     (dump_member_to (dump_to (S level)) (key, x)
                        (dump_items_to (dump_member_to (dump_to (S level)))
                           level "}" ms rest))).
      * reflexivity.
      * rewrite skip_ws_newline_indent. reflexivity.
      * done.
      * apply parse_members_items; [done..|by apply Hx|]. simpl in *. lia.
Qed.

Lemma length_escape_char_to (c : ascii) (X : string) :
  String.length X < String.length (escape_char_to c X).
Proof. unfold escape_char_to. repeat case_decide; simpl; lia. Qed.

Lemma length_escape_to (s X : string) :
  String.length X ≤ String.length (escape_to s X).
Proof.
  induction s as [|c s IH]; simpl; [done|].
  pose proof (length_escape_char_to c (escape_to s X)). lia.
Qed.

Lemma length_dump_string_to (s rest : string) :
  2 + String.length rest ≤ String.length (dump_string_to s rest).
Proof.
  unfold dump_string_to. simpl.
  pose proof (length_escape_to s (String dquote rest)). simpl in *. lia.
Qed.

Lemma length_newline_indent_to (level : nat) (s : string) :
  S (String.length s) ≤ String.length (newline_indent_to level s).
Proof.
  unfold newline_indent_to. simpl.
  induction level as [|level IH]; simpl; lia.
Qed.

Lemma length_dump_items (xs : list json) (level : nat) (rest : string) :
  Forall (λ x, textual x → long_enough x) xs → textual (JArr xs) →
  calls_of (JArr xs) + String.length rest
  ≤ String.length (dump_items_to (dump_to (S level)) level "]" xs rest).
Proof.
  induction 1 as [|y ys Hy Hys IH]; intros Ht.
  - cbn [dump_items_to].
    pose proof (length_newline_indent_to level (String "]" rest)).
    simpl in *. lia.
  - destruct Ht as [Hty Htys]. cbn [dump_items_to].
    specialize (IH Htys).
    pose proof (Hy Hty (S level)
                  (dump_items_to (dump_to (S level)) level "]" ys rest)).
    pose proof (length_newline_indent_to (S level)
                  (dump_to (S level) y
                     (dump_items_to (dump_to (S level)) level "]" ys rest))).
    simpl in *. lia.
Qed.

Lemma length_dump_members (ms : list (string * json)) (level : nat)
    (rest : string) :
  Forall (λ m : string * json, textual m.2 → long_enough m.2) ms →
  textual (JObj ms) →
  calls_of (JObj ms) + String.length rest
  ≤ String.length
      (dump_items_to (dump_member_to (dump_to (S level))) level "}" ms rest).
Proof.
  induction 1 as [|[key y] ms Hy Hys IH]; intros Ht.
  - cbn [dump_items_to].
    pose proof (length_newline_indent_to level (String "}" rest)).
    simpl in *. lia.
  - destruct Ht as [Hty Htys]. cbn [dump_items_to].
    specialize (IH Htys).
    set (X := dump_items_to (dump_member_to (dump_to (S level))) level "}" ms
                rest) in *.
    pose proof (Hy Hty (S level) X).
    pose proof (length_dump_string_to key
                  (String ":" (String " " (dump_to (S level) y X)))).
    pose proof (length_newline_indent_to (S level)
                  (dump_member_to (dump_to (S level)) (key, y) X)).
    unfold dump_member_to in *. simpl in *. lia.
Qed.

Lemma dump_long_enough (v : json) : textual v → long_enough v.
Proof.
  induction v as [| | |s|l IH|ms IH] using json_nested_ind; try done.
  - intros _ level rest. pose proof (length_dump_string_to s rest).
    simpl in *. lia.
  - intros Ht level rest. destruct l as [|x xs]; [simpl; lia|].
    apply Forall_cons in IH as [Hx IH]. destruct Ht as [Htx Htxs].
    set (X := dump_items_to (dump_to (S level)) level "]" xs rest).
    pose proof (length_dump_items xs level rest IH Htxs).
    pose proof (Hx Htx (S level) X).
    pose proof (length_newline_indent_to (S level) (dump_to (S level) x X)).
    change (dump_to level (JArr (x :: xs)) rest)
      with (String "[" (newline_indent_to (S level) (dump_to (S level) x X))).
    fold X in H. simpl in *. lia.
  - intros Ht level rest. destruct ms as [|[key x] ms]; [simpl; lia|].
    apply Forall_cons in IH as [Hx IH]. destruct Ht as [Htx Htxs].
    set (X := dump_items_to (dump_member_to (dump_to (S level))) level "}" ms
                rest).
    pose proof (length_dump_members ms level rest IH Htxs).
    pose proof (Hx Htx (S level) X).
    pose proof (length_dump_string_to key
                  (String ":" (String " " (dump_to (S level) x X)))).
    pose proof (length_newline_indent_to (S level)
                  (dump_member_to (dump_to (S level)) (key, x) X)).
    change (dump_to level (JObj ((key, x) :: ms)) rest)
      with (String "{" (newline_indent_to (S level)
                          (dump_member_to (dump_to (S level)) (key, x) X))).
    fold X in H. unfold dump_member_to in *. simpl in *. lia.
Qed.

Lemma loads_dumps (v : json) : textual v → loads (dumps v) = Some v.
Proof.
  intros Ht. unfold loads, dumps.
  rewrite (dump_reads_back v Ht).
  - reflexivity.
  - pose proof (dump_long_enough v Ht 0 EmptyString). simpl in *. lia.
Qed.

End JsonFacts.

(** ** The history file *)

Module HistoryFileFacts.
Import Json History JsonFacts.

Lemma dict_of_list_to_map {A} (members : list (string * A)) :
  dict_of members = list_to_map (reverse members).
Proof.
  induction members as [|m members IH] using rev_ind; [done|].
  unfold dict_of in *. rewrite foldl_snoc, IH, reverse_snoc. done.
Qed.

Section dict_order_facts.
Variable items_of : ∀ A : Type, gmap string A → list (string * A).
Hypothesis items_of_all : ∀ A (m : gmap string A), items_of A m ≡ₚ map_to_list m.

Lemma dict_of_items_of {A} (m : gmap string A) : dict_of (items_of A m) = m.
Proof.
  rewrite dict_of_list_to_map.
  rewrite <-(list_to_map_to_list m) at 2.
  apply list_to_map_proper.
  - rewrite fmap_reverse, reverse_Permutation, items_of_all.
    apply NoDup_fst_map_to_list.
  - by rewrite reverse_Permutation.
Qed.

Lemma decode_encode_entry (e : Entry) :
  decode_entry (encode_entry items_of e) = Some e.
Proof.
  unfold decode_entry, encode_entry.
  rewrite mapM_fmap_Some by (by intros []). simpl.
  by rewrite dict_of_items_of.
Qed.

Lemma decode_encode_store (history : Store) :
  decode_store (encode_store items_of history) = Some history.
Proof.
  unfold decode_store, encode_store.
  rewrite mapM_fmap_Some.
  - simpl. by rewrite dict_of_items_of.
  - intros [key es]. simpl.
    rewrite mapM_fmap_Some; [done|]. apply decode_encode_entry.
Qed.

Lemma textual_members {A} (f : string * A → string * json) (l : list (string * A)) :
  (∀ x, textual (f x).2) → textual (JObj (f <$> l)).
Proof. intros Hf. induction l as [|x l IH]; simpl; [done|]. split; [apply Hf|done]. Qed.

Lemma textual_items {A} (f : A → json) (l : list A) :
  (∀ x, textual (f x)) → textual (JArr (f <$> l)).
Proof. intros Hf. induction l as [|x l IH]; simpl; [done|]. split; [apply Hf|done]. Qed.

Lemma textual_encode_entry (e : Entry) : textual (encode_entry items_of e).
Proof. unfold encode_entry. by apply textual_members. Qed.

Lemma textual_encode_store (history : Store) :
  textual (encode_store items_of history).
Proof.
  unfold encode_store. apply textual_members. intros [key es]. simpl.
  apply (textual_items (encode_entry items_of)). apply textual_encode_entry.
Qed.

(** C9. For every store, and whatever the order in which the items of
    each dict are written, [load_history] run on the file that
    [save_history] wrote returns that store: the same report types, each
    with the same entries in the same order. *)
Theorem load_save_history (history : Store) :
  load_history (Some (save_history items_of history)) = Some history.
Proof.
  unfold load_history, save_history.
  rewrite loads_dumps by apply textual_encode_store.
  apply decode_encode_store.
Qed.

End dict_order_facts.

Lemma load_save_history_witness :
  load_history (Some (save_history map_order Samples.sample_store))
  = Some Samples.sample_store.
Proof. apply (load_save_history map_order). intros A m. reflexivity. Defined.

Example save_history_sample :
  save_history map_order
    {[ "daily" := [ {[ "date" := "d1"; "summary" := "s1" ]} ]; "weekly" := [] ]}
  = Samples.lines
      [ "{";
        "  " +:+ Samples.quoted "weekly" +:+ ": [],";
        "  " +:+ Samples.quoted "daily" +:+ ": [";
        "    {";
        "      " +:+ Samples.quoted "summary" +:+ ": " +:+ Samples.quoted "s1" +:+ ",";
        "      " +:+ Samples.quoted "date" +:+ ": " +:+ Samples.quoted "d1";
        "    }";
        "  ]";
        "}" ].
Proof. vm_compute. reflexivity. Qed.

Example load_no_file : load_history None = Some empty_store.
Proof. reflexivity. Qed.

End HistoryFileFacts.

(** ** The run *)

Module PipelineFacts.
Import Py Tier1 History Pipeline HistoryFacts.

(** [needle in s]: the text holds the needle somewhere. *)
Lemma string_prefix_spec (needle s : string) :
  String.prefix needle s = true ↔ ∃ rest, s = needle +:+ rest.
Proof.
  revert s. induction needle as [|c needle IH]; intros s.
  { destruct s; simpl; split; eauto. }
  destruct s as [|d s]; simpl.
  { split; [done|]. by intros [rest ?]. }
  destruct (Ascii.ascii_dec c d) as [->|Hne].
  - rewrite IH. split; intros [rest Hrest]; exists rest.
    + by rewrite Hrest.
    + by injection Hrest.
  - split; [done|]. intros [rest Hrest]. injection Hrest as ? ?. done.
Qed.

Lemma contains_spec (needle s : string) :
  contains needle s = true ↔ ∃ before after, s = before +:+ needle +:+ after.
Proof.
  induction s as [|c s IH]; cbn [contains].
  - rewrite orb_false_r, string_prefix_spec. split.
    + intros [rest Hrest]. by exists EmptyString, rest.
    + intros (before & after & Hs). destruct before; [by exists after|done].
  - rewrite orb_true_iff, string_prefix_spec, IH. split.
    + intros [[rest Hrest]|(before & after & Hs)].
      * by exists EmptyString, rest.
      * exists (String c before), after. simpl. by rewrite Hs.
    + intros (before & after & Hs). destruct before as [|d before].
      * left. by exists after.
      * right. simpl in Hs. injection Hs as _ Hs. by exists before, after.
Qed.

Lemma not_contains (needle s : string) :
  contains needle s = false → ∀ before after, s ≠ (before +:+ needle +:+ after).
Proof.
  intros Hfalse before after Hs.
  assert (contains needle s = true) as Htrue by (apply contains_spec; eauto).
  congruence.
Qed.

(** The test of the loop, [if report_body and marker not in report_body]. *)
Lemma report_ok_spec (report_body : string) :
  report_ok report_body = true
  ↔ report_body ≠ EmptyString
    ∧ ∀ before after, report_body ≠ (before +:+ "분석 오류" +:+ after).
Proof.
  unfold report_ok. rewrite andb_true_iff, bool_decide_eq_true, negb_true_iff.
  split; intros [Hne Hmark]; (split; [done|]).
  - by apply not_contains.
  - destruct (contains error_marker report_body) eqn:Hc; [|done].
    apply contains_spec in Hc as (before & after & Hs). by destruct (Hmark before after).
Qed.

Section run_facts.
Variable nfkc : string → string.
Variable strip : string → string.
Variable create : nat → list Item → option string.
Variable json_loads : string → option pyval.
Variable analysis : string → list Item → string → string + string * string.
Variable summarize : string → option string.
Variable utcnow_label : string → string.
Variable items_of : ∀ A : Type, gmap string A → list (string * A).

Local Abbreviation tier2_analyze := (tier2_analyze nfkc strip analysis).
Local Abbreviation run_report :=
  (run_report nfkc strip analysis summarize utcnow_label).
Local Abbreviation main :=
  (main nfkc strip create json_loads analysis summarize utcnow_label items_of).

Lemma error_report_marked (e trace : string) :
  contains error_marker
    ("<h3>분석 오류</h3><p>" +:+ e +:+ "</p><pre>" +:+ trace +:+ "</pre>")
  = true.
Proof. reflexivity. Qed.

Lemma marked_not_ok (report_body : string) :
  contains error_marker report_body = true → report_ok report_body = false.
Proof. intros H. unfold report_ok. rewrite H. apply andb_false_r. Qed.

Lemma run_report_skip (top_news : list Item) (st : Store * list event)
    (report_type : string) :
  report_ok (tier2_analyze top_news report_type
               (get_accumulated_context report_type st.1)) = false →
  run_report top_news st report_type = st.
Proof. intros H. unfold Pipeline.run_report. by rewrite H. Qed.

Lemma run_report_done (top_news : list Item) (st : Store * list event)
    (report_type : string) :
  let report_body :=
    tier2_analyze top_news report_type
      (get_accumulated_context report_type st.1) in
  report_ok report_body = true →
  run_report top_news st report_type
  = (save_report_summary summarize (utcnow_label report_type) report_type
       report_body st.1,
     st.2 ++ [SendEmail report_body report_type;
              SaveSummary report_type report_body]).
Proof. cbv zeta. intros H. unfold Pipeline.run_report. by rewrite H. Qed.

(** The log only grows, and a turn of the loop logs events of its own
    report type only. *)
Lemma loop_log (top_news : list Item) (report_types : list string)
    (st : Store * list event) :
  ∃ new,
    (foldl (run_report top_news) st report_types).2 = st.2 ++ new
    ∧ Forall (λ ev, ∃ rt, rt ∈ report_types ∧ event_type ev = Some rt) new.
Proof.
  revert st. induction report_types as [|rt rts IH]; intros st.
  { exists []. split; [by rewrite app_nil_r|constructor]. }
  cbn [foldl]. destruct (IH (run_report top_news st rt)) as (new & Hlog & Hnew).
  assert (∃ own, (run_report top_news st rt).2 = st.2 ++ own
                 ∧ Forall (λ ev, event_type ev = Some rt) own)
    as (own & Hown & Hrt).
  { unfold Pipeline.run_report. destruct (report_ok _).
    - eexists. split; [reflexivity|]. by repeat constructor.
    - exists []. split; [by rewrite app_nil_r|constructor]. }
  exists (own ++ new). split.
  - by rewrite Hlog, Hown, app_assoc.
  - apply Forall_app. split.
    + eapply Forall_impl; [exact Hrt|]. intros ev Hev. exists rt.
      split; [left|done].
    + eapply Forall_impl; [exact Hnew|]. intros ev (rt' & Hin & Hev).
      exists rt'. split; [by right|done].
Qed.

(** A turn of the loop changes the sequence of its own report type only,
    and that by one call of [save_report_summary]. *)
Lemma run_report_other (top_news : list Item) (st : Store * list event)
    (report_type other : string) :
  other ≠ report_type →
  (run_report top_news st report_type).1 !! other = st.1 !! other.
Proof.
  intros Hne. unfold Pipeline.run_report. destruct (report_ok _); [|done].
  by apply save_report_summary_other.
Qed.

Lemma loop_other (top_news : list Item) (report_types : list string)
    (st : Store * list event) (other : string) :
  other ∉ report_types →
  (foldl (run_report top_news) st report_types).1 !! other = st.1 !! other.
Proof.
  revert st. induction report_types as [|rt rts IH]; intros st Hnot; [done|].
  apply not_elem_of_cons in Hnot as [Hne Hnot]. cbn [foldl].
  by rewrite IH, run_report_other.
Qed.

(** C8. When the settings are present, the history file loads, and
    [fetch_news] and [tier1_filter] both give items, [main] runs the loop
    over the due report types and then saves the history: the log of the
    run ends with its only [SaveHistory], whatever happened to the report
    types, and the history that is saved holds, for a report type that is
    not due, what the loaded history held. A report type whose report
    carries the error marker leaves the history as it was and has no event
    in the log, neither a delivery nor a summary; a report type
    whose report is accepted has both, whatever happened to the others.
    The same is stated on the text and on the saved history: a report that
    is empty or holds "분석 오류" anywhere has no delivery and no summary
    in the log, with any body, and its sequence in the saved history is
    the one that was loaded; a report that is not empty and does not hold
    the marker is delivered and summarized with its own body, and its
    sequence in the saved history ends with the entry of the clock label
    and its summary (the sentinel text when the summary request fails),
    after a suffix of the loaded sequence. *)
Theorem main_saves_history_once (cfg : config) (utcnow : Schedule.datetime)
    (file : option string) (fetched top_news : list Item) (history0 : Store) :
  ANTHROPIC_API_KEY cfg ≠ EmptyString → EMAIL_USER cfg ≠ EmptyString →
  EMAIL_PASSWORD cfg ≠ EmptyString → EMAIL_RECEIVER cfg ≠ EmptyString →
  load_history file = Some history0 →
  fetched ≠ [] →
  tier1_filter create json_loads fetched = Some top_news → top_news ≠ [] →
  let report_types := Schedule.determine_report_types utcnow None in
  ∃ history log,
    foldl (run_report top_news) (history0, []) report_types = (history, log)
    ∧ main cfg utcnow file fetched
      = Completed (log ++ [SaveHistory history])
          (save_history items_of history)
    ∧ Forall (λ ev, event_type ev ≠ None) log
    ∧ (∀ ev, ev ∈ log → ∀ saved, ev ≠ SaveHistory saved)
    ∧ (∀ other, other ∉ report_types → history !! other = history0 !! other)
    ∧ ∀ pre report_type post,
        report_types = pre ++ report_type :: post →
        let before := foldl (run_report top_news) (history0, []) pre in
        let report_body :=
          tier2_analyze top_news report_type
            (get_accumulated_context report_type before.1) in
        (contains error_marker report_body = true →
         run_report top_news before report_type = before
         ∧ Forall (λ ev, event_type ev ≠ Some report_type) log)
        ∧ (report_ok report_body = true →
           SendEmail report_body report_type ∈ log
           ∧ SaveSummary report_type report_body ∈ log)
        ∧ (report_body = EmptyString
           ∨ (∃ text_before text_after,
                report_body = (text_before +:+ "분석 오류" +:+ text_after)) →
           (∀ body, (SendEmail body report_type ∉ log)
                    ∧ (SaveSummary report_type body ∉ log))
           ∧ history !! report_type = history0 !! report_type)
        ∧ (report_body ≠ EmptyString →
           (∀ text_before text_after,
              report_body ≠ (text_before +:+ "분석 오류" +:+ text_after)) →
           SendEmail report_body report_type ∈ log
           ∧ SaveSummary report_type report_body ∈ log
           ∧ ∃ kept,
               history !! report_type
               = Some (kept
                       ++ [ {[ "date" := utcnow_label report_type;
                               "summary" := match summarize report_body with
                                            | Some text => text
                                            | None => "요약 생성 실패"
                                            end ]} ])
               ∧ kept `suffix_of` default [] (history0 !! report_type)).
Proof.
  intros Hkey Huser Hpass Hrecv Hload Hnews Htop Hne. cbv zeta.
  set (rts := Schedule.determine_report_types utcnow None).
  destruct (foldl (run_report top_news) (history0, []) rts)
    as [history log] eqn:Hloop.
  exists history, log. split; [done|].
  assert (Forall (λ ev, event_type ev ≠ None) log) as Hevents.
  { destruct (loop_log top_news rts (history0, [])) as (new & Hlog & Hnew).
    rewrite Hloop in Hlog. simpl in Hlog. subst log.
    eapply Forall_impl; [exact Hnew|]. intros ev (rt & _ & ->). done. }
  split; [|split; [done|split; [|split]]].
  - unfold Pipeline.main.
    rewrite decide_False by done. rewrite decide_False by tauto.
    rewrite Hload. destruct fetched as [|item fetched]; [done|].
    rewrite Htop. destruct top_news as [|top tops]; [done|].
    fold rts. by rewrite Hloop.
  - intros ev Hin saved ->. rewrite Forall_forall in Hevents.
    by apply (Hevents _ Hin).
  - intros other Hother.
    pose proof (loop_other top_news rts (history0, []) other Hother) as Hsame.
    by rewrite Hloop in Hsame.
  - intros pre rt post Hsplit. cbv zeta.
    assert (NoDup rts) as Hnd by apply ScheduleFacts.determine_report_types_NoDup.
    rewrite Hsplit in Hnd, Hloop.
    apply NoDup_app in Hnd as (_ & Hpre & Hpost).
    apply NoDup_cons in Hpost as [Hpost _].
    assert (rt ∉ pre) as Hpre' by (intros Hin; by apply (Hpre rt); [|left]).
    rewrite foldl_app in Hloop. cbn [foldl] in Hloop.
    destruct (loop_log top_news pre (history0, [])) as (new1 & Hlog1 & Hnew1).
    simpl in Hlog1.
    pose proof (loop_other top_news pre (history0, []) rt Hpre') as Hbefore.
    cbn [fst] in Hbefore.
    set (before := foldl (run_report top_news) (history0, []) pre) in *.
    set (report_body := tier2_analyze top_news rt
                          (get_accumulated_context rt before.1)).
    assert (report_ok report_body = false →
            run_report top_news before rt = before
            ∧ Forall (λ ev, event_type ev ≠ Some rt) log
            ∧ history !! rt = history0 !! rt) as Hskipped.
    { intros Hno.
      assert (run_report top_news before rt = before) as Hskip
        by by apply run_report_skip.
      split; [exact Hskip|]. rewrite Hskip in Hloop.
      destruct (loop_log top_news post before) as (new2 & Hlog2 & Hnew2).
      pose proof (loop_other top_news post before rt Hpost) as Hafter.
      rewrite Hloop in Hlog2, Hafter. cbn [fst snd] in Hlog2, Hafter.
      split; [|by rewrite Hafter].
      rewrite Hlog1 in Hlog2. simpl in Hlog2. subst log.
      apply Forall_app. split.
      - eapply Forall_impl; [exact Hnew1|]. intros ev (rt' & Hin & ->).
        intros [= ->]. done.
      - eapply Forall_impl; [exact Hnew2|]. intros ev (rt' & Hin & ->).
        intros [= ->]. done. }
    assert (report_ok report_body = true →
            SendEmail report_body rt ∈ log
            ∧ SaveSummary rt report_body ∈ log
            ∧ history !! rt
              = save_report_summary summarize (utcnow_label rt) rt report_body
                  before.1 !! rt) as Haccepted.
    { intros Hok. rewrite run_report_done in Hloop by done.
      match type of Hloop with
      | foldl _ ?st _ = _ =>
          destruct (loop_log top_news post st) as (new2 & Hlog2 & Hnew2);
          pose proof (loop_other top_news post st rt Hpost) as Hafter
      end.
      rewrite Hloop in Hlog2, Hafter. cbn [fst snd] in Hlog2, Hafter.
      subst log. rewrite !elem_of_app, !elem_of_cons. tauto. }
    split; [|split; [|split]].
    + intros Hmark. destruct Hskipped as (Hskip & Hnone & _); [|done].
      by apply marked_not_ok.
    + intros Hok. destruct (Haccepted Hok) as (Hsend & Hsave & _). done.
    + intros Hbad. destruct Hskipped as (_ & Hnone & Hsame).
      { destruct (report_ok report_body) eqn:Hok; [|done].
        apply report_ok_spec in Hok as [Hfull Hclean].
        destruct Hbad as [Hempty|(tb & ta & Hbody)]; [done|].
        by destruct (Hclean tb ta). }
      split; [|done]. rewrite Forall_forall in Hnone.
      intros body. split; intros Hin; by apply (Hnone _ Hin).
    + intros Hfull Hclean.
      destruct Haccepted as (Hsend & Hsave & Hstore);
        [by apply report_ok_spec|].
      split; [done|]. split; [done|]. rewrite Hstore.
      destruct (save_report_summary_entry summarize (utcnow_label rt) rt
                  report_body before.1) as (kept & Hentry & Hsuffix).
      exists kept. split; [done|]. by rewrite <-Hbefore.
Qed.

(** C10. The loop tells a failed report from an accepted one by the text
    alone: when the analysis succeeds with a report whose body holds the
    marker "분석 오류", the turn of the loop leaves the history and the log
    as they were, with no delivery and no summary, and so does the turn
    for an analysis that fails. *)
Theorem marked_success_as_failure
    (analysis' : string → list Item → string → string + string * string)
    (top_news : list Item) (st : Store * list event)
    (report_type text e trace : string) :
  analysis report_type top_news (get_accumulated_context report_type st.1)
  = inl text →
  contains error_marker (clean_report_body nfkc strip text) = true →
  analysis' report_type top_news (get_accumulated_context report_type st.1)
  = inr (e, trace) →
  run_report top_news st report_type = st
  ∧ Pipeline.run_report nfkc strip analysis' summarize utcnow_label
      top_news st report_type = st.
Proof.
  intros Hsuccess Hmark Hfail. split.
  - apply run_report_skip, marked_not_ok.
    unfold Pipeline.tier2_analyze. by rewrite Hsuccess.
  - unfold Pipeline.run_report, Pipeline.tier2_analyze. rewrite Hfail.
    by rewrite (marked_not_ok _ (error_report_marked e trace)).
Qed.

End run_facts.

Lemma main_saves_history_once_witness :
  ∃ history log,
    main id id Samples.answer_both Json.loads_py Samples.sample_analysis
      Samples.no_summary Samples.sample_clock map_order Samples.sample_config
      Samples.saturday None Samples.two_items
    = Completed (log ++ [SaveHistory history])
        (save_history map_order history)
    ∧ Forall (λ ev, event_type ev ≠ None) log
    ∧ SendEmail "<h3>Weekly</h3>" "weekly" ∈ log
    ∧ SaveSummary "weekly" "<h3>Weekly</h3>" ∈ log
    ∧ (∃ kept,
         history !! "weekly"
         = Some (kept ++ [ {[ "date" := "2025-11-01 07:00 UTC";
                              "summary" := "요약 생성 실패" ]} ]))
    ∧ (∀ body, (SendEmail body "daily" ∉ log)
               ∧ (SaveSummary "daily" body ∉ log))
    ∧ history !! "daily" = empty_store !! "daily".
Proof.
  destruct (main_saves_history_once id id Samples.answer_both Json.loads_py
              Samples.sample_analysis Samples.no_summary Samples.sample_clock
              map_order Samples.sample_config Samples.saturday None
              Samples.two_items Samples.two_items_top empty_store)
    as (history & log & _ & Hmain & Hlog & _ & _ & Hsplit).
  1-4: discriminate.
  - reflexivity.
  - discriminate.
  - vm_compute. reflexivity.
  - discriminate.
  - destruct (Hsplit ["daily"] "weekly" ["monthly"]) as (_ & _ & _ & Hweekly);
      [reflexivity|].
    destruct Hweekly as (Hsend & Hsave & kept & Hentry & _).
    { vm_compute. discriminate. }
    { refine (not_contains "분석 오류" _ _). vm_compute. reflexivity. }
    destruct (Hsplit [] "daily" ["weekly"; "monthly"]) as (_ & _ & Hdaily & _);
      [reflexivity|].
    destruct Hdaily as [Hnone Hsame].
    { right. refine (proj1 (contains_spec "분석 오류" _) _).
      vm_compute. reflexivity. }
    exists history, log. split; [exact Hmain|]. split; [exact Hlog|].
    split; [exact Hsend|]. split; [exact Hsave|]. split; [by exists kept|].
    split; [exact Hnone|exact Hsame].
Defined.

Lemma marked_success_as_failure_witness :
  run_report id id Samples.marked_analysis Samples.no_summary
    Samples.sample_clock Samples.two_items_top (empty_store, []) "daily"
  = (empty_store, [])
  ∧ run_report id id Samples.failing_analysis Samples.no_summary
      Samples.sample_clock Samples.two_items_top (empty_store, []) "daily"
    = (empty_store, []).
Proof.
  apply (marked_success_as_failure id id Samples.marked_analysis
           Samples.no_summary Samples.sample_clock Samples.failing_analysis
           Samples.two_items_top (empty_store, []) "daily"
           "<p>지난달 분석 오류 사례</p>" "timeout" "Traceback").
  - reflexivity.
  - vm_compute. reflexivity.
  - reflexivity.
Defined.

Example main_sample :
  main id id Samples.answer_both Json.loads_py Samples.sample_analysis
    Samples.no_summary Samples.sample_clock map_order Samples.sample_config
    Samples.saturday None Samples.two_items
  = let history : Store :=
      <["weekly" := [ {[ "date" := "2025-11-01 07:00 UTC";
                         "summary" := "요약 생성 실패" ]} ]]> empty_store in
    Completed
      [ SendEmail "<h3>Weekly</h3>" "weekly";
        SaveSummary "weekly" "<h3>Weekly</h3>";
        SaveHistory history ]
      (save_history map_order history).
Proof. vm_compute. reflexivity. Qed.

End PipelineFacts.

(** ** Tier 1: what the scoring loop keeps *)

Module ScoringInvariants.
Import Py Tier1 Notions ScoringFacts SelectFacts.

Lemma entries_writes_scoring (n : nat) (es : list pyval) :
  Forall scoring_write (entries_writes n es).1.
Proof.
  induction es as [|e es IH]; simpl; [constructor|].
  destruct (entry_write n e) as [ow|] eqn:He; [|constructor].
  destruct (entries_writes n es) as [ws raised]. simpl in *.
  apply Forall_app. split; [|done].
  destruct ow as [w|]; [|constructor]. repeat constructor.
  - unfold entry_write in He. destruct (subscript_id e); [|done]. simpl in He.
    destruct (check_idx _ _); simplify_eq. done.
  - unfold entry_write in He. destruct (subscript_id e); [|done]. simpl in He.
    destruct (check_idx _ _); simplify_eq. simpl. eauto.
Qed.

Lemma fallback_writes_scoring (n : nat) : Forall scoring_write (fallback_writes n).
Proof.
  unfold fallback_writes. apply Forall_fmap, Forall_forall. intros i _ it.
  simpl. split; [done|eauto].
Qed.

Lemma batch_writes_scoring create json_loads (bs : nat) (batch : list Item) :
  Forall scoring_write (batch_writes create json_loads bs batch).
Proof.
  unfold batch_writes, try_writes.
  pose proof (fallback_writes_scoring (length batch)) as Hfb.
  destruct (create bs batch) as [text|]; [|done].
  destruct (json_span text) as [span|]; [|done].
  destruct (json_loads span) as [[]|]; try done.
  destruct (iter_items _) as [entries|]; [|done].
  pose proof (entries_writes_scoring (length batch) entries) as Hes.
  destruct (entries_writes _ _) as [ws []]; simpl in *; [|done].
  by apply Forall_app.
Qed.

Lemma apply_write_inv (news_list : list Item) (bs : nat) (w : write) (st : state) :
  scoring_write w → bs + w.1 < length (store st) →
  scoring_inv news_list st → scoring_inv news_list (apply_write bs st w).
Proof.
  intros Hw Hlt [Hfields Hscored]. split; simpl.
  - rewrite <-Hfields.
    apply list_eq. intros i. rewrite !list_lookup_fmap.
    destruct (decide (bs + w.1 = i)) as [<-|Hne].
    + rewrite list_lookup_alter_eq.
      destruct (store st !! (bs + w.1)) as [it|]; [|done]. simpl.
      f_equal. apply (Hw it).
    + by rewrite list_lookup_alter_ne.
  - apply Forall_app. split.
    + eapply Forall_impl; [exact Hscored|]. intros r (it & Hr & Hs).
      destruct (decide (bs + w.1 = r)) as [<-|Hne].
      * exists (w.2 it). rewrite list_lookup_alter_eq, Hr. split; [done|apply Hw].
      * exists it. by rewrite list_lookup_alter_ne.
    + repeat constructor.
      destruct (lookup_lt_is_Some_2 _ _ Hlt) as [it Hit].
      exists (w.2 it). rewrite list_lookup_alter_eq, Hit. split; [done|apply Hw].
Qed.

Lemma apply_writes_inv (news_list : list Item) (bs : nat) (ws : list write)
    (st : state) :
  Forall scoring_write ws →
  Forall (λ w : write, bs + w.1 < length (store st)) ws →
  scoring_inv news_list st → scoring_inv news_list (apply_writes bs ws st).
Proof.
  revert st. induction ws as [|w ws IH]; intros st Hws Hlt Hinv; [done|].
  apply Forall_cons in Hws as [Hw Hws]. apply Forall_cons in Hlt as [Hl Hlt].
  unfold apply_writes. cbn [foldl]. apply IH; [done| |by apply apply_write_inv].
  eapply Forall_impl; [exact Hlt|]. intros w'. simpl. by rewrite length_alter.
Qed.

Section scoring_inv_facts.
Variable create : nat → list Item → option string.
Variable json_loads : string → option pyval.

Lemma score_batch_inv (news_list : list Item) (st : state) (bs : nat) :
  scoring_inv news_list st →
  scoring_inv news_list (score_batch create json_loads st bs).
Proof.
  intros Hinv. rewrite score_batch_writes. apply apply_writes_inv; [| |done].
  - apply batch_writes_scoring.
  - eapply Forall_impl; [apply batch_writes_lt|]. intros w Hw. simpl in Hw.
    pose proof (batch_len_eq bs st) as Hlen. unfold batch_len in Hlen. lia.
Qed.

Lemma score_all_inv (news_list : list Item) :
  scoring_inv news_list (score_all create json_loads news_list).
Proof.
  unfold score_all.
  assert (scoring_inv news_list (mk_state news_list [])) as Hinit
    by (split; [done|constructor]).
  revert Hinit. generalize (mk_state news_list []).
  induction (batch_starts (length news_list)) as [|bs bss IH]; intros st Hinv;
    [done|].
  cbn [foldl]. by apply IH, score_batch_inv.
Qed.

Lemma score_all_length (news_list : list Item) :
  length (store (score_all create json_loads news_list)) = length news_list.
Proof.
  destruct (score_all_inv news_list) as [Hfields _].
  by rewrite <-(length_fmap fetched_fields), Hfields, length_fmap.
Qed.

Lemma scored_news_inputs (news_list : list Item) :
  Forall (λ it, is_Some (score it)
                ∧ ∃ orig, orig ∈ news_list
                          ∧ fetched_fields it = fetched_fields orig)
    (scored_news create json_loads news_list).
Proof.
  destruct (score_all_inv news_list) as [Hfields Hscored].
  unfold scored_news, scored_items. apply Forall_fmap.
  eapply Forall_impl; [exact Hscored|]. intros r (it & Hr & Hs). simpl.
  rewrite (list_lookup_total_correct _ _ _ Hr). split; [done|].
  assert (fetched_fields <$> store (score_all create json_loads news_list) !! r
          = Some (fetched_fields it)) as Hf by by rewrite Hr.
  rewrite <-list_lookup_fmap, Hfields, list_lookup_fmap in Hf.
  destruct (news_list !! r) as [orig|] eqn:Horig; [|done].
  exists orig. split; [by eapply list_elem_of_lookup_2|]. simpl in Hf. congruence.
Qed.

Lemma scored_in_range (news_list : list Item) :
  Forall (λ r, r < length news_list)
    (scored (score_all create json_loads news_list)).
Proof.
  destruct (score_all_inv news_list) as [_ Hscored].
  eapply Forall_impl; [exact Hscored|]. intros r (it & Hr & _).
  rewrite <-score_all_length. by eapply lookup_lt_Some.
Qed.

(** X1. The scoring loop writes the keys "score" and "filter_reason" and
    nothing else: after it, the items of [news_list] are at their places
    with the five keys of [fetch_news] unchanged, every reference in
    [scored_news] is a position of [news_list], and every item of
    [scored_news] has a score and is an input item as far as those five
    keys go. *)
Theorem scoring_keeps_items (news_list : list Item) :
  let final := score_all create json_loads news_list in
  fetched_fields <$> store final = fetched_fields <$> news_list
  ∧ Forall (λ r, r < length news_list) (scored final)
  ∧ Forall (λ it, is_Some (score it)
                  ∧ ∃ orig, orig ∈ news_list
                            ∧ fetched_fields it = fetched_fields orig)
      (scored_news create json_loads news_list).
Proof.
  cbv zeta. destruct (score_all_inv news_list) as [Hfields _].
  split; [done|]. split; [apply scored_in_range|apply scored_news_inputs].
Qed.

(** X2. What [tier1_filter] returns is taken from [scored_news], no item
    more often than it is there, and each returned item has a score and
    is an input item with its five keys of [fetch_news] unchanged. *)
Theorem tier1_filter_selects_inputs (news_list top_news : list Item) :
  tier1_filter create json_loads news_list = Some top_news →
  top_news ⊆+ scored_news create json_loads news_list
  ∧ Forall (λ it, is_Some (score it)
                  ∧ ∃ orig, orig ∈ news_list
                            ∧ fetched_fields it = fetched_fields orig)
      top_news.
Proof.
  intros Htop.
  assert (top_news ⊆+ scored_news create json_loads news_list) as Hsub.
  { unfold tier1_filter in Htop. destruct news_list as [|item news_list].
    { injection Htop as <-. apply submseteq_nil_l. }
    unfold select_top in Htop. case_bool_decide; [|done].
    injection Htop as <-.
    etrans; [apply sublist_submseteq, sublist_take|].
    by rewrite sort_desc_perm. }
  split; [done|].
  apply Forall_forall. intros it Hit.
  pose proof (scored_news_inputs news_list) as Hall.
  rewrite Forall_forall in Hall. apply Hall.
  by eapply elem_of_submseteq.
Qed.
End scoring_inv_facts.

Lemma lookup_batch_items (bs i : nat) (st : state) :
  i < BATCH_SIZE → batch_items bs st !! i = store st !! (bs + i).
Proof.
  intros Hi. unfold batch_items. by rewrite lookup_take_lt, lookup_drop.
Qed.

Lemma read_all {A} `{Inhabited A} (l : list A) :
  (λ i, l !!! i) <$> seq 0 (length l) = l.
Proof.
  apply list_eq. intros i. rewrite list_lookup_fmap.
  destruct (l !! i) as [x|] eqn:Hx.
  - rewrite lookup_seq_lt by by eapply lookup_lt_Some. simpl.
    by rewrite (list_lookup_total_correct _ _ _ Hx).
  - rewrite lookup_seq_ge; [done|]. by apply lookup_ge_None.
Qed.

Lemma concat_fmap_fmap {A B} (f : A → B) (ls : list (list A)) :
  concat ((λ l : list A, f <$> l) <$> ls) = f <$> concat ls.
Proof.
  induction ls as [|l ls IH]; [done|].
  rewrite fmap_cons. cbn [concat]. by rewrite fmap_app, IH.
Qed.

(** The slices of the batches, one after the other, are the list. *)
Lemma concat_batches (st : state) :
  concat ((λ bs, batch_items bs st) <$> batch_starts (length (store st)))
  = store st.
Proof.
  rewrite <-(read_all (store st)) at 2.
  rewrite <-concat_batch_seqs, <-concat_fmap_fmap, <-list_fmap_compose.
  f_equal. apply list_fmap_ext. intros _ bs _. simpl.
  rewrite <-read_batch. do 2 f_equal.
  pose proof (batch_len_eq bs st) as Hlen. by unfold batch_len in Hlen.
Qed.

(** X3. The slices [news_list[batch_start:batch_start + BATCH_SIZE]] of the
    loop, one after the other, are [news_list]: every item is in exactly
    one batch. No batch is empty or longer than 20, and there are
    [(len + 19) // 20] of them, one scoring request each. *)
Theorem batches_partition (news_list : list Item) :
  let batches :=
    (λ bs, batch_items bs (mk_state news_list []))
      <$> batch_starts (length news_list) in
  concat batches = news_list
  ∧ Forall (λ batch, 0 < length batch ≤ BATCH_SIZE) batches
  ∧ length batches = (length news_list + 19) / 20.
Proof.
  cbv zeta. split; [apply (concat_batches (mk_state news_list []))|]. split.
  - apply Forall_fmap, Forall_forall. intros bs Hbs. simpl.
    apply elem_of_batch_starts in Hbs as [_ Hlt].
    pose proof (batch_len_eq bs (mk_state news_list [])) as Hlen.
    unfold batch_len in Hlen. rewrite Hlen. cbn [store].
    unfold BATCH_SIZE in *. lia.
  - unfold batch_starts, BATCH_SIZE. rewrite !length_fmap, length_seq.
    f_equal. lia.
Qed.

Section sort_const.
Context {A : Type} (key : A → Z).

Lemma sort_desc_const (k : Z) (l : list A) :
  Forall (λ x, key x = k) l → sort_desc key l = l.
Proof.
  induction 1 as [|x l Hx Hl IH]; [done|].
  unfold sort_desc in *. cbn [foldr]. rewrite IH.
  destruct Hl as [|y l Hy Hl]; [done|]. simpl.
  rewrite bool_decide_eq_false_2; [done|]. lia.
Qed.
End sort_const.

Lemma alter_all_length (ws : list write) (batch : list Item) :
  length (alter_all ws batch) = length batch.
Proof.
  revert batch. induction ws as [|w ws IH]; intros batch; [done|].
  unfold alter_all in *. cbn [foldl]. by rewrite IH, length_alter.
Qed.

Lemma alter_all_app (ws1 ws2 : list write) (batch : list Item) :
  alter_all (ws1 ++ ws2) batch = alter_all ws2 (alter_all ws1 batch).
Proof. apply foldl_app. Qed.

Section outage.
Variable create : nat → list Item → option string.
Variable json_loads : string → option pyval.

Lemma scored_news_batches (news_list : list Item) :
  (∀ bs, bs ∈ batch_starts (length news_list) →
         refs_of bs (batch_writes create json_loads bs
                       (batch_items bs (mk_state news_list [])))
         = seq bs (length (batch_items bs (mk_state news_list [])))) →
  scored_news create json_loads news_list
  = concat ((λ bs, batch_items bs (score_all create json_loads news_list))
              <$> batch_starts (length news_list)).
Proof.
  intros Hrefs. unfold scored_news, scored_items.
  rewrite score_all_scored, <-concat_fmap_fmap, <-list_fmap_compose.
  f_equal. apply list_fmap_ext. intros _ bs Hbs%list_elem_of_lookup_2. simpl.
  rewrite Hrefs by done. etrans; [|apply read_batch]. do 2 f_equal.
  pose proof (batch_len_eq bs (mk_state news_list [])) as H1.
  pose proof (batch_len_eq bs (score_all create json_loads news_list)) as H2.
  unfold batch_len in *. rewrite score_all_length in H2. cbn [store] in H1.
  congruence.
Qed.

(** X4. When no scoring request gives a usable answer (each one fails, or
    answers without a brace-delimited span, or with a span that is not
    JSON), [scored_news] is the input in its order, each item with score
    50, and [tier1_filter] returns its first [max(3, len // 20)] items:
    the stable sort leaves items of equal score in place. *)
Theorem outage_keeps_first_items (news_list : list Item) :
  (∀ batch_start batch, unusable json_loads (create batch_start batch)) →
  scored_news create json_loads news_list = set_score (PInt 50) <$> news_list
  ∧ tier1_filter create json_loads news_list
    = Some (take (3 `max` (length news_list / 20))
              (set_score (PInt 50) <$> news_list)).
Proof.
  intros Hout.
  assert (∀ bs batch, batch_writes create json_loads bs batch
                      = fallback_writes (length batch)) as Hfb.
  { intros bs batch. apply batch_writes_fallback, Hout. }
  assert (scored_news create json_loads news_list
          = set_score (PInt 50) <$> news_list) as Hscored.
  { rewrite scored_news_batches.
    - rewrite <-(concat_batches (mk_state news_list [])) at 2. cbn [store].
      rewrite <-concat_fmap_fmap, <-list_fmap_compose. f_equal.
      apply list_fmap_ext. intros _ bs Hbs%list_elem_of_lookup_2. simpl.
      rewrite score_all_items by done. by rewrite Hfb, alter_all_fallback.
    - intros bs _. by rewrite Hfb, refs_of_fallback. }
  split; [done|].
  unfold tier1_filter. destruct news_list as [|item news_list]; [done|].
  rewrite Hscored.
  assert (Forall (λ it, key_of it = 50%Z)
            (set_score (PInt 50) <$> item :: news_list)) as Hkeys.
  { apply Forall_fmap, Forall_forall. by intros it _. }
  rewrite select_top_eq.
  - by rewrite (sort_desc_const key_of 50 _ Hkeys), length_fmap.
  - apply Forall_fmap, Forall_forall. intros it _. by eexists.
Qed.
End outage.

Section raising.
Variable create : nat → list Item → option string.
Variable json_loads : string → option pyval.

Lemma store_batch_item (bs r : nat) (st : state) :
  in_batch bs r → r < length (store st) →
  store st !!! r = batch_items bs st !!! (r - bs).
Proof.
  intros [Hge Hlt] Hr.
  destruct (lookup_lt_is_Some_2 _ _ Hr) as [it Hit].
  rewrite (list_lookup_total_correct _ _ _ Hit).
  symmetry. apply list_lookup_total_correct.
  rewrite lookup_batch_items by lia. by replace (bs + (r - bs)) with r by lia.
Qed.

(** X5. When the loop over the entries of an answer raises (an entry that
    is not a dict or has no "id", an id that cannot be compared with the
    bounds or cannot index the batch), the [except]
    appends every item of the batch after the items that were appended
    before the exception: the batch then has more references in
    [scored_news] than items, and, the items being shared, every one of
    them reads score 50, also those scored before the exception. *)
Theorem raising_answer_falls_back (news_list : list Item) (batch_start : nat)
    (text span : string) (result : list (string * pyval)) (entries : list pyval) :
  batch_start ∈ batch_starts (length news_list) →
  let init := mk_state news_list [] in
  let batch := batch_items batch_start init in
  let final := score_all create json_loads news_list in
  create batch_start batch = Some text →
  json_span text = Some span →
  json_loads span = Some (PDict result) →
  iter_items (default (PList []) (dict_get "scores" result)) = Some entries →
  (score_entries batch_start entries init).2 = true →
  let refs := filter (in_batch batch_start) (scored final) in
  refs = scored (score_entries batch_start entries init).1
         ++ seq batch_start (length batch)
  ∧ Forall (λ r, score (store final !!! r) = Some (PInt 50)) refs.
Proof.
  intros Hbs. cbv zeta. intros Hcreate Hspan Hloads Hiter Hraised.
  rewrite score_entries_writes in Hraised |- *. cbn [fst snd] in Hraised |- *.
  pose proof (batch_len_eq batch_start (mk_state news_list [])) as Hlen.
  unfold batch_len in Hlen.
  set (batch := batch_items batch_start (mk_state news_list [])) in *.
  change (batch_len batch_start (mk_state news_list [])) with (length batch)
    in Hraised |- *.
  set (ws := (entries_writes (length batch) entries).1).
  assert (batch_writes create json_loads batch_start batch
          = ws ++ fallback_writes (length batch)) as Hws.
  { unfold batch_writes, try_writes. rewrite Hcreate, Hspan, Hloads, Hiter.
    subst ws. destruct (entries_writes _ _) as [ws' raised]. simpl in *.
    by subst raised. }
  assert (filter (in_batch batch_start)
            (scored (score_all create json_loads news_list))
          = refs_of batch_start ws ++ seq batch_start (length batch)) as Hrefs.
  { rewrite score_all_filter by done. fold batch. rewrite Hws.
    unfold refs_of. rewrite fmap_app. f_equal. apply refs_of_fallback. }
  split.
  { rewrite Hrefs, apply_writes_scored. done. }
  apply Forall_forall. intros r Hr.
  apply list_elem_of_filter in Hr as [Hin Hr].
  assert (r < length news_list) as Hlt.
  { pose proof (scored_in_range create json_loads news_list) as Hall.
    rewrite Forall_forall in Hall. by apply Hall. }
  rewrite (store_batch_item batch_start) by (by rewrite ?score_all_length).
  rewrite score_all_items by done. fold batch.
  rewrite Hws, alter_all_app.
  rewrite <-(alter_all_length ws batch) at 1. rewrite alter_all_fallback.
  assert (r - batch_start < length (alter_all ws batch)) as Hi.
  { rewrite alter_all_length, Hlen. cbn [store]. destruct Hin. 
    unfold BATCH_SIZE in *. lia. }
  destruct (lookup_lt_is_Some_2 _ _ Hi) as [it Hit].
  erewrite list_lookup_total_correct; [|by rewrite list_lookup_fmap, Hit].
  done.
Qed.
End raising.

Lemma tier1_filter_selects_inputs_witness :
  Samples.two_items_top
  ⊆+ scored_news Samples.answer_both Json.loads_py Samples.two_items
  ∧ Forall (λ it, is_Some (score it)
                  ∧ ∃ orig, orig ∈ Samples.two_items
                            ∧ fetched_fields it = fetched_fields orig)
      Samples.two_items_top.
Proof.
  apply (tier1_filter_selects_inputs Samples.answer_both Json.loads_py
           Samples.two_items Samples.two_items_top).
  vm_compute. reflexivity.
Defined.

Lemma outage_keeps_first_items_witness :
  scored_news Scenarios.no_answer Json.loads_py Samples.many_items
  = set_score (PInt 50) <$> Samples.many_items
  ∧ tier1_filter Scenarios.no_answer Json.loads_py Samples.many_items
    = Some (take (3 `max` (length Samples.many_items / 20))
              (set_score (PInt 50) <$> Samples.many_items)).
Proof.
  apply (outage_keeps_first_items Scenarios.no_answer Json.loads_py
           Samples.many_items).
  intros batch_start batch. left. reflexivity.
Defined.

Lemma raising_answer_falls_back_witness :
  let final := score_all Samples.answer_no_id Json.loads_py Samples.two_items in
  filter (in_batch 0) (scored final) = [0; 0; 1]
  ∧ Forall (λ r, score (store final !!! r) = Some (PInt 50))
      (filter (in_batch 0) (scored final)).
Proof.
  cbv zeta.
  edestruct (raising_answer_falls_back Samples.answer_no_id Json.loads_py
               Samples.two_items 0) as [Hrefs Hall].
  - apply list_elem_of_here.
  - reflexivity.
  - reflexivity.
  - reflexivity.
  - reflexivity.
  - reflexivity.
  - split; [|exact Hall]. rewrite Hrefs. reflexivity.
Defined.

End ScoringInvariants.

(** ** The span of an answer *)

Module SpanFacts.
Import Py.

Lemma chars_app (a b : string) :
  list_ascii_of_string (a +:+ b) = list_ascii_of_string a ++ list_ascii_of_string b.
Proof.
  induction a as [|c a IH]; [done|].
  change (String c a +:+ b) with (String c (a +:+ b)). simpl. by rewrite IH.
Qed.

Lemma from_first_open_None (s : string) :
  from_first_open s = None → open_brace ∉ list_ascii_of_string s.
Proof.
  induction s as [|c s IH]; simpl; [intros _; apply not_elem_of_nil|].
  case_decide as Hc; [done|]. intros Hs%IH. rewrite not_elem_of_cons. done.
Qed.

Lemma from_first_open_Some (s t : string) :
  from_first_open s = Some t →
  ∃ pre rest, s = pre +:+ t ∧ t = String open_brace rest
              ∧ (open_brace ∉ list_ascii_of_string pre).
Proof.
  induction s as [|c s IH]; simpl; [done|].
  case_decide as Hc.
  - intros [= <-]. exists EmptyString, s. subst c.
    split; [done|]. split; [done|]. apply not_elem_of_nil.
  - intros (pre & rest & -> & -> & Hpre)%IH.
    exists (String c pre), rest. split; [done|]. split; [done|].
    simpl. rewrite not_elem_of_cons. done.
Qed.

Lemma upto_last_close_None (s : string) :
  upto_last_close s = None → close_brace ∉ list_ascii_of_string s.
Proof.
  induction s as [|c s IH]; simpl; [intros _; apply not_elem_of_nil|].
  destruct (upto_last_close s); [done|]. case_decide; [done|].
  intros _. rewrite not_elem_of_cons. auto.
Qed.

Lemma upto_last_close_Some (s p : string) :
  upto_last_close s = Some p →
  ∃ body post, p = body +:+ String close_brace EmptyString ∧ s = p +:+ post
               ∧ (close_brace ∉ list_ascii_of_string post).
Proof.
  revert p. induction s as [|c s IH]; intros p; simpl; [done|].
  destruct (upto_last_close s) as [p'|] eqn:Hs.
  - intros [= <-]. destruct (IH p' eq_refl) as (body & post & -> & -> & Hpost).
    exists (String c body), post. done.
  - case_decide as Hc; [|done]. intros [= <-]. subst c.
    exists EmptyString, s. split; [done|]. split; [done|].
    by apply upto_last_close_None.
Qed.

Lemma first_open_suffix (pre t pre' rest : string) :
  pre +:+ t = pre' +:+ String open_brace rest →
  open_brace ∉ list_ascii_of_string pre →
  (∃ r, t = String open_brace r) →
  ∃ x, t = x +:+ String open_brace rest.
Proof.
  revert pre'. induction pre as [|c pre IH]; intros pre' Heq Hpre Ht.
  { exists pre'. done. }
  simpl in Hpre. apply not_elem_of_cons in Hpre as [Hc Hpre].
  destruct pre' as [|c' pre'].
  - change (String c (pre +:+ t) = String open_brace rest) in Heq.
    congruence.
  - change (String c (pre +:+ t) = String c' (pre' +:+ String open_brace rest))
      in Heq.
    injection Heq as _ Heq. by eapply IH.
Qed.

Lemma upto_last_close_no_close (s : string) :
  close_brace ∉ list_ascii_of_string s → upto_last_close s = None.
Proof.
  induction s as [|c s IH]; [done|]. cbn [upto_last_close list_ascii_of_string].
  intros [Hc Hs]%not_elem_of_cons. rewrite IH by done.
  by rewrite decide_False.
Qed.

Lemma upto_last_close_found (p post : string) :
  close_brace ∉ list_ascii_of_string post →
  upto_last_close (p +:+ String close_brace post)
  = Some (p +:+ String close_brace EmptyString).
Proof.
  intros Hpost. induction p as [|c p IH].
  - change (EmptyString +:+ ?s) with s. cbn [upto_last_close].
    rewrite upto_last_close_no_close by done. by rewrite decide_True.
  - change (String c p +:+ ?s) with (String c (p +:+ s)).
    cbn [upto_last_close]. by rewrite IH.
Qed.

Lemma from_first_open_found (pre rest : string) :
  open_brace ∉ list_ascii_of_string pre →
  from_first_open (pre +:+ String open_brace rest) = Some (String open_brace rest).
Proof.
  induction pre as [|c pre IH]; intros Hpre.
  - change (EmptyString +:+ ?s) with s. cbn [from_first_open].
    by rewrite decide_True.
  - change (String c pre +:+ ?s) with (String c (pre +:+ s)).
    simpl in Hpre. apply not_elem_of_cons in Hpre as [Hc Hpre].
    cbn [from_first_open]. rewrite decide_False by done. by apply IH.
Qed.

Lemma json_span_found (pre body post : string) :
  open_brace ∉ list_ascii_of_string pre →
  close_brace ∉ list_ascii_of_string post →
  json_span (pre +:+ String open_brace (body +:+ String close_brace post))
  = Some (String open_brace (body +:+ String close_brace EmptyString)).
Proof.
  intros Hpre Hpost. unfold json_span. rewrite from_first_open_found by done.
  simpl. apply (upto_last_close_found (String open_brace body) post Hpost).
Qed.

(** X6. The match of [re.search(r"\{.*\}", text, re.DOTALL)]: when there
    is one, it starts at the first open brace of the text and ends at the
    last close brace; there is none exactly when no close brace follows
    an open brace. So an object with text around it is found as it is
    when the text before it has no open brace and the text after it no
    close brace. *)
Theorem json_span_spec (s : string) :
  match json_span s with
  | Some span =>
      ∃ pre body post,
        s = (pre +:+ span +:+ post)
        ∧ span = String open_brace (body +:+ String close_brace EmptyString)
        ∧ (open_brace ∉ list_ascii_of_string pre)
        ∧ (close_brace ∉ list_ascii_of_string post)
  | None =>
      ∀ pre body post,
        s ≠ (pre +:+ String open_brace (body +:+ String close_brace post))
  end
  ∧ ∀ pre body post,
      s = (pre +:+ String open_brace (body +:+ String close_brace post)) →
      open_brace ∉ list_ascii_of_string pre →
      close_brace ∉ list_ascii_of_string post →
      json_span s
      = Some (String open_brace (body +:+ String close_brace EmptyString)).
Proof.
  split; [|intros pre body post -> Hpre Hpost; by apply json_span_found].
  unfold json_span. destruct (from_first_open s) as [t|] eqn:Ht; simpl.
  - apply from_first_open_Some in Ht as (pre & rest & -> & -> & Hpre).
    destruct (upto_last_close (String open_brace rest)) as [p|] eqn:Hp.
    + apply upto_last_close_Some in Hp as (body & post & -> & Heq & Hpost).
      destruct body as [|c body].
      { simpl in Heq. discriminate. }
      change (String open_brace rest
              = String c ((body +:+ String close_brace EmptyString) +:+ post))
        in Heq.
      injection Heq as <- ->.
      exists pre, body, post. done.
    + intros pre' body post Heq.
      apply upto_last_close_None in Hp.
      destruct (first_open_suffix _ _ _ _ Heq Hpre) as [x Hx]; [by eexists|].
      apply Hp. rewrite Hx, chars_app. simpl.
      rewrite chars_app. simpl.
      rewrite elem_of_app, elem_of_cons, elem_of_app, elem_of_cons. tauto.
  - intros pre body post ->. apply from_first_open_None in Ht.
    apply Ht. rewrite chars_app. simpl. rewrite elem_of_app, elem_of_cons. tauto.
Qed.

End SpanFacts.

(** ** The schedule: nesting of the report types *)

Module ScheduleOrder.
Import Py Schedule ScheduleFacts.

(** X7. The due report types are nested: an annual report comes with a
    semi-annual one, a semi-annual with a quarterly, a quarterly with a
    monthly. No report type is due twice, and between one and six are due,
    also when the date is read from the clock. *)
Theorem report_types_nested (utcnow : datetime) (now : option datetime) :
  let r := determine_report_types utcnow now in
  ("annual" ∈ r → "semi_annual" ∈ r)
  ∧ ("semi_annual" ∈ r → "quarterly" ∈ r)
  ∧ ("quarterly" ∈ r → "monthly" ∈ r)
  ∧ NoDup r
  ∧ 1 ≤ length r ≤ 6.
Proof.
  cbv zeta.
  assert (∀ m : Z, m = 1%Z → month_in m [1; 7]%Z = true) as H1.
  { intros m ->. done. }
  assert (∀ m : Z, month_in m [1; 7]%Z = true → month_in m [1; 4; 7; 10]%Z = true)
    as H2.
  { intros m. unfold month_in. rewrite !bool_decide_eq_true, !elem_of_cons.
    tauto. }
  split; [|split; [|split; [|split]]].
  - unfold determine_report_types.
    rewrite !elem_of_append_if, list_elem_of_singleton, !andb_true_iff,
      !bool_decide_eq_true.
    intros [H|[[Hm Hd] _]]; [by intuition congruence|].
    left. right. split; [|done]. split; [by apply H1|done].
  - unfold determine_report_types.
    rewrite !elem_of_append_if, list_elem_of_singleton, !andb_true_iff,
      !bool_decide_eq_true.
    intros [[H|[[Hm Hd] _]]|[_ ?]]; [by intuition congruence| |done].
    left. left. right. split; [|done]. split; [by apply H2|done].
  - unfold determine_report_types.
    rewrite !elem_of_append_if, list_elem_of_singleton, !andb_true_iff,
      !bool_decide_eq_true.
    intros [[[H|[[Hm Hd] _]]|[_ ?]]|[_ ?]]; [by intuition congruence| |done..].
    left. left. left. right. done.
  - apply determine_report_types_NoDup.
  - split.
    + unfold determine_report_types, append_if.
      repeat match goal with |- context [if ?c then _ else _] => destruct c end;
        rewrite ?length_app; simpl; lia.
    + apply (sublist_length _ _ (determine_report_types_sublist utcnow now)).
Qed.

Lemma toordinal_next (y m d k : Z) :
  toordinal (mk_datetime y m (d + k)) = (toordinal (mk_datetime y m d) + k)%Z.
Proof. unfold toordinal. simpl. lia. Qed.

(** X26. The weekly report recurs with the week: two dates seven days
    apart (by their ordinals, also across months and years) are both due
    for it or both not, no two dates less than seven days apart are both
    due, and of seven days in a row within a month one is due. *)
Theorem weekly_every_seven_days (utcnow d1 d2 : datetime) :
  let weekly d := "weekly" ∈ determine_report_types utcnow (Some d) in
  (toordinal d2 = (toordinal d1 + 7)%Z → weekly d1 ↔ weekly d2)
  ∧ ((0 < toordinal d2 - toordinal d1 < 7)%Z → weekly d1 → ¬ weekly d2)
  ∧ ((1 ≤ day d1 ≤ 22)%Z →
     ∃ k, (0 ≤ k < 7)%Z
          ∧ weekly (mk_datetime (year d1) (month d1) (day d1 + k))).
Proof.
  cbv zeta.
  assert (∀ d, "weekly" ∈ determine_report_types utcnow (Some d)
               ↔ weekday d = 5%Z) as Hweekly.
  { intros d. unfold determine_report_types.
    rewrite !elem_of_append_if, list_elem_of_singleton, !andb_true_iff,
      !bool_decide_eq_true.
    intuition congruence. }
  rewrite !Hweekly. unfold weekday. split; [|split].
  - intros ->. replace (toordinal d1 + 7 + 6)%Z with (toordinal d1 + 6 + 1 * 7)%Z
      by lia.
    by rewrite Z.mod_add.
  - intros Hgap H1 H2.
    pose proof (Z.div_mod (toordinal d1 + 6) 7) as E1.
    pose proof (Z.div_mod (toordinal d2 + 6) 7) as E2. lia.
  - intros _. destruct d1 as [y m d]. cbn [year month day].
    set (d1 := mk_datetime y m d).
    exists ((5 - (toordinal d1 + 6)) mod 7)%Z.
    split; [apply Z.mod_pos_bound; lia|].
    rewrite Hweekly. unfold weekday. rewrite toordinal_next. fold d1.
    pose proof (Z.div_mod (5 - (toordinal d1 + 6)) 7) as E1.
    pose proof (Z.mod_pos_bound (5 - (toordinal d1 + 6)) 7) as B1.
    set (q := ((5 - (toordinal d1 + 6)) / 7)%Z) in *.
    set (r := ((5 - (toordinal d1 + 6)) mod 7)%Z) in *.
    replace (toordinal d1 + r + 6)%Z with (5 + (- q) * 7)%Z by lia.
    by rewrite Z.mod_add.
Qed.

End ScheduleOrder.

(** ** The history store: how a saved summary reaches a context *)

Module HistoryFlow.
Import Py History HistoryFacts.

(** X8. [save_report_summary] leaves the sequences of all other report
    types as they were, whether or not the summary request succeeds. In
    the sequence of its own report type it puts a new entry last, after a
    suffix of the entries that were there: the entry holds the clock label
    and the returned text when the request succeeds, and the clock label
    and the sentinel text when it fails. *)
Theorem save_report_summary_appends (summarize : string → option string)
    (utcnow_label report_type report_body : string) (history : Store) :
  let after :=
    save_report_summary summarize utcnow_label report_type report_body history in
  (∀ other, other ≠ report_type → after !! other = history !! other)
  ∧ (∀ text,
       summarize report_body = Some text →
       ∃ kept,
         after !! report_type
         = Some (kept ++ [ {[ "date" := utcnow_label; "summary" := text ]} ])
         ∧ kept `suffix_of` default [] (history !! report_type))
  ∧ (summarize report_body = None →
     ∃ kept,
       after !! report_type
       = Some (kept ++ [ {[ "date" := utcnow_label;
                            "summary" := "요약 생성 실패" ]} ])
       ∧ kept `suffix_of` default [] (history !! report_type)).
Proof.
  cbv zeta. split; [intros other Hne; by apply save_report_summary_other|].
  destruct (save_report_summary_entry summarize utcnow_label report_type
              report_body history) as (kept & Heq & Hsuffix).
  split.
  - intros text Hsum. rewrite Hsum in Heq. by exists kept.
  - intros Hsum. rewrite Hsum in Heq. by exists kept.
Qed.

(** The rows of the context table. *)
Lemma context_map_row (report_type source_type : string) (count : nat) :
  context_map !! report_type = Some (source_type, count) →
  (report_type, source_type, count)
  ∈ [ ("weekly", "daily", 7); ("monthly", "weekly", 4);
      ("quarterly", "monthly", 3); ("semi_annual", "quarterly", 2);
      ("annual", "semi_annual", 2) ].
Proof.
  intros Hrow%elem_of_map_to_list.
  replace (map_to_list context_map)
    with [ ("weekly", ("daily", 7)); ("semi_annual", ("quarterly", 2));
           ("monthly", ("weekly", 4)); ("quarterly", ("monthly", 3));
           ("annual", ("semi_annual", 2)) ] in Hrow
    by (vm_compute; reflexivity).
  repeat (apply elem_of_cons in Hrow as [[= -> -> ->]|Hrow];
          [rewrite !elem_of_cons; tauto|]).
  by apply elem_of_nil in Hrow.
Qed.

(** Every row of the context table asks for at least one entry, and for
    no more entries than the store keeps of the source type. *)
Lemma context_map_rows (report_type source_type : string) (count : nat) :
  context_map !! report_type = Some (source_type, count) →
  0 < count ≤ max_entries source_type.
Proof.
  intros Hrow%context_map_row.
  repeat (apply elem_of_cons in Hrow as [[= -> -> ->]|Hrow];
          [vm_compute; lia|]).
  by apply elem_of_nil in Hrow.
Qed.

Lemma context_header_not_empty (n : nat) (source_type : string) (rest : string) :
  context_header n source_type +:+ rest ≠ EmptyString.
Proof. done. Qed.

Lemma join_app (ls1 ls2 : list string) : join (ls1 ++ ls2) = join ls1 +:+ join ls2.
Proof.
  induction ls1 as [|l ls1 IH]; [done|].
  unfold join in *. cbn [app foldr]. by rewrite IH, string_app_assoc.
Qed.

(** The line of the entry that a call writes. *)
Lemma context_line_new_entry (summarize : string → option string)
    (utcnow_label report_body : string) :
  context_line (new_entry summarize utcnow_label report_body)
  = "- " +:+ utcnow_label +:+ ": "
    +:+ match summarize report_body with
        | Some text => text
        | None => "요약 생성 실패"
        end
    +:+ String (ascii_of_nat 10) EmptyString.
Proof.
  unfold context_line, new_entry.
  rewrite lookup_insert_eq, lookup_insert_ne, lookup_singleton_eq by done.
  by destruct (summarize report_body).
Qed.

(** The context built from a sequence whose last entry is [entry]. *)
Lemma context_after_append (report_type source_type : string) (count : nat)
    (history : Store) (stored : list Entry) (entry : Entry) :
  context_map !! report_type = Some (source_type, count) →
  history !! source_type
  = Some (slice_last (max_entries source_type) (stored ++ [entry])) →
  ∃ (shown : nat) (older : string),
    1 ≤ shown ≤ count
    ∧ get_accumulated_context report_type history
      = context_header shown source_type +:+ older +:+ context_line entry.
Proof.
  intros Hrow Hstored.
  destruct (context_map_rows _ _ _ Hrow) as [Hpos _].
  rewrite (get_accumulated_context_mapped _ _ _ _ Hrow Hpos). cbv zeta.
  rewrite Hstored. simpl (default _ (Some _)).
  destruct (slice_last_snoc (max_entries source_type) stored entry)
    as (kept & -> & _); [apply max_entries_pos|].
  rewrite length_app. cbn [length].
  rewrite drop_app_le by lia.
  set (shown := drop (length kept + 1 - count) kept).
  assert (length shown + 1 ≤ count) as Hshown_len.
  { subst shown. rewrite length_drop. lia. }
  destruct (shown ++ [entry]) as [|e es] eqn:Hshown.
  { by destruct shown. }
  rewrite <-Hshown. rewrite fmap_app, length_app.
  exists (length shown + 1), (join (context_line <$> shown)).
  split; [cbn [length]; lia|].
  rewrite join_app. f_equal. f_equal.
  unfold join. cbn [fmap list_fmap foldr]. by rewrite string_app_empty_r.
Qed.

(** X9. [save_report_summary] for the source type of a report type feeds
    [get_accumulated_context]: the context of the report type is then the
    header line for at least one and at most [count] entries of the source
    type, some older lines, and last the line of the entry just written:
    a dash, the clock label, a colon, and the summary (the sentinel text
    when the summary request failed). A call for any other type leaves
    that context as it was. *)
Theorem saved_summary_reaches_context (summarize : string → option string)
    (utcnow_label report_body report_type source_type : string) (count : nat)
    (history : Store) :
  context_map !! report_type = Some (source_type, count) →
  let line_end := String (ascii_of_nat 10) EmptyString in
  let summary :=
    match summarize report_body with
    | Some text => text
    | None => "요약 생성 실패"
    end in
  let after :=
    save_report_summary summarize utcnow_label source_type report_body history in
  (∃ (shown : nat) (older : string),
     1 ≤ shown ≤ count
     ∧ get_accumulated_context report_type after
       = ("[최근 " +:+ pretty shown +:+ "건의 " +:+ source_type
          +:+ " 리포트 요약]" +:+ line_end)
         +:+ older
         +:+ ("- " +:+ utcnow_label +:+ ": " +:+ summary +:+ line_end))
  ∧ ∀ other,
      other ≠ source_type →
      get_accumulated_context report_type
        (save_report_summary summarize utcnow_label other report_body history)
      = get_accumulated_context report_type history.
Proof.
  intros Hrow. cbv zeta. split.
  - rewrite <-context_line_new_entry.
    eapply context_after_append; [exact Hrow|].
    apply save_report_summary_lookup.
  - intros other Hne. unfold get_accumulated_context. rewrite Hrow.
    by rewrite save_report_summary_other.
Qed.

Lemma drop_suffix_last {A} (n : nat) (l1 l2 : list A) :
  l1 `suffix_of` l2 → n ≤ length l1 →
  drop (length l1 - n) l1 = drop (length l2 - n) l2.
Proof.
  intros [k ->] Hn. rewrite length_app.
  rewrite drop_app_ge by lia. f_equal. lia.
Qed.

(** The sequence of a report type after a run of calls for that type. *)
Lemma save_all_lookup (summarize : string → option string) (source_type : string)
    (reports : list (string * string)) (history : Store) :
  let entries := (λ r, new_entry summarize r.2 r.1) <$> reports in
  let stored :=
    default [] (save_all summarize ((λ r, (source_type, r.1, r.2)) <$> reports)
                  history !! source_type) in
  stored `suffix_of` (default [] (history !! source_type) ++ entries)
  ∧ length entries `min` max_entries source_type ≤ length stored.
Proof.
  cbv zeta. induction reports as [|r reports IH] using rev_ind.
  { simpl. split; [by rewrite app_nil_r|lia]. }
  destruct IH as [Hsuffix Hlen].
  rewrite !fmap_app. unfold save_all in *. rewrite foldl_app. cbn [fmap list_fmap foldl].
  cbn [fst snd]. rewrite save_report_summary_lookup. simpl (default _ (Some _)).
  pose proof (max_entries_pos source_type) as Hpos.
  split.
  - rewrite slice_last_drop by done. rewrite app_assoc.
    etrans; [apply suffix_drop|]. by apply suffix_app.
  - rewrite slice_last_length by done. rewrite !length_app in *. simpl. lia.
Qed.

(** X10. The retention limit of a source type is never below the count
    that the context table asks of it. So after at least [count] calls of
    [save_report_summary] for the source type, whatever the store held
    before, the context of the dependent report type is the header line
    for [count] entries of the source type followed by one line per call
    of the last [count] calls, in call order: a dash, the clock label of
    the call, a colon, and its summary (the sentinel text when the summary
    request failed). *)
Theorem context_window_filled (summarize : string → option string)
    (report_type source_type : string) (count : nat) :
  context_map !! report_type = Some (source_type, count) →
  let line_end := String (ascii_of_nat 10) EmptyString in
  0 < count ≤ max_entries source_type
  ∧ ∀ (reports : list (string * string)) (history : Store),
      count ≤ length reports →
      let calls := (λ r, (source_type, r.1, r.2)) <$> reports in
      get_accumulated_context report_type (save_all summarize calls history)
      = ("[최근 " +:+ pretty count +:+ "건의 " +:+ source_type
         +:+ " 리포트 요약]" +:+ line_end)
        +:+ foldr (λ (r : string * string) rest,
                     ("- " +:+ r.2 +:+ ": "
                      +:+ match summarize r.1 with
                          | Some text => text
                          | None => "요약 생성 실패"
                          end
                      +:+ line_end)
                     +:+ rest)
              EmptyString (drop (length reports - count) reports).
Proof.
  intros Hrow.
  destruct (context_map_rows _ _ _ Hrow) as [Hpos Hmax].
  cbv zeta. split; [done|]. intros reports history Hcount.
  rewrite (get_accumulated_context_mapped _ _ _ _ Hrow Hpos). cbv zeta.
  destruct (save_all_lookup summarize source_type reports history)
    as [Hsuffix Hlen].
  rewrite length_fmap in Hlen.
  rewrite (drop_suffix_last count _ _ Hsuffix) by lia.
  rewrite length_app, length_fmap.
  rewrite drop_app_ge by lia.
  replace (length (default [] (history !! source_type)) + length reports
           - count - length (default [] (history !! source_type)))
    with (length reports - count) by lia.
  rewrite <-fmap_drop.
  set (shown := drop (length reports - count) reports).
  assert (length shown = count) as Hshown.
  { subst shown. rewrite length_drop. lia. }
  destruct (_ <$> shown) as [|e es] eqn:Hes.
  { apply (f_equal length) in Hes. rewrite length_fmap in Hes. simpl in Hes. lia. }
  rewrite <-Hes. rewrite length_fmap, Hshown.
  rewrite <-list_fmap_compose, join_fmap_foldr.
  reflexivity.
Qed.

Lemma saved_summary_reaches_context_witness :
  ∃ (shown : nat) (older : string),
    1 ≤ shown ≤ 7
    ∧ get_accumulated_context "weekly"
        (save_report_summary Scenarios.short_summary "2025-11-01 07:00 UTC"
           "daily" "<p>body</p>" Samples.sample_store)
      = ("[최근 " +:+ pretty shown +:+ "건의 daily 리포트 요약]"
         +:+ String (ascii_of_nat 10) EmptyString)
        +:+ older
        +:+ ("- 2025-11-01 07:00 UTC: three sentences"
             +:+ String (ascii_of_nat 10) EmptyString).
Proof.
  apply (saved_summary_reaches_context Scenarios.short_summary
           "2025-11-01 07:00 UTC" "<p>body</p>" "weekly" "daily" 7
           Samples.sample_store).
  reflexivity.
Defined.

Lemma context_window_filled_witness :
  0 < 2 ≤ max_entries "quarterly"
  ∧ get_accumulated_context "semi_annual"
      (save_all Scenarios.short_summary
         ((λ r : string * string, ("quarterly", r.1, r.2))
            <$> Scenarios.two_reports)
         Samples.sample_store)
    = "[최근 2건의 quarterly 리포트 요약]"
      +:+ String (ascii_of_nat 10) EmptyString
      +:+ "- 2025-04-01 07:00 UTC: three sentences"
      +:+ String (ascii_of_nat 10) EmptyString
      +:+ "- 2025-07-01 07:00 UTC: three sentences"
      +:+ String (ascii_of_nat 10) EmptyString.
Proof.
  destruct (context_window_filled Scenarios.short_summary "semi_annual"
              "quarterly" 2) as [Hlimit Hfilled].
  - reflexivity.
  - split; [exact Hlimit|].
    etrans; [apply (Hfilled Scenarios.two_reports Samples.sample_store);
             simpl; lia|].
    vm_compute. reflexivity.
Defined.

End HistoryFlow.

(** ** The run: its log and what it leaves *)

Module RunFacts.
Import Py Tier1 History Pipeline Notions HistoryFacts HistoryFlow PipelineFacts.

Lemma context_same_source (report_type : string) (history history' : Store) :
  (∀ source_type count,
     context_map !! report_type = Some (source_type, count) →
     history' !! source_type = history !! source_type) →
  get_accumulated_context report_type history'
  = get_accumulated_context report_type history.
Proof.
  intros Hsame. unfold get_accumulated_context.
  destruct (context_map !! report_type) as [[source_type count]|]; [|done].
  by rewrite (Hsame source_type count).
Qed.

Lemma stands_before_split (x y : string) (l : list string) :
  stands_before x y l = true → ∃ pre mid post, l = pre ++ x :: mid ++ y :: post.
Proof.
  induction l as [|z l IH]; simpl; [done|]. case_decide as Hz.
  - intros Hy%bool_decide_eq_true. subst z.
    apply list_elem_of_split in Hy as (mid & post & ->). by exists [], mid, post.
  - intros (pre & mid & post & ->)%IH. by exists (z :: pre), mid, post.
Qed.

(** X11. The loop of [main] takes the report types in an order in which
    the source type of a context comes before the report type that reads
    it: when both are due, the source type stands earlier in the list. *)
Theorem source_before_dependent (utcnow : Schedule.datetime)
    (now : option Schedule.datetime) (report_type source_type : string)
    (count : nat) :
  context_map !! report_type = Some (source_type, count) →
  let due := Schedule.determine_report_types utcnow now in
  source_type ∈ due → report_type ∈ due →
  ∃ pre mid post, due = pre ++ source_type :: mid ++ report_type :: post.
Proof.
  intros Hrow%context_map_row. cbv zeta. intros Hsrc Hrt.
  apply stands_before_split.
  assert (bool_decide (source_type ∈ Schedule.determine_report_types utcnow now)
          = true) as Hs by by apply bool_decide_eq_true_2.
  assert (bool_decide (report_type ∈ Schedule.determine_report_types utcnow now)
          = true) as Hr by by apply bool_decide_eq_true_2.
  clear Hsrc Hrt. revert Hs Hr.
  unfold Schedule.determine_report_types, Schedule.append_if.
  repeat match goal with |- context [if ?c then _ else _] => destruct c end;
    cbn [app];
    repeat (apply elem_of_cons in Hrow as [[= -> -> ->]|Hrow];
            [vm_compute; congruence|]);
    by apply elem_of_nil in Hrow.
Qed.

Section loop_facts.
Variable nfkc : string → string.
Variable strip : string → string.
Variable create : nat → list Item → option string.
Variable json_loads : string → option pyval.
Variable analysis : string → list Item → string → string + string * string.
Variable summarize : string → option string.
Variable utcnow_label : string → string.
Variable items_of : ∀ A : Type, gmap string A → list (string * A).

Local Abbreviation tier2_analyze := (tier2_analyze nfkc strip analysis).
Local Abbreviation run_report :=
  (run_report nfkc strip analysis summarize utcnow_label).
Local Abbreviation main :=
  (main nfkc strip create json_loads analysis summarize utcnow_label items_of).

Lemma main_completed (cfg : config) (utcnow : Schedule.datetime)
    (file : option string) (fetched : list Item) (log : list event)
    (text : string) :
  main cfg utcnow file fetched = Completed log text →
  ∃ history0 top_news,
    load_history file = Some history0
    ∧ tier1_filter create json_loads fetched = Some top_news
    ∧ top_news ≠ []
    ∧ let st := foldl (run_report top_news) (history0, [])
                  (Schedule.determine_report_types utcnow None) in
      log = st.2 ++ [SaveHistory st.1] ∧ text = save_history items_of st.1.
Proof.
  unfold Pipeline.main. intros Hmain.
  case_decide; [done|]. case_decide; [done|].
  destruct (load_history file) as [history0|]; [|done].
  destruct fetched as [|item fetched]; [done|].
  destruct (tier1_filter _ _ _) as [[|top top_news]|]; [done| |done].
  injection Hmain as <- <-. by eexists _, _.
Qed.

Lemma loop_store (top_news : list Item) (report_types : list string)
    (st : Store * list event) (report_type : string) :
  NoDup report_types →
  let final := foldl (run_report top_news) st report_types in
  final.1 !! report_type = st.1 !! report_type
  ∨ (report_type ∈ report_types
     ∧ ∃ report_body,
         SaveSummary report_type report_body ∈ final.2
         ∧ final.1 !! report_type
           = Some (slice_last (max_entries report_type)
                     (default [] (st.1 !! report_type)
                        ++ [new_entry summarize (utcnow_label report_type)
                              report_body]))).
Proof.
  cbv zeta. revert st.
  induction report_types as [|rt rts IH]; intros st Hnd; [by left|].
  apply NoDup_cons in Hnd as [Hrt Hnd]. cbn [foldl].
  destruct (decide (report_type = rt)) as [->|Hne].
  - rewrite loop_other by done.
    destruct (report_ok (tier2_analyze top_news rt
                           (get_accumulated_context rt st.1))) eqn:Hok.
    + right. split; [left|]. eexists. split.
      * destruct (loop_log nfkc strip analysis summarize utcnow_label top_news
                    rts (run_report top_news st rt)) as (new & -> & _).
        rewrite run_report_done by done. cbn [snd].
        rewrite !elem_of_app, !elem_of_cons. tauto.
      * rewrite run_report_done by done. cbn [fst].
        apply save_report_summary_lookup.
    + left. by rewrite run_report_skip.
  - destruct (IH (run_report top_news st rt) Hnd) as [Hsame|(Hin & body & Hev & Hnew)].
    + left. by rewrite Hsame, run_report_other.
    + right. split; [by right|]. exists body. split; [done|].
      by rewrite Hnew, run_report_other.
Qed.

Lemma loop_accepted (top_news : list Item) (report_types : list string)
    (st : Store * list event) :
  ∃ accepted : list (string * string),
    (foldl (run_report top_news) st report_types).2
    = st.2 ++ (accepted ≫= accepted_events)
    ∧ accepted.*1 `sublist_of` report_types
    ∧ Forall (λ a, report_ok a.2 = true) accepted.
Proof.
  revert st. induction report_types as [|rt rts IH]; intros st.
  { exists []. by rewrite app_nil_r. }
  cbn [foldl].
  destruct (IH (run_report top_news st rt)) as (acc & Hlog & Hsub & Hok).
  destruct (report_ok (tier2_analyze top_news rt
                         (get_accumulated_context rt st.1))) eqn:Hbody.
  - eexists ((rt, _) :: acc). split; [|split].
    + rewrite Hlog. rewrite run_report_done by done. cbn [snd].
      by rewrite <-app_assoc.
    + rewrite fmap_cons. by apply sublist_skip.
    + constructor; [exact Hbody|exact Hok].
  - exists acc. rewrite run_report_skip in Hlog |- * by done.
    split; [done|]. split; [by apply sublist_cons|done].
Qed.
(** X12. A run that completes changes the history only at the report
    types that are due, and each of them by at most one call of
    [save_report_summary]: the sequence of a report type in the saved
    history is the loaded one, or the loaded one with the entry of a
    summary that is in the log. *)
Theorem run_touches_due_types_only (cfg : config) (utcnow : Schedule.datetime)
    (file : option string) (fetched : list Item) (log : list event)
    (text : string) :
  main cfg utcnow file fetched = Completed log text →
  ∃ history0 history,
    load_history file = Some history0
    ∧ last log = Some (SaveHistory history)
    ∧ ∀ report_type,
        history !! report_type = history0 !! report_type
        ∨ (report_type ∈ Schedule.determine_report_types utcnow None
           ∧ ∃ report_body,
               SaveSummary report_type report_body ∈ log
               ∧ history !! report_type
                 = Some (slice_last (max_entries report_type)
                           (default [] (history0 !! report_type)
                              ++ [new_entry summarize (utcnow_label report_type)
                                    report_body]))).
Proof.
  intros (history0 & top_news & Hload & _ & _ & -> & _)%main_completed.
  eexists history0, _. split; [done|]. split; [apply last_snoc|].
  intros report_type.
  destruct (loop_store top_news
              (Schedule.determine_report_types utcnow None) (history0, [])
              report_type)
    as [Hsame|(Hin & body & Hev & Hnew)].
  - apply ScheduleFacts.determine_report_types_NoDup.
  - by left.
  - right. split; [done|]. exists body. split; [|done].
    apply elem_of_app. by left.
Qed.

(** X13. The log of a run that completes is, for some of the due report
    types in the order of the schedule and each at most once, the delivery
    of a report followed at once by its summary, and then the one
    [SaveHistory]. No delivered report is empty or holds the marker
    "분석 오류". *)
Theorem deliveries_follow_schedule (cfg : config) (utcnow : Schedule.datetime)
    (file : option string) (fetched : list Item) (log : list event)
    (text : string) :
  main cfg utcnow file fetched = Completed log text →
  ∃ (accepted : list (string * string)) history,
    log = (accepted ≫= accepted_events) ++ [SaveHistory history]
    ∧ accepted.*1 `sublist_of` Schedule.determine_report_types utcnow None
    ∧ NoDup accepted.*1
    ∧ Forall (λ a, a.2 ≠ EmptyString ∧ contains error_marker a.2 = false)
        accepted.
Proof.
  intros (history0 & top_news & _ & _ & _ & -> & _)%main_completed.
  destruct (loop_accepted top_news
              (Schedule.determine_report_types utcnow None) (history0, []))
    as (accepted & Hlog & Hsub & Hok).
  exists accepted. eexists. split; [by rewrite Hlog|]. split; [done|]. split.
  - eapply sublist_NoDup; [|exact Hsub].
    apply ScheduleFacts.determine_report_types_NoDup.
  - eapply Forall_impl; [exact Hok|]. intros a. unfold report_ok.
    rewrite andb_true_iff, bool_decide_eq_true, negb_true_iff. done.
Qed.

(** X14. Within one run, a report reads the summary that the run has just
    written: when the source type of a due report type is due as well and
    its report is accepted, the context that the loop builds for the
    report type is the header line for at least one and at most [count]
    entries of the source type, some older lines, and last the line of
    that new summary: a dash, the clock label, a colon, and the summary of
    the source report (the sentinel text when the summary request
    failed). *)
Theorem fresh_summary_in_context (top_news : list Item)
    (utcnow : Schedule.datetime) (now : option Schedule.datetime)
    (history0 : Store) (pre mid post : list string)
    (source_type report_type : string) (count : nat) :
  Schedule.determine_report_types utcnow now
  = pre ++ source_type :: mid ++ report_type :: post →
  context_map !! report_type = Some (source_type, count) →
  let before_source := foldl (run_report top_news) (history0, []) pre in
  let source_body :=
    tier2_analyze top_news source_type
      (get_accumulated_context source_type before_source.1) in
  source_body ≠ EmptyString →
  (∀ before after, source_body ≠ (before +:+ "분석 오류" +:+ after)) →
  let before :=
    foldl (run_report top_news) (history0, []) (pre ++ source_type :: mid) in
  let line_end := String (ascii_of_nat 10) EmptyString in
  let summary :=
    match summarize source_body with
    | Some text => text
    | None => "요약 생성 실패"
    end in
  ∃ (shown : nat) (older : string),
    1 ≤ shown ≤ count
    ∧ get_accumulated_context report_type before.1
      = ("[최근 " +:+ pretty shown +:+ "건의 " +:+ source_type
         +:+ " 리포트 요약]" +:+ line_end)
        +:+ older
        +:+ ("- " +:+ utcnow_label source_type +:+ ": " +:+ summary
             +:+ line_end).
Proof.
  intros Hdue Hrow. cbv zeta. intros Hfull Hclean.
  assert (report_ok
            (tier2_analyze top_news source_type
               (get_accumulated_context source_type
                  (foldl (run_report top_news) (history0, []) pre).1)) = true)
    as Hok by by apply report_ok_spec.
  pose proof (ScheduleFacts.determine_report_types_NoDup utcnow now) as Hnd.
  rewrite Hdue in Hnd. apply NoDup_app in Hnd as (_ & _ & Hnd).
  apply NoDup_cons in Hnd as [Hmid _].
  rewrite not_elem_of_app in Hmid. destruct Hmid as [Hmid _].
  rewrite foldl_app. cbn [foldl].
  rewrite <-context_line_new_entry.
  eapply context_after_append; [exact Hrow|].
  rewrite loop_other by done. rewrite run_report_done by done. cbn [fst].
  apply save_report_summary_lookup.
Qed.

Hypothesis items_of_all : ∀ A (m : gmap string A), items_of A m ≡ₚ map_to_list m.

(** X15. The history file that a completed run leaves is read back by
    [load_history] as the history that the run ended with, whatever the
    order in which the dicts were written: the next run starts from it. *)
Theorem history_file_reloads (cfg : config) (utcnow : Schedule.datetime)
    (file : option string) (fetched : list Item) (log : list event)
    (text : string) :
  main cfg utcnow file fetched = Completed log text →
  ∃ history,
    last log = Some (SaveHistory history)
    ∧ load_history (Some text) = Some history.
Proof.
  intros (history0 & top_news & _ & _ & _ & -> & ->)%main_completed.
  eexists. split; [apply last_snoc|].
  unfold load_history, save_history.
  rewrite JsonFacts.loads_dumps
    by by apply HistoryFileFacts.textual_encode_store.
  by apply HistoryFileFacts.decode_encode_store.
Qed.
End loop_facts.

Lemma source_before_dependent_witness :
  ∃ pre mid post,
    Schedule.determine_report_types Samples.saturday (Some Samples.saturday)
    = pre ++ "daily" :: mid ++ "weekly" :: post.
Proof.
  apply (source_before_dependent Samples.saturday (Some Samples.saturday)
           "weekly" "daily" 7).
  - reflexivity.
  - apply list_elem_of_here.
  - apply list_elem_of_further, list_elem_of_here.
Defined.

Lemma run_touches_due_types_only_witness :
  ∃ history0 history : Store,
    load_history None = Some history0
    ∧ history !! "annual" = history0 !! "annual".
Proof.
  edestruct (run_touches_due_types_only id id Samples.answer_both Json.loads_py
               Samples.sample_analysis Samples.no_summary Samples.sample_clock
               map_order Samples.sample_config Samples.saturday None
               Samples.two_items)
    as (history0 & history & Hload & _ & Hsame).
  - exact PipelineFacts.main_sample.
  - exists history0, history. split; [exact Hload|].
    destruct (Hsame "annual") as [Heq|[Hdue _]]; [exact Heq|].
    vm_compute in Hdue. exfalso.
    repeat (apply elem_of_cons in Hdue as [Hdue|Hdue]; [discriminate|]).
    by apply elem_of_nil in Hdue.
Defined.

Lemma deliveries_follow_schedule_witness :
  ∃ (accepted : list (string * string)) history,
    [ SendEmail "<h3>Weekly</h3>" "weekly";
      SaveSummary "weekly" "<h3>Weekly</h3>";
      SaveHistory (<["weekly" := [ {[ "date" := "2025-11-01 07:00 UTC";
                                      "summary" := "요약 생성 실패" ]} ]]>
                     empty_store) ]
    = (accepted ≫= accepted_events) ++ [SaveHistory history]
    ∧ accepted.*1 `sublist_of` Schedule.determine_report_types Samples.saturday None
    ∧ NoDup accepted.*1
    ∧ Forall (λ a, a.2 ≠ EmptyString ∧ contains error_marker a.2 = false)
        accepted.
Proof.
  eapply (deliveries_follow_schedule id id Samples.answer_both Json.loads_py
            Samples.sample_analysis Samples.no_summary Samples.sample_clock
            map_order Samples.sample_config Samples.saturday None
            Samples.two_items).
  exact PipelineFacts.main_sample.
Defined.

Lemma fresh_summary_in_context_witness :
  ∃ (shown : nat) (older : string),
    1 ≤ shown ≤ 7
    ∧ get_accumulated_context "weekly"
        (run_report id id Scenarios.steady_analysis Scenarios.short_summary
           Samples.sample_clock Samples.two_items_top (empty_store, []) "daily").1
      = ("[최근 " +:+ pretty shown +:+ "건의 daily 리포트 요약]"
         +:+ String (ascii_of_nat 10) EmptyString)
        +:+ older
        +:+ ("- 2025-11-01 07:00 UTC: three sentences"
             +:+ String (ascii_of_nat 10) EmptyString).
Proof.
  apply (fresh_summary_in_context id id Scenarios.steady_analysis
           Scenarios.short_summary Samples.sample_clock Samples.two_items_top
           Samples.saturday None empty_store [] [] ["monthly"] "daily" "weekly" 7).
  - reflexivity.
  - reflexivity.
  - vm_compute. discriminate.
  - refine (not_contains "분석 오류" _ _). vm_compute. reflexivity.
Defined.

Lemma history_file_reloads_witness :
  ∃ history,
    last [ SendEmail "<h3>Weekly</h3>" "weekly";
           SaveSummary "weekly" "<h3>Weekly</h3>";
           SaveHistory (<["weekly" := [ {[ "date" := "2025-11-01 07:00 UTC";
                                           "summary" := "요약 생성 실패" ]} ]]>
                          empty_store) ]
    = Some (SaveHistory history)
    ∧ load_history
        (Some (save_history map_order
                 (<["weekly" := [ {[ "date" := "2025-11-01 07:00 UTC";
                                     "summary" := "요약 생성 실패" ]} ]]>
                    empty_store)))
      = Some history.
Proof.
  eapply (history_file_reloads id id Samples.answer_both Json.loads_py
            Samples.sample_analysis Samples.no_summary Samples.sample_clock
            map_order).
  - intros A m. reflexivity.
  - exact PipelineFacts.main_sample.
Defined.

End RunFacts.

(** ** The cleaning of texts *)

Module TextFacts.
Import Py Text HistoryFacts.

Lemma app_String (c : ascii) (s t : string) : String c s +:+ t = String c (s +:+ t).
Proof. done. Qed.

Lemma app_Empty (t : string) : EmptyString +:+ t = t.
Proof. done. Qed.

Lemma app_eq_empty (s t : string) : s +:+ t = EmptyString → s = EmptyString ∧ t = EmptyString.
Proof. destruct s; [done|]. rewrite app_String. done. Qed.

(** The whitespace character at the head of a text is decided by the
    bytes of that character. *)
Lemma ws_len_prefix (p q : string) (n : nat) :
  ws_len p = S n → ws_len (p +:+ q) = S n.
Proof.
  destruct p as [|c1 [|c2 [|c3 p]]]; unfold ws_len; rewrite ?app_String, ?app_Empty;
    repeat case_match; try done.
Qed.

Lemma ws_len_prefix_0 (p q : string) : ws_len (p +:+ q) = 0 → ws_len p = 0.
Proof.
  intros H0. destruct (ws_len p) as [|n] eqn:Hp; [done|].
  by rewrite (ws_len_prefix _ _ _ Hp) in H0.
Qed.

Lemma ws_len_ascii (c : ascii) (r : string) :
  code c < 128 → ascii_space c = false → ws_len (String c r) = 0.
Proof.
  intros Hc Hsp. unfold ws_len. rewrite Hsp.
  destruct r as [|c2 [|c3 r]]; [done| |].
  - unfold space2. rewrite bool_decide_eq_false_2; [done|lia].
  - unfold space2, space3. rewrite !bool_decide_eq_false_2; [done|lia..].
Qed.

Lemma ws_len_head (c : ascii) (r : string) :
  ascii_space c = true → ws_len (String c r) = 1.
Proof. intros Hc. unfold ws_len. by rewrite Hc. Qed.

(** *** [strip] *)

Lemma lstrip_from_ws (skip : nat) (s : string) : ws_len (lstrip_from skip s) = 0.
Proof.
  revert skip. induction s as [|c s IH]; intros skip; [done|].
  cbn [lstrip_from]. destruct skip as [|k]; [|apply IH].
  destruct (ws_len (String c s)) as [|k] eqn:Hws; [done|apply IH].
Qed.

Lemma lstrip_from_suffix (skip : nat) (s : string) :
  ∃ pre, s = pre +:+ lstrip_from skip s.
Proof.
  revert skip. induction s as [|c s IH]; intros skip; [by exists EmptyString|].
  cbn [lstrip_from]. destruct skip as [|k].
  - destruct (ws_len (String c s)) as [|k]; [by exists EmptyString|].
    destruct (IH k) as [pre Hpre]. exists (String c pre).
    by rewrite app_String, <-Hpre.
  - destruct (IH k) as [pre Hpre]. exists (String c pre).
    by rewrite app_String, <-Hpre.
Qed.

Lemma rstrip_prefix (s : string) :
  ∃ t, s = rstrip s +:+ t ∧ all_ws_from 0 t = true.
Proof.
  induction s as [|c s (t & Ht & Hws)]; [by exists EmptyString|].
  cbn [rstrip]. destruct (all_ws_from 0 (String c s)) eqn:Hall.
  - by exists (String c s).
  - exists t. by rewrite app_String, <-Ht.
Qed.

(** One whitespace character before a text of whitespace. *)
Lemma all_ws_from_skip (w t : string) :
  all_ws_from (String.length w) (w +:+ t) = all_ws_from 0 t.
Proof. induction w as [|c w IH]; [done|]. rewrite app_String. simpl. apply IH. Qed.

Lemma all_ws_character (w t : string) :
  ws_len w = String.length w → w ≠ EmptyString →
  all_ws_from 0 (w +:+ t) = all_ws_from 0 t.
Proof.
  intros Hw Hne. destruct w as [|c w]; [done|].
  rewrite app_String. cbn [all_ws_from]. rewrite <-app_String.
  cbn [String.length] in Hw. rewrite (ws_len_prefix _ t _ Hw).
  apply all_ws_from_skip.
Qed.

Lemma rstrip_no_trailing (s pre w : string) :
  rstrip s = pre +:+ w → ws_len w = String.length w → w = EmptyString.
Proof.
  revert pre. induction s as [|c s IH]; intros pre Heq Hw.
  { simpl in Heq. symmetry in Heq. by apply app_eq_empty in Heq as [_ ->]. }
  cbn [rstrip] in Heq. destruct (all_ws_from 0 (String c s)) eqn:Hall.
  { symmetry in Heq. by apply app_eq_empty in Heq as [_ ->]. }
  destruct pre as [|c' pre].
  - rewrite app_Empty in Heq. destruct (decide (w = EmptyString)) as [|Hne]; [done|].
    destruct (rstrip_prefix (String c s)) as (t & Ht & Hws).
    cbn [rstrip] in Ht. rewrite Hall, Heq in Ht.
    rewrite Ht, all_ws_character, Hws in Hall by done. done.
  - rewrite app_String in Heq. injection Heq as _ Heq. by eapply IH.
Qed.

Lemma strip_substring (s : string) : ∃ a b, s = a +:+ (strip s +:+ b).
Proof.
  unfold strip. destruct (lstrip_from_suffix 0 s) as [a Ha].
  destruct (rstrip_prefix (lstrip_from 0 s)) as (b & Hb & _).
  exists a, b. by rewrite <-Hb.
Qed.

Lemma strip_no_leading (s : string) : ws_len (strip s) = 0.
Proof.
  unfold strip. destruct (rstrip_prefix (lstrip_from 0 s)) as (b & Hb & _).
  apply (ws_len_prefix_0 _ b). rewrite <-Hb. apply lstrip_from_ws.
Qed.

Lemma strip_no_trailing (s pre w : string) :
  strip s = pre +:+ w → ws_len w = String.length w → w = EmptyString.
Proof. apply rstrip_no_trailing. Qed.

(** *** [collapse_ws] *)

Lemma space2_space (c : ascii) : space2 c " " = false.
Proof. unfold space2. apply bool_decide_eq_false_2. vm_compute. lia. Qed.

Lemma space3_space_2 (c c' : ascii) : space3 c " " c' = false.
Proof.
  unfold space3. apply bool_decide_eq_false_2.
  change (code " ") with 32. lia.
Qed.

Lemma space3_space_3 (c c' : ascii) : space3 c c' " " = false.
Proof.
  unfold space3. apply bool_decide_eq_false_2.
  change (code " ") with 32. lia.
Qed.

Lemma collapse_ws_text (c : ascii) (r : string) :
  ws_len (String c r) = 0 →
  collapse_ws 0 false (String c r) = String c (collapse_ws 0 false r).
Proof. intros Hws. cbn [collapse_ws]. by rewrite Hws. Qed.

Lemma collapse_ws_space (c : ascii) (r : string) (k : nat) :
  ws_len (String c r) = S k →
  collapse_ws 0 false (String c r) = String " " (collapse_ws k true r).
Proof. intros Hws. cbn [collapse_ws]. by rewrite Hws. Qed.

(** The first byte of what [collapse_ws] makes of a text. *)
Lemma collapse_ws_head (s : string) :
  match s with
  | EmptyString => collapse_ws 0 false s = EmptyString
  | String c r =>
      (ws_len s = 0 ∧ collapse_ws 0 false s = String c (collapse_ws 0 false r))
      ∨ ∃ rest, collapse_ws 0 false s = String " " rest
  end.
Proof.
  destruct s as [|c r]; [done|].
  destruct (ws_len (String c r)) as [|k] eqn:Hws.
  - left. split; [done|]. by apply collapse_ws_text.
  - right. eexists. by apply collapse_ws_space.
Qed.

(** A byte that is not the start of whitespace does not become one when
    the text after it is collapsed. *)
Lemma collapse_ws_keeps_text (s : string) :
  ws_len s = 0 → ws_len (collapse_ws 0 false s) = 0.
Proof.
  intros Hws. destruct s as [|c1 r1]; [done|].
  rewrite collapse_ws_text by done.
  unfold ws_len in Hws |- *.
  destruct (ascii_space c1); [done|].
  pose proof (collapse_ws_head r1) as H1.
  destruct r1 as [|c2 r2]; [by rewrite H1|].
  destruct H1 as [[_ ->]|[rest ->]];
    [|rewrite space2_space; destruct rest; [done|by rewrite space3_space_2]].
  destruct (space2 c1 c2); [done|].
  pose proof (collapse_ws_head r2) as H2.
  destruct r2 as [|c3 r3]; [by rewrite H2|].
  destruct H2 as [[_ ->]|[rest ->]]; [done|].
  by rewrite space3_space_3.
Qed.

(** After the space of a run, the rest of the run gives nothing. *)
Lemma collapse_ws_run (skip : nat) (s : string) :
  ∃ t, collapse_ws skip true s = collapse_ws 0 false t ∧ ws_len t = 0.
Proof.
  revert skip. induction s as [|c s IH]; intros skip; [by exists EmptyString|].
  cbn [collapse_ws]. destruct skip as [|k]; [|apply IH].
  destruct (ws_len (String c s)) as [|k] eqn:Hws; [|apply IH].
  exists (String c s). split; [|done]. by rewrite collapse_ws_text.
Qed.

(** What starts at a byte of the result: a byte of the text that is not
    the start of whitespace, followed by what [collapse_ws] makes of the
    text after it, or the space of a run followed by what it makes of the
    text after the run. *)
Lemma collapse_ws_suffix (s : string) (skip : nat) (in_run : bool)
    (pre : string) (c : ascii) (suf : string) :
  collapse_ws skip in_run s = pre +:+ String c suf →
  (∃ pre' r, s = pre' +:+ String c r ∧ ws_len (String c r) = 0
             ∧ suf = collapse_ws 0 false r)
  ∨ (c = " "%char ∧ ∃ t, suf = collapse_ws 0 false t ∧ ws_len t = 0).
Proof.
  revert skip in_run pre. induction s as [|c1 s IH]; intros skip in_run pre Heq.
  { simpl in Heq. symmetry in Heq. by apply app_eq_empty in Heq as [_ ?]. }
  assert (∀ k b pre,
            collapse_ws k b s = pre +:+ String c suf →
            (∃ pre' r, String c1 s = pre' +:+ String c r
                       ∧ ws_len (String c r) = 0 ∧ suf = collapse_ws 0 false r)
            ∨ (c = " "%char ∧ ∃ t, suf = collapse_ws 0 false t ∧ ws_len t = 0))
    as Hrest.
  { intros k b pre0 H0. destruct (IH k b pre0 H0) as [(pre' & r & -> & Hr)|Hsp];
      [|by right].
    left. exists (String c1 pre'), r. by rewrite app_String. }
  cbn [collapse_ws] in Heq. destruct skip as [|k]; [|by eapply Hrest].
  destruct (ws_len (String c1 s)) as [|k] eqn:Hws.
  - destruct pre as [|c' pre].
    + rewrite app_Empty in Heq. injection Heq as -> <-.
      left. exists EmptyString, s. done.
    + rewrite app_String in Heq. injection Heq as _ Heq. by eapply Hrest.
  - destruct in_run; [by eapply Hrest|].
    destruct pre as [|c' pre].
    + rewrite app_Empty in Heq. injection Heq as <- <-.
      right. split; [done|]. apply collapse_ws_run.
    + rewrite app_String in Heq. injection Heq as _ Heq. by eapply Hrest.
Qed.

(** Every whitespace character of the result is a space, and what follows
    it does not start with whitespace. *)
Lemma collapse_ws_single (s pre suf : string) :
  collapse_ws 0 false s = pre +:+ suf → ws_len suf ≠ 0 →
  ∃ suf', suf = String " " suf' ∧ ws_len suf' = 0.
Proof.
  intros Heq Hws. destruct suf as [|c suf]; [done|].
  destruct (collapse_ws_suffix _ _ _ _ _ _ Heq) as [(pre' & r & _ & Hr & ->)|[-> Ht]].
  - exfalso. apply Hws. rewrite <-collapse_ws_text by done.
    by apply collapse_ws_keeps_text.
  - destruct Ht as (t & -> & Ht). eexists. split; [done|].
    by apply collapse_ws_keeps_text.
Qed.

(** *** [strip_tags] *)

Lemma chars_app_str (a b : string) : chars (a +:+ b) = chars a ++ chars b.
Proof.
  induction a as [|c a IH]; [done|]. rewrite app_String. unfold chars in *.
  simpl. by rewrite IH.
Qed.

Lemma chars_of_list (l : list ascii) : chars (string_of_list_ascii l) = l.
Proof. apply list_ascii_of_string_of_list_ascii. Qed.

Lemma tag_free_no_close (s : string) : close_angle ∉ chars s → tag_free s.
Proof.
  intros Hs pre suf ->. right. intros Hin. apply Hs.
  rewrite chars_app_str. apply elem_of_app. right. by right.
Qed.

Lemma tag_free_cons (c : ascii) (s : string) :
  c ≠ open_angle → tag_free s → tag_free (String c s).
Proof.
  intros Hc Hs pre suf Heq. destruct pre as [|c' pre].
  - rewrite app_Empty in Heq. congruence.
  - rewrite app_String in Heq. injection Heq as _ Heq. by eapply Hs.
Qed.

Lemma tag_free_open_close (s : string) :
  tag_free s → tag_free (String open_angle (String close_angle s)).
Proof.
  intros Hs pre suf Heq. destruct pre as [|c' pre].
  - rewrite app_Empty in Heq. injection Heq as <-. left. by eexists.
  - rewrite app_String in Heq. injection Heq as _ Heq.
    eapply (tag_free_cons close_angle); [done|exact Hs|exact Heq].
Qed.

Lemma strip_tags_tag_free (s : string) :
  tag_free (strip_tags_out s)
  ∧ ∀ pending, close_angle ∉ pending → tag_free (strip_tags_in pending s).
Proof.
  induction s as [|c s [IHout IHin]]; split.
  - apply tag_free_no_close, not_elem_of_nil.
  - intros pending Hp. cbn [strip_tags_in]. apply tag_free_no_close.
    change (String open_angle ?s) with (String open_angle EmptyString +:+ s).
    rewrite chars_app_str, chars_of_list, elem_of_app, elem_of_reverse.
    intros [Hin|Hin]; [|done]. by apply list_elem_of_singleton in Hin.
  - cbn [strip_tags_out]. case_decide; [by apply IHin, not_elem_of_nil|].
    by apply tag_free_cons.
  - intros pending Hp. cbn [strip_tags_in]. case_decide as Hc.
    + destruct pending; [by apply tag_free_open_close|done].
    + apply IHin. by apply not_elem_of_cons.
Qed.

Lemma tag_free_substring (a s b : string) :
  tag_free (a +:+ (s +:+ b)) → tag_free s.
Proof.
  intros Hs pre suf ->.
  destruct (Hs (a +:+ pre) (suf +:+ b)) as [[suf' Hsuf]|Hno].
  - by rewrite !string_app_assoc.
  - destruct suf as [|c suf]; [right; apply not_elem_of_nil|].
    rewrite app_String in Hsuf. injection Hsuf as -> _. left. by eexists.
  - right. intros Hin. apply Hno. rewrite chars_app_str. apply elem_of_app.
    by left.
Qed.

Lemma chars_collapse_ws (skip : nat) (in_run : bool) (s : string) (c : ascii) :
  c ∈ chars (collapse_ws skip in_run s) → c ∈ chars s ∨ c = " "%char.
Proof.
  revert skip in_run. induction s as [|c1 s IH]; intros skip in_run; [by left|].
  assert (∀ k b, c ∈ chars (collapse_ws k b s) →
                 c ∈ chars (String c1 s) ∨ c = " "%char) as Hrest.
  { intros k b [Hin| ->]%IH; [left; by right|by right]. }
  cbn [collapse_ws]. destruct skip as [|k]; [|apply Hrest].
  destruct (ws_len (String c1 s)) as [|k].
  - intros [->|Hin]%elem_of_cons; [left; by left|by eapply Hrest].
  - destruct in_run; [apply Hrest|].
    intros [->|Hin]%elem_of_cons; [by right|by eapply Hrest].
Qed.

Lemma collapse_ws_tag_free (s : string) :
  tag_free s → tag_free (collapse_ws 0 false s).
Proof.
  intros Hs pre suf Heq.
  destruct (collapse_ws_suffix _ _ _ _ _ _ Heq)
    as [(pre' & r & Hsplit & Hr & ->)|[[=] _]].
  destruct (Hs _ _ Hsplit) as [[r' ->]|Hno].
  - left. rewrite collapse_ws_text; [by eexists|].
    apply ws_len_ascii; [vm_compute; lia|done].
  - right. intros [Hin|[=]]%chars_collapse_ws. done.
Qed.

(** *** The cleaning functions *)

Lemma strip_collapse_single_spaced (s : string) :
  single_spaced (strip (collapse_ws 0 false s)).
Proof.
  intros pre suf Heq Hws.
  destruct (strip_substring (collapse_ws 0 false s)) as (a & b & Hsub).
  rewrite Heq in Hsub.
  assert (collapse_ws 0 false s = (a +:+ pre) +:+ (suf +:+ b)) as Hsplit
    by by rewrite Hsub, !string_app_assoc.
  destruct (ws_len suf) as [|n] eqn:Hn; [done|].
  destruct (collapse_ws_single _ _ _ Hsplit) as (x & Hx & Hx0).
  { by rewrite (ws_len_prefix _ _ _ Hn). }
  destruct suf as [|c suf']; [done|].
  rewrite app_String in Hx. injection Hx as -> <-.
  split; [|exists suf'; split; [done|split]].
  - intros ->. rewrite app_Empty in Heq.
    pose proof (strip_no_leading (collapse_ws 0 false s)) as H0.
    rewrite Heq, Hn in H0. done.
  - intros ->.
    pose proof (strip_no_trailing _ _ _ Heq eq_refl). done.
  - by apply (ws_len_prefix_0 _ b).
Qed.

Lemma isascii_app (a b : string) : isascii (a +:+ b) = isascii a && isascii b.
Proof.
  unfold isascii. fold (chars (a +:+ b)) (chars a) (chars b).
  by rewrite chars_app_str, forallb_app.
Qed.

Lemma isascii_ascii_only (s : string) : isascii (ascii_only s) = true.
Proof.
  induction s as [|c s IH]; [done|]. cbn [ascii_only].
  case_bool_decide as Hc; [|done].
  unfold isascii in *. simpl. rewrite IH. by rewrite bool_decide_eq_true_2.
Qed.

Lemma isascii_strip (s : string) : isascii s = true → isascii (strip s) = true.
Proof.
  destruct (strip_substring s) as (a & b & Hsub). rewrite Hsub at 1.
  rewrite !isascii_app, !andb_true_iff. tauto.
Qed.

Section cleaning_facts.
Variable nfkc : string → string.

Lemma forensic_clean_isascii (text : option string) (var_name : string) :
  isascii (forensic_clean nfkc text var_name) = true.
Proof.
  destruct text as [text|]; [|done].
  apply isascii_strip, isascii_ascii_only.
Qed.

(** X16. Whatever the environment holds, what [forensic_clean] returns is
    ASCII text with no whitespace at its start or at its end (the empty
    text for [None]). *)
Theorem forensic_clean_ascii (text : option string) (var_name : string) :
  let cleaned := forensic_clean nfkc text var_name in
  isascii cleaned = true
  ∧ (∀ c rest, cleaned = String c rest → ascii_space c = false)
  ∧ (∀ pre c, cleaned = pre +:+ String c EmptyString → ascii_space c = false).
Proof.
  cbv zeta. destruct text as [text|]; cbn [forensic_clean].
  2: { split; [done|]. split; [done|]. intros pre c Heq. symmetry in Heq.
       by apply app_eq_empty in Heq as [_ ?]. }
  set (t := ascii_only _). split; [|split].
  - apply (forensic_clean_isascii (Some text) var_name).
  - intros c rest Heq. pose proof (strip_no_leading t) as H0.
    rewrite Heq in H0. destruct (ascii_space c) eqn:Hc; [|done].
    by rewrite ws_len_head in H0.
  - intros pre c Heq. destruct (ascii_space c) eqn:Hc; [|done].
    pose proof (strip_no_trailing _ _ _ Heq) as Hw.
    rewrite ws_len_head in Hw by done. by specialize (Hw eq_refl).
Qed.

(** X17. In what [clean_rss_text] returns, every whitespace character is
    a single space between two characters that are not whitespace: no
    tab, line end or other Unicode space is left, no two spaces follow
    each other, and the text neither starts nor ends with whitespace. *)
Theorem clean_rss_text_single_spaced (text : option string)
    (pre suf : string) :
  clean_rss_text nfkc text = pre +:+ suf → ws_len suf ≠ 0 →
  pre ≠ EmptyString
  ∧ ∃ suf', suf = String " " suf' ∧ suf' ≠ EmptyString ∧ ws_len suf' = 0.
Proof.
  destruct text as [text|]; [apply strip_collapse_single_spaced|].
  intros Heq Hws. simpl in Heq. symmetry in Heq.
  apply app_eq_empty in Heq as [_ ->]. done.
Qed.

Lemma clean_rss_text_spaced (text : option string) :
  single_spaced (clean_rss_text nfkc text).
Proof.
  destruct text as [text|]; [apply strip_collapse_single_spaced|].
  intros pre suf Heq Hws. simpl in Heq. symmetry in Heq.
  apply app_eq_empty in Heq as [_ ->]. done.
Qed.

Lemma clean_rss_text_tag_free (text : option string) :
  tag_free (clean_rss_text nfkc text).
Proof.
  destruct text as [text|]; [|apply tag_free_no_close, not_elem_of_nil].
  cbn [clean_rss_text].
  destruct (strip_substring (collapse_ws 0 false (strip_tags_out (nfkc text))))
    as (a & b & Hsub).
  apply (tag_free_substring a _ b). rewrite <-Hsub.
  apply collapse_ws_tag_free, strip_tags_tag_free.
Qed.

(** X18. What [clean_rss_text] returns holds no tag: no part of it is a
    [<], then one or more characters other than [>], then a [>]. One pass
    of the substitution leaves nothing that the pattern matches, and the
    later steps bring nothing back. *)
Theorem clean_rss_text_no_tags (text : option string)
    (pre body post : string) :
  body ≠ EmptyString → close_angle ∉ chars body →
  clean_rss_text nfkc text
  ≠ pre +:+ String open_angle (body +:+ String close_angle post).
Proof.
  intros Hbody Hclose Heq.
  destruct (clean_rss_text_tag_free text _ _ Heq) as [[suf' Hsuf]|Hno].
  - destruct body as [|c body]; [done|]. rewrite app_String in Hsuf.
    injection Hsuf as -> _. apply Hclose. by left.
  - apply Hno. rewrite chars_app_str. apply elem_of_app. right. by left.
Qed.
End cleaning_facts.

Lemma clean_rss_text_single_spaced_witness :
  "a" ≠ EmptyString
  ∧ ∃ suf', " b" = String " " suf' ∧ suf' ≠ EmptyString ∧ ws_len suf' = 0.
Proof.
  apply (clean_rss_text_single_spaced id
           (Some ("a " +:+ String "009" (String "010" "b"))) "a" " b").
  - reflexivity.
  - discriminate.
Defined.

Lemma clean_rss_text_no_tags_witness :
  clean_rss_text id (Some "a <b>c")
  ≠ "a " +:+ String open_angle ("b" +:+ String close_angle "c").
Proof.
  apply (clean_rss_text_no_tags id (Some "a <b>c") "a " "b" "c").
  - discriminate.
  - apply not_elem_of_cons. split; [discriminate|apply not_elem_of_nil].
Defined.

Example clean_rss_text_sample :
  clean_rss_text id
    (Some ("  <p>Fed  holds" +:+ String "010" (String "009" "<b>rates</b></p> <>")))
  = "Fed holds rates <>".
Proof. vm_compute. reflexivity. Qed.

Example forensic_clean_sample :
  forensic_clean id (Some (" sk-" +:+ String "194" (String "160" "키")
                             +:+ "42" +:+ String "010" EmptyString)) "KEY"
  = "sk-42".
Proof. vm_compute. reflexivity. Qed.

End TextFacts.

(** ** The collection of the news *)

Module FeedFacts.
Import Py Tier1 Text Feed TextFacts ScoringFacts.

Lemma len_take_chars (n : nat) (s : string) : len (take_chars n s) ≤ n.
Proof.
  revert n. induction s as [|c s IH]; intros n; [unfold len; simpl; lia|].
  cbn [take_chars]. destruct (continuation c) eqn:Hc.
  - unfold len in *. simpl. rewrite filter_cons_False by by rewrite Hc.
    apply IH.
  - destruct n as [|n]; [unfold len; simpl; lia|].
    unfold len in *. simpl. rewrite filter_cons_True by done. simpl.
    specialize (IH n). lia.
Qed.

Section fetching_facts.
Variable nfkc : string → string.

Lemma read_entry_fetched (source : string) (e : entry) (it : Item) :
  read_entry nfkc source e = Some (Some it) → fetched source it.
Proof.
  unfold read_entry. destruct (raw_content e) as [content|]; [|done]. simpl.
  case_decide as Htitle; [done|]. intros [= <-]. unfold fetched. simpl.
  split; [done|]. split; [done|].
  split; [apply clean_rss_text_spaced|].
  split; [apply clean_rss_text_tag_free|].
  split; [apply len_take_chars|done].
Qed.

Lemma read_entries_app (source : string) (entries : list entry)
    (all_news : list Item) :
  read_entries nfkc source entries all_news
  = (all_news ++ (read_entries nfkc source entries []).1,
     (read_entries nfkc source entries []).2).
Proof.
  revert all_news. induction entries as [|e entries IH]; intros all_news.
  { simpl. by rewrite app_nil_r. }
  cbn [read_entries]. destruct (read_entry nfkc source e) as [[it|]|].
  - rewrite (IH (all_news ++ [it])), (IH ([] ++ [it])). simpl.
    by rewrite <-app_assoc.
  - apply IH.
  - simpl. by rewrite app_nil_r.
Qed.

Lemma read_entries_items (source : string) (entries : list entry) :
  let items := (read_entries nfkc source entries []).1 in
  Forall (fetched source) items ∧ length items ≤ length entries.
Proof.
  cbv zeta. induction entries as [|e entries [IHall IHlen]]; [done|].
  cbn [read_entries]. destruct (read_entry nfkc source e) as [[it|]|] eqn:He.
  - rewrite read_entries_app. simpl. split.
    + constructor; [by eapply read_entry_fetched|done].
    + lia.
  - split; [done|]. simpl. lia.
  - split; [constructor|]. simpl. lia.
Qed.

Lemma read_entries_raise (source : string) (before after : list entry)
    (e : entry) (all_news : list Item) :
  read_entry nfkc source e = None →
  (read_entries nfkc source (before ++ e :: after) all_news).1
  = (read_entries nfkc source before all_news).1.
Proof.
  intros He. revert all_news.
  induction before as [|e' before IH]; intros all_news.
  { simpl. by rewrite He. }
  cbn [app read_entries]. destruct (read_entry nfkc source e') as [[it|]|];
    [apply IH|apply IH|done].
Qed.

Variable parse : string → option (list entry).

Lemma read_source_app (all_news : list Item) (source_url : string * string) :
  read_source nfkc parse all_news source_url
  = all_news ++ read_source nfkc parse [] source_url.
Proof.
  unfold read_source. destruct (parse source_url.2) as [entries|].
  - by rewrite read_entries_app.
  - by rewrite app_nil_r.
Qed.

Lemma read_source_items (source_url : string * string) :
  let items := read_source nfkc parse [] source_url in
  Forall (fetched source_url.1) items ∧ length items ≤ 15.
Proof.
  cbv zeta. unfold read_source. destruct (parse source_url.2) as [entries|].
  - destruct (read_entries_items source_url.1 (take 15 entries)) as [Hall Hlen].
    split; [done|]. rewrite length_take in Hlen. lia.
  - split; [constructor|]. simpl. lia.
Qed.

Lemma foldl_read_source (sources : list (string * string)) (all_news : list Item) :
  foldl (read_source nfkc parse) all_news sources
  = all_news ++ concat (read_source nfkc parse [] <$> sources).
Proof.
  revert all_news. induction sources as [|su sources IH]; intros all_news.
  { simpl. by rewrite app_nil_r. }
  cbn [foldl]. rewrite IH, read_source_app, fmap_cons. cbn [concat].
  by rewrite app_assoc.
Qed.

(** X19. What [fetch_news] returns is, source after source in the order of
    [RSS_URLS], what each source gives by itself: at most 15 items, all
    carrying the name of the source; nothing when the feed cannot be
    read; and, when an entry raises (its content list is empty), the
    items of the entries before it. What a source gives does not depend
    on the other sources. *)
Theorem fetch_news_by_source :
  fetch_news nfkc parse = concat (read_source nfkc parse [] <$> RSS_URLS)
  ∧ ∀ source_url : string * string,
      let items := read_source nfkc parse [] source_url in
      length items ≤ 15
      ∧ Forall (λ it, source it = source_url.1) items
      ∧ (parse source_url.2 = None → items = [])
      ∧ (∀ before e after,
           parse source_url.2 = Some (before ++ e :: after) →
           length before < 15 →
           read_entry nfkc source_url.1 e = None →
           items = (read_entries nfkc source_url.1 before []).1).
Proof.
  split; [apply (foldl_read_source RSS_URLS [])|].
  intros source_url. cbv zeta.
  destruct (read_source_items source_url) as [Hall Hlen].
  split; [done|]. split; [|split].
  - eapply Forall_impl; [exact Hall|]. by intros it [? _].
  - intros Hparse. unfold read_source. by rewrite Hparse.
  - intros before e after Hparse Hbefore He. unfold read_source.
    rewrite Hparse, take_app_ge by lia.
    destruct (15 - length before) as [|k] eqn:Hk; [lia|].
    rewrite firstn_cons. by apply read_entries_raise.
Qed.

(** X20. Every item that [fetch_news] returns carries the name of one of
    the sources, a title that is not empty, is single-spaced and holds no
    tag, a content of at most 3000 characters, and neither a score nor a
    filter reason. There are at most 165 items, so that the scoring loop
    of [tier1_filter] makes at most 9 requests. *)
Theorem fetch_news_items :
  let news_list := fetch_news nfkc parse in
  Forall (λ it, ∃ source, source ∈ RSS_URLS.*1 ∧ fetched source it) news_list
  ∧ length news_list ≤ 165
  ∧ length (batch_starts (length news_list)) ≤ 9.
Proof.
  cbv zeta. unfold fetch_news. rewrite foldl_read_source, app_nil_l.
  assert (∀ sources : list (string * string),
            Forall (λ it, ∃ source, source ∈ sources.*1 ∧ fetched source it)
              (concat (read_source nfkc parse [] <$> sources))
            ∧ length (concat (read_source nfkc parse [] <$> sources))
              ≤ 15 * length sources) as Hsources.
  { induction sources as [|su sources [IHall IHlen]]; [done|].
    rewrite (fmap_cons (read_source nfkc parse [])). cbn [concat].
    destruct (read_source_items su) as [Hall Hlen]. split.
    - apply Forall_app. split.
      + eapply Forall_impl; [exact Hall|]. intros it Hit. exists su.1.
        split; [apply list_elem_of_here|done].
      + eapply Forall_impl; [exact IHall|]. intros it (source & Hin & Hit).
        exists source. split; [by apply list_elem_of_further|done].
    - rewrite length_app. simpl. lia. }
  destruct (Hsources RSS_URLS) as [Hall Hlen].
  change (15 * length RSS_URLS) with 165 in Hlen.
  split; [done|]. split; [done|].
  unfold batch_starts, BATCH_SIZE. rewrite length_fmap, length_seq.
  etrans; [apply (Nat.Div0.div_le_mono _ 184 20); lia|].
  vm_compute. lia.
Qed.
End fetching_facts.

Example fetch_news_sample :
  fetch_news id Scenarios.sample_feed
  = [ mk_item "Yahoo Finance" "Fed holds rates" "Rates stay." "Sat, 01 Nov 2025"
        "https://example.org/1" None None;
      mk_item "Hacker News" "Show HN" EmptyString EmptyString EmptyString
        None None ].
Proof. vm_compute. reflexivity. Qed.

End FeedFacts.

(** ** The settings and the delivery *)

Module MailFacts.
Import Py Text Pipeline Mail TextFacts.

(** X21. The settings that the run reads are ASCII, so the test of the
    password in [send_email] never stops a delivery: [send_email] always
    goes on to the SMTP session. *)
Theorem send_email_never_refused (nfkc : string → string)
    (environ : gmap string string) (smtp : config → string → string → bool)
    (safe_date report_body report_type : string) :
  let cfg := read_settings nfkc environ in
  isascii (ANTHROPIC_API_KEY cfg) = true ∧ isascii (EMAIL_USER cfg) = true
  ∧ isascii (EMAIL_PASSWORD cfg) = true ∧ isascii (EMAIL_RECEIVER cfg) = true
  ∧ send_email smtp cfg safe_date report_body report_type
    = if smtp cfg (subject report_type safe_date) report_body
      then Delivered else SmtpFailed.
Proof.
  cbv zeta. unfold read_settings. cbn [ANTHROPIC_API_KEY EMAIL_USER EMAIL_PASSWORD EMAIL_RECEIVER].
  repeat (split; [apply forensic_clean_isascii|]).
  unfold send_email. cbn [EMAIL_PASSWORD].
  by rewrite forensic_clean_isascii.
Qed.

End MailFacts.

(** ** The run: when nothing is scored, when a report is blank *)

Module RunEdges.
Import Py Tier1 Text History Pipeline Notions HistoryFacts SelectFacts
  PipelineFacts TextFacts RunFacts.

Lemma lstrip_from_all_ws (skip : nat) (s : string) :
  all_ws_from skip s = true → lstrip_from skip s = EmptyString.
Proof.
  revert skip. induction s as [|c s IH]; intros skip; [done|].
  cbn [all_ws_from lstrip_from]. destruct skip as [|k]; [|apply IH].
  destruct (ws_len (String c s)) as [|k]; [done|apply IH].
Qed.

Lemma strip_all_ws (s : string) : all_ws_from 0 s = true → strip s = EmptyString.
Proof. intros Hs. unfold strip. by rewrite lstrip_from_all_ws. Qed.

Lemma select_top_nil (scored_news : list Item) :
  select_top scored_news = Some [] ↔ scored_news = [].
Proof.
  split; [|by intros ->].
  unfold select_top. case_bool_decide; [|done]. intros [= Htake].
  apply (f_equal length) in Htake. rewrite length_take in Htake.
  rewrite (Permutation_length (sort_desc_perm key_of scored_news)) in Htake.
  unfold top_count in Htake. destruct scored_news; [done|]. simpl in Htake. lia.
Qed.

Section more_run_facts.
Variable nfkc : string → string.
Variable strip : string → string.
Variable create : nat → list Item → option string.
Variable json_loads : string → option pyval.
Variable analysis : string → list Item → string → string + string * string.
Variable summarize : string → option string.
Variable utcnow_label : string → string.
Variable items_of : ∀ A : Type, gmap string A → list (string * A).

Local Abbreviation main :=
  (main nfkc strip create json_loads analysis summarize utcnow_label items_of).

Lemma tier1_filter_nil (news_list : list Item) :
  tier1_filter create json_loads news_list = Some []
  ↔ scored_news create json_loads news_list = [].
Proof.
  unfold tier1_filter. destruct news_list as [|item news_list]; [done|].
  apply select_top_nil.
Qed.

(** X22. [tier1_filter] returns no item exactly when no item was scored,
    and then [main] stops with a [FATAL] message: nothing is analysed, sent
    or saved. A run that completes has scored at least one item. An
    answer without entries for every batch thus stops the run, which a
    request that fails does not (its batch is scored 50). *)
Theorem nothing_scored_stops_run (cfg : config) (utcnow : Schedule.datetime)
    (file : option string) (fetched : list Item) (history0 : Store) :
  ANTHROPIC_API_KEY cfg ≠ EmptyString → EMAIL_USER cfg ≠ EmptyString →
  EMAIL_PASSWORD cfg ≠ EmptyString → EMAIL_RECEIVER cfg ≠ EmptyString →
  load_history file = Some history0 →
  (tier1_filter create json_loads fetched = Some []
   ↔ scored_news create json_loads fetched = [])
  ∧ (scored_news create json_loads fetched = [] →
     ∃ message, main cfg utcnow file fetched = Fatal message)
  ∧ (∀ log text,
       main cfg utcnow file fetched = Completed log text →
       scored_news create json_loads fetched ≠ []).
Proof.
  intros Hkey Huser Hpass Hrecv Hload.
  split; [apply tier1_filter_nil|]. split.
  - intros Hnone%tier1_filter_nil. unfold Pipeline.main.
    rewrite decide_False by done. rewrite decide_False by tauto.
    rewrite Hload. destruct fetched as [|item fetched]; [by eexists|].
    rewrite Hnone. by eexists.
  - intros log text (_ & top_news & _ & Htop & Hne & _)%main_completed
      Hnone%tier1_filter_nil.
    rewrite Hnone in Htop. by injection Htop as <-.
Qed.

(** X23. A report is also rejected for being empty: when the answer of
    the analysis is made of whitespace and no-break spaces only,
    [clean_report_body] gives the empty text and the turn of the loop
    leaves the history and the log as they were, as for a failed
    analysis. *)
Theorem blank_report_rejected (top_news : list Item) (st : Store * list event)
    (report_type text : string) :
  analysis report_type top_news (get_accumulated_context report_type st.1)
  = inl text →
  all_ws_from 0 (replace_nbsp (nfkc text)) = true →
  run_report nfkc Text.strip analysis summarize utcnow_label top_news st
    report_type
  = st.
Proof.
  intros Hanswer Hblank. apply run_report_skip.
  unfold tier2_analyze, clean_report_body. rewrite Hanswer.
  by rewrite strip_all_ws.
Qed.
End more_run_facts.

Lemma nothing_scored_stops_run_witness :
  (tier1_filter Scenarios.answer_nothing Json.loads_py Samples.two_items = Some []
   ↔ scored_news Scenarios.answer_nothing Json.loads_py Samples.two_items = [])
  ∧ (scored_news Scenarios.answer_nothing Json.loads_py Samples.two_items = [] →
     ∃ message,
       main id id Scenarios.answer_nothing Json.loads_py Samples.sample_analysis
         Samples.no_summary Samples.sample_clock map_order Samples.sample_config
         Samples.saturday None Samples.two_items
       = Fatal message)
  ∧ (∀ log text,
       main id id Scenarios.answer_nothing Json.loads_py Samples.sample_analysis
         Samples.no_summary Samples.sample_clock map_order Samples.sample_config
         Samples.saturday None Samples.two_items
       = Completed log text →
       scored_news Scenarios.answer_nothing Json.loads_py Samples.two_items ≠ []).
Proof.
  apply (nothing_scored_stops_run id id Scenarios.answer_nothing Json.loads_py
           Samples.sample_analysis Samples.no_summary Samples.sample_clock
           map_order Samples.sample_config Samples.saturday None
           Samples.two_items empty_store).
  1-4: discriminate.
  reflexivity.
Defined.

Example answer_nothing_sample :
  main id id Scenarios.answer_nothing Json.loads_py Samples.sample_analysis
    Samples.no_summary Samples.sample_clock map_order Samples.sample_config
    Samples.saturday None Samples.two_items
  = Fatal "tier1_filter".
Proof. vm_compute. reflexivity. Qed.

Lemma blank_report_rejected_witness :
  run_report id Text.strip Scenarios.blank_analysis Samples.no_summary
    Samples.sample_clock Samples.two_items_top (empty_store, []) "daily"
  = (empty_store, []).
Proof.
  apply (blank_report_rejected id Scenarios.blank_analysis Samples.no_summary
           Samples.sample_clock Samples.two_items_top (empty_store, []) "daily"
           (" " +:+ String "010" (String "194" (String "160" " ")))).
  - reflexivity.
  - vm_compute. reflexivity.
Defined.

End RunEdges.

(** ** Tier 1: the scores that the success path leaves *)

Module SuccessPath.
Import Py Tier1 Notions ScoringFacts SelectFacts ScoringInvariants.

Lemma entry_scoring_twice (e1 e2 : pyval) (it : Item) :
  entry_scoring e2 (entry_scoring e1 it) = entry_scoring e2 it.
Proof. done. Qed.

Lemma foldl_entry_scoring (es : list pyval) (it : Item) :
  foldl (λ x f, f x) it (entry_scoring <$> es)
  = match last es with
    | Some entry => entry_scoring entry it
    | None => it
    end.
Proof.
  induction es as [|e es IH] using rev_ind; [done|].
  rewrite fmap_app, foldl_app, last_snoc. simpl. rewrite IH.
  destruct (last es); done.
Qed.

(** The writes to the item [i], in order. *)
Lemma alter_all_lookup (ws : list write) (batch : list Item) (i : nat) :
  alter_all ws batch !! i
  = (λ it, foldl (λ x f, f x) it
             ((λ w : write, w.2) <$> filter (λ w : write, w.1 = i) ws))
      <$> batch !! i.
Proof.
  revert batch. induction ws as [|w ws IH]; intros batch.
  { simpl. by destruct (batch !! i). }
  unfold alter_all in *. cbn [foldl]. rewrite IH.
  destruct (decide (w.1 = i)) as [Heq|Hne].
  - rewrite filter_cons_True by done. rewrite <-Heq, list_lookup_alter_eq.
    destruct (batch !! w.1); [|done]. simpl. by rewrite Heq.
  - rewrite filter_cons_False by done. by rewrite list_lookup_alter_ne.
Qed.

Lemma entries_writes_at (n i : nat) (es : list pyval) :
  (entries_writes n es).2 = false →
  (λ w : write, w.2) <$> filter (λ w : write, w.1 = i) (entries_writes n es).1
  = entry_scoring <$> filter (λ e, names n i e = true) es.
Proof.
  induction es as [|e es IH]; [done|]. cbn [entries_writes].
  unfold names at 1. unfold entry_write.
  destruct (subscript_id e) as [idx|] eqn:Hid; [|done]. simpl.
  destruct (check_idx idx n) as [j| |] eqn:Hidx; [| |done].
  - destruct (entries_writes n es) as [ws raised]. simpl in *.
    intros Hr. specialize (IH Hr).
    destruct (decide (j = i)) as [->|Hne].
    + rewrite filter_cons_True by done.
      rewrite filter_cons_True
        by (unfold names; rewrite Hid, Hidx; by apply bool_decide_eq_true_2).
      rewrite !fmap_cons, IH. done.
    + rewrite filter_cons_False by done.
      rewrite filter_cons_False; [done|].
      unfold names. rewrite Hid, Hidx. by rewrite bool_decide_eq_false_2.
  - destruct (entries_writes n es) as [ws raised]. simpl in *.
    intros Hr. specialize (IH Hr).
    rewrite filter_cons_False; [done|].
    unfold names. by rewrite Hid, Hidx.
Qed.

Section success.
Variable create : nat → list Item → option string.
Variable json_loads : string → option pyval.

(** An entry that names an item is a dict. *)
Lemma names_dict (n i : nat) (entry : pyval) :
  names n i entry = true → ∃ d, entry = PDict d.
Proof. unfold names. destruct entry; try done. eauto. Qed.

(** X24. On the success path the entry written last wins: when the loop
    over the entries of an answer ends without an exception, an item of
    the batch that no accepted entry names is left as it was, and an item
    that some entries name keeps its five fetched fields and carries as
    its score the "score" and as its filter reason the "reason" of the
    last of them (0 and the empty text where that entry has none),
    whatever the earlier ones said. On the sample, an answer that scores
    the first item 85 and then 10 leaves it with the score 10. *)
Theorem last_entry_wins (news_list : list Item) (batch_start : nat)
    (text span : string) (result : list (string * pyval)) (entries : list pyval)
    (i : nat) :
  batch_start ∈ batch_starts (length news_list) →
  let init := mk_state news_list [] in
  let batch := batch_items batch_start init in
  let final := score_all create json_loads news_list in
  create batch_start batch = Some text →
  json_span text = Some span →
  json_loads span = Some (PDict result) →
  iter_items (default (PList []) (dict_get "scores" result)) = Some entries →
  (score_entries batch_start entries init).2 = false →
  i < length batch →
  let original := news_list !!! (batch_start + i) in
  let item := store final !!! (batch_start + i) in
  match last (filter (λ e, names (length batch) i e = true) entries) with
  | Some entry =>
      ∃ d,
        entry = PDict d
        ∧ score item = Some (default (PInt 0) (dict_get "score" d))
        ∧ filter_reason item
          = Some (default (PStr EmptyString) (dict_get "reason" d))
        ∧ (source item, title item, content item, date item, link item)
          = (source original, title original, content original, date original,
             link original)
  | None => item = original
  end.
Proof.
  intros Hbs. cbv zeta. intros Hcreate Hspan Hloads Hiter Hraised Hi.
  rewrite score_entries_writes in Hraised. cbn [snd] in Hraised.
  pose proof (batch_len_eq batch_start (mk_state news_list [])) as Hlen.
  unfold batch_len in Hlen. cbn [store] in Hlen.
  set (batch := batch_items batch_start (mk_state news_list [])) in *.
  change (batch_len batch_start (mk_state news_list [])) with (length batch)
    in Hraised.
  assert (batch_start + i < length news_list) as Hlt by lia.
  assert (in_batch batch_start (batch_start + i)) as Hin.
  { unfold in_batch. unfold BATCH_SIZE in *. lia. }
  assert (store (score_all create json_loads news_list) !!! (batch_start + i)
          = match last (filter (λ e, names (length batch) i e = true) entries)
            with
            | Some entry => entry_scoring entry (news_list !!! (batch_start + i))
            | None => news_list !!! (batch_start + i)
            end) as Hitem.
  { rewrite (store_batch_item batch_start) by (by rewrite ?score_all_length).
    change (news_list !!! (batch_start + i))
      with (store (mk_state news_list []) !!! (batch_start + i)).
    rewrite (store_batch_item batch_start (batch_start + i)
               (mk_state news_list [])) by done.
    fold batch. replace (batch_start + i - batch_start) with i by lia.
    rewrite score_all_items by done. fold batch.
    rewrite (batch_writes_success _ _ _ _ _ _ _ _ Hcreate Hspan Hloads Hiter
               Hraised).
    destruct (lookup_lt_is_Some_2 batch i Hi) as [it Hit].
    rewrite (list_lookup_total_correct _ _ _ Hit).
    erewrite list_lookup_total_correct;
      [|by rewrite alter_all_lookup, Hit, entries_writes_at].
    apply foldl_entry_scoring. }
  rewrite Hitem.
  destruct (last _) as [entry|] eqn:Hlast; [|done].
  apply last_Some_elem_of, list_elem_of_filter in Hlast as [Hnames _].
  destruct (names_dict _ _ _ Hnames) as [d ->]. by exists d.
Qed.
End success.

Lemma last_entry_wins_witness :
  let item :=
    store (score_all Samples.answer_twice Json.loads_py Samples.two_items) !!! 0 in
  score item = Some (PInt 10) ∧ filter_reason item = Some (PStr EmptyString)
  ∧ title item = "a".
Proof.
  pose proof (last_entry_wins Samples.answer_twice Json.loads_py
                Samples.two_items 0 _ _ _ _ 0
                (list_elem_of_here _ _) eq_refl eq_refl eq_refl eq_refl eq_refl)
    as Hwins.
  cbv zeta in Hwins. specialize (Hwins ltac:(simpl; lia)).
  vm_compute (last _) in Hwins.
  destruct Hwins as (d & Hd & Hscore & Hreason & Hfields).
  injection Hd as <-.
  cbv zeta. split; [exact Hscore|]. split; [exact Hreason|].
  exact (f_equal (λ fields : string * string * string * string * string,
                    fields.1.1.1.2) Hfields).
Defined.

End SuccessPath.

(** ** The run: when no news is collected *)

Module FeedRun.
Import Py Tier1 Text Feed History Pipeline FeedFacts.

Section feed_run.
Variable nfkc : string → string.
Variable strip : string → string.
Variable parse : string → option (list entry).
Variable create : nat → list Item → option string.
Variable json_loads : string → option pyval.
Variable analysis : string → list Item → string → string + string * string.
Variable summarize : string → option string.
Variable utcnow_label : string → string.
Variable items_of : ∀ A : Type, gmap string A → list (string * A).

Local Abbreviation main :=
  (main nfkc strip create json_loads analysis summarize utcnow_label items_of).

(** X25. When no source gives an item (no feed can be read, or no entry
    has a title), [fetch_news] returns the empty list and [main] stops
    with a [FATAL] message before any request: nothing is scored,
    analysed, sent or saved. *)
Theorem no_news_stops_run (cfg : config) (utcnow : Schedule.datetime)
    (file : option string) (history0 : Store) :
  ANTHROPIC_API_KEY cfg ≠ EmptyString → EMAIL_USER cfg ≠ EmptyString →
  EMAIL_PASSWORD cfg ≠ EmptyString → EMAIL_RECEIVER cfg ≠ EmptyString →
  load_history file = Some history0 →
  (∀ source_url, source_url ∈ RSS_URLS →
                 read_source nfkc parse [] source_url = []) →
  fetch_news nfkc parse = []
  ∧ main cfg utcnow file (fetch_news nfkc parse) = Fatal "fetch_news".
Proof.
  intros Hkey Huser Hpass Hrecv Hload Hnone.
  assert (fetch_news nfkc parse = []) as Hfetch.
  { unfold fetch_news. rewrite foldl_read_source, app_nil_l.
    revert Hnone. generalize RSS_URLS. intros sources Hnone.
    induction sources as [|su sources IH]; [done|].
    rewrite fmap_cons. cbn [concat].
    rewrite Hnone by apply list_elem_of_here.
    apply IH. intros su' Hin. by apply Hnone, list_elem_of_further. }
  split; [done|]. rewrite Hfetch. unfold Pipeline.main.
  rewrite decide_False by done. rewrite decide_False by tauto.
  by rewrite Hload.
Qed.
End feed_run.

Lemma no_news_stops_run_witness :
  fetch_news id (λ _, None) = []
  ∧ main id id Samples.answer_both Json.loads_py Samples.sample_analysis
      Samples.no_summary Samples.sample_clock map_order Samples.sample_config
      Samples.saturday None (fetch_news id (λ _, None))
    = Fatal "fetch_news".
Proof.
  apply (no_news_stops_run id id (λ _, None) Samples.answer_both Json.loads_py
           Samples.sample_analysis Samples.no_summary Samples.sample_clock
           map_order Samples.sample_config Samples.saturday None empty_store).
  1-4: discriminate.
  - reflexivity.
  - intros source_url _. reflexivity.
Defined.

End FeedRun.
